(** * FlexGet plugins: a shallow embedding

    The development follows the sources:
    - [Py]: the fragment of the Python run time the plugins rely on
      (values, exceptions, logging, true division);
    - [Deluge]: [flexget/plugins/clients/deluge2.py]
      ([InputDeluge.generate_entries], [OutputDeluge._format_label]);
    - [Trakt]: [flexget/plugins/metainfo/trakt_lookup.py]
      ([TraktLookup], [TraktUserDataLookup], [PluginTraktLookup]);
    - [LazyEntry]: the lazy fields of an entry;
    - [Persistence]: [flexget/utils/simple_persistence.py], with the part of
      [collections.defaultdict] it uses; [ClassStore]: the same methods on a
      class store whose default factory is not callable.

    The definitions come first; the properties follow, one module for each
    module of definitions. *)

From Stdlib Require Import ZArith String Ascii List Bool Lia.
From Stdlib Require Import Floats.SpecFloat.
From stdpp Require Import base option list gmap strings.

Set Warnings "-register-all".

Local Open Scope string_scope.
Local Open Scope Z_scope.
Local Open Scope list_scope.

(* ===================================================================== *)
(** * The Python fragment *)
(* ===================================================================== *)

Module Py.

(** ** Exceptions *)

(** The exception classes that occur in the modelled code. *)
Inductive exn_class :=
| BaseLookupError      (* LookupError itself *)
| KeyError             (* subclass of LookupError *)
| IndexError           (* subclass of LookupError *)
| ConnectionError
| TypeError
| ZeroDivisionError
| OverflowError
| PluginError.

(** An exception: its class and the argument it was built with. *)
Record exn := Exn { exn_class_of : exn_class; exn_message : string }.

(** [isinstance(e, LookupError)]: what [except LookupError] catches. *)
Definition is_LookupError (e : exn) : bool :=
  match exn_class_of e with
  | BaseLookupError | KeyError | IndexError => true
  | _ => false
  end.

(** [isinstance(e, KeyError)]: what [except KeyError] catches. *)
Definition is_KeyError (e : exn) : bool :=
  match exn_class_of e with
  | KeyError => true
  | _ => false
  end.

(** [str(e)], which is what [log.debug(e)] writes: the argument, and for a
    [KeyError] the [repr] of the argument (a key, in quotes). *)
Definition exn_str (e : exn) : string :=
  if is_KeyError e then "'" +:+ exn_message e +:+ "'" else exn_message e.

(** ** Results of a call: a value or a raised exception *)

Inductive result (A : Type) :=
| Ok (a : A)
| Raise (e : exn).
Arguments Ok {A} a.
Arguments Raise {A} e.

Definition result_bind {A B} (r : result A) (k : A -> result B) : result B :=
  match r with
  | Ok a => k a
  | Raise e => Raise e
  end.

Definition is_Ok {A} (r : result A) : bool :=
  match r with Ok _ => true | Raise _ => false end.

(** ** Logging *)

Inductive level := DEBUG | INFO | WARNING | ERROR.

Record log_record := Log { log_level : level; log_message : string }.

(** ** Effectful calls: the records logged, and the result *)

Definition M (A : Type) : Type := list log_record * result A.

Definition ret {A} (a : A) : M A := ([], Ok a).
Definition raise {A} (e : exn) : M A := ([], Raise e).
Definition log_at (l : level) (msg : string) : M unit := ([Log l msg], Ok tt).

Definition bind {A B} (c : M A) (k : A -> M B) : M B :=
  match c with
  | (logs, Ok a) => let '(logs', r) := k a in (logs ++ logs', r)
  | (logs, Raise e) => (logs, Raise e)
  end.

Definition lift {A} (r : result A) : M A := ([], r).

(** [try: body / except <caught> as e: handler e / else: orelse a]. *)
Definition try_except_else {A B}
    (body : M A) (caught : exn -> bool) (handler : exn -> M B)
    (orelse : A -> M B) : M B :=
  match body with
  | (logs, Ok a) => let '(logs', r) := orelse a in (logs ++ logs', r)
  | (logs, Raise e) =>
      if caught e
      then let '(logs', r) := handler e in (logs ++ logs', r)
      else (logs, Raise e)
  end.

(** ** Values *)

(** Python floats are IEEE 754 binary64 numbers. *)
Definition prec : Z := 53.
Definition emax : Z := 1024.

Inductive value :=
| VNone
| VBool (b : bool)
| VInt (z : Z)
| VFloat (f : spec_float)
| VStr (s : string)
| VList (l : list value)
| VDict (d : list (string * value)).

(** An integer as an exact (not normalised) binary number. *)
Definition exact_of_Z (z : Z) : spec_float :=
  match z with
  | Z0 => S754_zero false
  | Zpos p => S754_finite false p 0
  | Zneg p => S754_finite true p 0
  end.

(** [float(z)]: the nearest binary64 number, [OverflowError] beyond. *)
Definition float_of_int (z : Z) : result spec_float :=
  match binary_normalize prec emax z 0 false with
  | S754_infinity _ => Raise (Exn OverflowError "int too large to convert to float")
  | f => Ok f
  end.

(** The float [2.0], that is 2^52 * 2^(-51). *)
Definition two : spec_float := S754_finite false 4503599627370496 (-51).

Definition is_zero (f : spec_float) : bool :=
  match f with S754_zero _ => true | _ => false end.

(** [a / b] on two ints (true division): the correctly rounded quotient. *)
Definition int_true_div (a b : Z) : result value :=
  if Z.eqb b 0 then Raise (Exn ZeroDivisionError "division by zero")
  else match SFdiv prec emax (exact_of_Z a) (exact_of_Z b) with
       | S754_infinity _ =>
           Raise (Exn OverflowError "integer division result too large for a float")
       | f => Ok (VFloat f)
       end.

(** [x / y] on two floats. *)
Definition float_true_div (x y : spec_float) : result value :=
  if is_zero y then Raise (Exn ZeroDivisionError "float division by zero")
  else Ok (VFloat (SFdiv prec emax x y)).

(** [type(v).__name__] *)
Definition type_name (v : value) : string :=
  match v with
  | VNone => "NoneType"
  | VBool _ => "bool"
  | VInt _ => "int"
  | VFloat _ => "float"
  | VStr _ => "str"
  | VList _ => "list"
  | VDict _ => "dict"
  end.

(** The numeric operands of [/]: [bool] is a subclass of [int]. *)
Inductive number := NInt (z : Z) | NFloat (f : spec_float).

Definition as_number (v : value) : option number :=
  match v with
  | VBool b => Some (NInt (if b then 1 else 0))
  | VInt z => Some (NInt z)
  | VFloat f => Some (NFloat f)
  | _ => None
  end.

(** [a / b] under [from __future__ import division]. *)
Definition true_div (a b : value) : result value :=
  match as_number a, as_number b with
  | Some (NInt x), Some (NInt y) => int_true_div x y
  | Some (NFloat x), Some (NFloat y) => float_true_div x y
  | Some (NInt x), Some (NFloat y) =>
      result_bind (float_of_int x) (fun fx => float_true_div fx y)
  | Some (NFloat x), Some (NInt y) =>
      result_bind (float_of_int y) (fun fy => float_true_div x fy)
  | _, _ =>
      Raise (Exn TypeError ("unsupported operand type(s) for /: '"
                            +:+ type_name a +:+ "' and '" +:+ type_name b +:+ "'"))
  end.

(** Lookup in a dict written as the list of its items. *)
Fixpoint dict_get {A} (k : string) (d : list (string * A)) : option A :=
  match d with
  | [] => None
  | (k', v) :: d' => if String.eqb k k' then Some v else dict_get k d'
  end.

(** [list(s)]: the one-character strings of [s]. *)
Fixpoint chars (s : string) : list value :=
  match s with
  | EmptyString => []
  | String c s' => VStr (String c EmptyString) :: chars s'
  end.

(** The elements [for f in v] runs over. *)
Definition iterate (v : value) : result (list value) :=
  match v with
  | VList l => Ok l
  | VDict d => Ok (map (fun kv => VStr (fst kv)) d)
  | VStr s => Ok (chars s)
  | _ => Raise (Exn TypeError ("'" +:+ type_name v +:+ "' object is not iterable"))
  end.

(** [v[k]] for a string key [k]. *)
Definition getitem_str (v : value) (k : string) : result value :=
  match v with
  | VDict d =>
      match dict_get k d with
      | Some x => Ok x
      | None => Raise (Exn KeyError k)
      end
  | VStr _ => Raise (Exn TypeError "string indices must be integers")
  | VList _ => Raise (Exn TypeError "list indices must be integers")
  | _ =>
      Raise (Exn TypeError ("'" +:+ type_name v +:+ "' object is not subscriptable"))
  end.

(** [[g x for x in l]]. *)
Fixpoint comprehension (g : value -> result value) (l : list value)
    : result (list value) :=
  match l with
  | [] => Ok []
  | x :: l' =>
      result_bind (g x) (fun y =>
      result_bind (comprehension g l') (fun ys => Ok (y :: ys)))
  end.

End Py.

Export Py.

Notation "'let*' x ':=' c 'in' k" := (Py.bind c (fun x => k))
  (at level 10, x name, c at level 100, k at level 200).
Notation "'let?' x ':=' c 'in' k" := (Py.result_bind c (fun x => k))
  (at level 10, x name, c at level 100, k at level 200).

(** Modelled from the spec: the class [Entry] of [flexget.entry], which is
    not among the sources.  A record is a mapping from string field names to
    values; [entry[k] = v] writes one field and [Entry(k=v, ...)] builds the
    record holding the given fields. *)
Abbreviation entry := (gmap string value).

(* ===================================================================== *)
(** * flexget/plugins/clients/deluge2.py *)
(* ===================================================================== *)

Module Deluge.

(** ** The field mapping tables of [InputDeluge] *)

(** A value of [settings_map] is a field name, or a tuple of a field name
    and a function. *)
Inductive flexget_key :=
| Name (name : string)
| Tuple (name : string) (format_func : value -> result value).

Definition field_name (k : flexget_key) : string :=
  match k with Name n => n | Tuple n _ => n end.

(** The value stored for a key: [format_func(value)] for a tuple. *)
Definition formatted (k : flexget_key) (v : value) : result value :=
  match k with Name _ => Ok v | Tuple _ format_func => format_func v end.

(** [lambda time: time / 3600] *)
Definition hours (time : value) : result value := true_div time (VInt 3600).

(** [lambda size: size / 1024 / 1024] *)
Definition megabytes (size : value) : result value :=
  let? kb := true_div size (VInt 1024) in true_div kb (VInt 1024).

(** [lambda file_dicts: [f['path'] for f in file_dicts]] *)
Definition file_paths (file_dicts : value) : result value :=
  let? fs := iterate file_dicts in
  let? paths := comprehension (fun f => getitem_str f "path") fs in
  Ok (VList paths).

(** The items of the dict literal [settings_map]. *)
Definition settings_items : list (string * flexget_key) :=
    [ ("name", Name "title");
      ("hash", Name "torrent_info_hash");
      ("num_peers", Name "torrent_peers");
      ("num_seeds", Name "torrent_seeds");
      ("progress", Name "deluge_progress");
      ("seeding_time", Tuple "deluge_seed_time" hours);
      ("private", Name "deluge_private");
      ("state", Name "deluge_state");
      ("eta", Name "deluge_eta");
      ("ratio", Name "deluge_ratio");
      ("move_on_completed_path", Name "deluge_movedone");
      ("save_path", Name "deluge_path");
      ("label", Name "deluge_label");
      ("total_size", Tuple "content_size" megabytes);
      ("files", Tuple "content_files" file_paths) ].

Definition settings_map : gmap string flexget_key :=
  list_to_map settings_items.

(** The items of the dict literal [extra_settings_map]. *)
Definition extra_settings_items : list (string * flexget_key) :=
    [ ("active_time", Tuple "active_time" hours);
      ("compact", Name "compact");
      ("distributed_copies", Name "distributed_copies");
      ("download_payload_rate", Name "download_payload_rate");
      ("file_progress", Name "file_progress");
      ("is_auto_managed", Name "is_auto_managed");
      ("is_seed", Name "is_seed");
      ("max_connections", Name "max_connections");
      ("max_download_speed", Name "max_download_speed");
      ("max_upload_slots", Name "max_upload_slots");
      ("max_upload_speed", Name "max_upload_speed");
      ("message", Name "message");
      ("move_on_completed", Name "move_on_completed");
      ("next_announce", Name "next_announce");
      ("num_files", Name "num_files");
      ("num_pieces", Name "num_pieces");
      ("paused", Name "paused");
      ("peers", Name "peers");
      ("piece_length", Name "piece_length");
      ("prioritize_first_last", Name "prioritize_first_last");
      ("queue", Name "queue");
      ("remove_at_ratio", Name "remove_at_ratio");
      ("seed_rank", Name "seed_rank");
      ("stop_at_ratio", Name "stop_at_ratio");
      ("stop_ratio", Name "stop_ratio");
      ("total_done", Name "total_done");
      ("total_payload_download", Name "total_payload_download");
      ("total_payload_upload", Name "total_payload_upload");
      ("total_peers", Name "total_peers");
      ("total_seeds", Name "total_seeds");
      ("total_uploaded", Name "total_uploaded");
      ("total_wanted", Name "total_wanted");
      ("tracker", Name "tracker");
      ("tracker_host", Name "tracker_host");
      ("tracker_status", Name "tracker_status");
      ("trackers", Name "trackers");
      ("upload_payload_rate", Name "upload_payload_rate") ].

Definition extra_settings_map : gmap string flexget_key :=
  list_to_map extra_settings_items.

(** ** [InputDeluge.generate_entries] *)

(** [if key in self.settings_map: flexget_key = self.settings_map[key]
     else: flexget_key = self.extra_settings_map[key]] *)
Definition lookup_flexget_key (key : string) : result flexget_key :=
  match settings_map !! key with
  | Some k => Ok k
  | None =>
      match extra_settings_map !! key with
      | Some k => Ok k
      | None => Raise (Exn KeyError key)
      end
  end.

(** The body of [for key, value in torrent_dict.items()]. *)
Definition set_field (e : entry) (key : string) (value : value) : result entry :=
  let? flexget_key := lookup_flexget_key key in
  match flexget_key with
  | Tuple name format_func =>
      let? value' := format_func value in
      Ok (<[name := value']> e)
  | Name name => Ok (<[name := value]> e)
  end.

(** The loop [for key, value in torrent_dict.items(): ...] on [entry]. *)
Fixpoint set_fields (e : entry) (torrent_dict : list (string * value))
    : result entry :=
  match torrent_dict with
  | [] => Ok e
  | (key, value) :: rest =>
      let? e' := set_field e key value in
      set_fields e' rest
  end.

(** Every key of [d] is in a table, and its value is accepted by the
    function of its tuple, if any. *)
Definition all_mapped (d : list (string * value)) : Prop :=
  Forall (fun kv => exists k v,
            lookup_flexget_key (fst kv) = Ok k
            /\ formatted k (snd kv) = Ok v) d.

(** [os.path.join(a, b)] on a POSIX system. *)
Definition ends_with_slash (path : string) : bool :=
  match rev (list_ascii_of_string path) with
  | c :: _ => Ascii.eqb c "/"%char
  | [] => false
  end.

Definition path_join (path b : string) : string :=
  if String.prefix "/" b then b
  else if String.eqb path "" || ends_with_slash path then path +:+ b
  else path +:+ "/" +:+ b.

Section generate_entries.

(** The file system and the home directory are the environment's. *)
Variable isfile : string -> bool.
Variable expanduser : string -> string.

(** [config.get('config_path', '')] *)
Variable config_path_option : string.

(** The part of the loop body that locates the torrent file. *)
Definition locate (hash : string) (e : entry) : M entry :=
  let config_path := expanduser config_path_option in
  if String.eqb config_path "" then ret e
  else
    let torrent_path :=
      path_join (path_join config_path "state") (hash +:+ ".torrent") in
    if isfile torrent_path then
      let e := <["location" := VStr torrent_path]> e in
      let torrent_path :=
        if String.prefix "/" torrent_path then torrent_path
        else "/" +:+ torrent_path in
      ret (<["url" := VStr ("file://" +:+ torrent_path)]> e)
    else
      let* _ := log_at WARNING ("Did not find torrent file at " +:+ torrent_path) in
      ret e.

(** [generate_entries], given the answer [torrents] of the daemon to
    [core.get_torrents_status]. *)
Fixpoint generate_entries (torrents : list (string * list (string * value)))
    : M (list entry) :=
  match torrents with
  | [] => ret []
  | (hash, torrent_dict) :: rest =>
      let e : entry := <["url" := VStr ""]> {["deluge_id" := VStr hash]} in
      let* e := locate hash e in
      let* e := lift (set_fields e torrent_dict) in
      let* entries := generate_entries rest in
      ret (e :: entries)
  end.

End generate_entries.

(** ** Lower case of 8-bit text *)

(** Text of the configuration is modelled by [string], whose characters are
    8-bit; [lower] is exact on ASCII text. *)

Definition in_range (lo hi : nat) (c : ascii) : bool :=
  (lo <=? nat_of_ascii c)%nat && (nat_of_ascii c <=? hi)%nat.

Definition is_upper (c : ascii) : bool := in_range 65 90 c.
Definition is_lower (c : ascii) : bool := in_range 97 122 c.
Definition is_digit (c : ascii) : bool := in_range 48 57 c.

Definition lower_char (c : ascii) : ascii :=
  if is_upper c then ascii_of_nat (nat_of_ascii c + 32) else c.

(** [s.lower()] *)
Fixpoint lower (s : string) : string :=
  match s with
  | EmptyString => EmptyString
  | String c s' => String (lower_char c) (lower s')
  end.

(** ** [OutputDeluge._format_label] *)

(** A label is a [str]: a sequence of Unicode code points. *)
Definition text : Type := list N.

Definition is_ascii (c : N) : bool := (c <? 128)%N.

Definition between (lo hi c : N) : bool := (lo <=? c)%N && (c <=? hi)%N.

(** The code points of ['_'] and ['-']. *)
Definition underscore : N := 95%N.
Definition hyphen : N := 45%N.

(** [A-Z] becomes [a-z]; other ASCII is kept. *)
Definition ascii_lower (c : N) : N :=
  if between 65 90 c then (c + 32)%N else c.

(** [[a-zA-Z0-9_]] *)
Definition is_ascii_word (c : N) : bool :=
  between 97 122 c || between 65 90 c || between 48 57 c || (c =? underscore)%N.

Section Unicode.

(** The Unicode character database of the Python run time, consulted for
    the code points that are not ASCII.  [unicode_lower before c after] is
    what [str.lower()] puts for the code point [c] standing between
    [before] and [after]: its lowercase mapping, of one or more code points
    (the context decides for a capital sigma).  [unicode_word c] tells
    whether [c] is in the class [\w] of a [str] pattern: alphanumeric in
    some script. *)
Variable unicode_lower : text -> N -> text -> text.
Variable unicode_word : N -> bool.

(** What [str.lower()] puts for one code point. *)
Definition lower_code_point (before : text) (c : N) (after : text) : text :=
  if is_ascii c then [ascii_lower c] else unicode_lower before c after.

Fixpoint lower_from (before label : text) : text :=
  match label with
  | [] => []
  | c :: after =>
      lower_code_point before c after ++ lower_from (before ++ [c]) after
  end.

(** [label.lower()] *)
Definition str_lower (label : text) : text := lower_from [] label.

(** The class [\w]. *)
Definition is_word (c : N) : bool :=
  if is_ascii c then is_ascii_word c else unicode_word c.

(** The class [[^\w-]]. *)
Definition not_word_or_hyphen (c : N) : bool :=
  negb (is_word c || (c =? hyphen)%N).

(** [re.sub('[cls]+', repl, s)] for a character class [cls]: scanning from
    the left, every longest run of characters of the class is replaced by
    [repl]; [in_match] tells that the scan is inside such a run. *)
Fixpoint sub_class_plus (cls : N -> bool) (repl : text)
    (in_match : bool) (s : text) : text :=
  match s with
  | [] => []
  | c :: s' =>
      if cls c then
        if in_match then sub_class_plus cls repl true s'
        else repl ++ sub_class_plus cls repl true s'
      else c :: sub_class_plus cls repl false s'
  end.

Definition re_sub_class_plus (cls : N -> bool) (repl s : text) : text :=
  sub_class_plus cls repl false s.

(** [return re.sub('[^\w-]+', '_', label.lower())] *)
Definition _format_label (label : text) : text :=
  re_sub_class_plus not_word_or_hyphen [underscore] (str_lower label).

(** Lower-casing a code point that [str.lower()] has produced gives the
    code point again, whatever stands around it. *)
Definition lower_is_stable : Prop :=
  forall before c after d,
    is_ascii c = false -> In d (unicode_lower before c after) ->
    forall before' after', lower_code_point before' d after' = [d].

End Unicode.

(** A lowercase letter of [a-z], a digit of [0-9], an underscore or a
    hyphen. *)
Definition label_char (c : N) : bool :=
  between 97 122 c || between 48 57 c || (c =? underscore)%N || (c =? hyphen)%N.

(** [s] is not empty and its last character is in the class. *)
Fixpoint ends_in (cls : N -> bool) (s : text) : bool :=
  match s with
  | [] => false
  | [c] => cls c
  | _ :: s' => ends_in cls s'
  end.

(** [s] is not empty and its first character is in the class. *)
Definition starts_in (cls : N -> bool) (s : text) : bool :=
  match s with
  | [] => false
  | c :: _ => cls c
  end.

(** The code points of an ASCII literal. *)
Fixpoint code_points (s : string) : text :=
  match s with
  | EmptyString => []
  | String c s' => N_of_ascii c :: code_points s'
  end.

(** *** An excerpt of the Unicode character database

    The entries of the database (version 14.0) for the code points
    U+00C9 LATIN CAPITAL LETTER E WITH ACUTE (lowercase U+00E9),
    U+00E9 LATIN SMALL LETTER E WITH ACUTE,
    U+0130 LATIN CAPITAL LETTER I WITH DOT ABOVE (lowercase U+0069 U+0307),
    U+0307 COMBINING DOT ABOVE (a mark: not alphanumeric),
    U+4E2D, a CJK ideograph (a letter without case), and
    U+1D400 MATHEMATICAL BOLD CAPITAL A (an uppercase letter without a
    lowercase mapping).  The excerpt is used on these code points only. *)
Definition ucd_lower (before : text) (c : N) (after : text) : text :=
  if (c =? 0xC9)%N then [0xE9%N]
  else if (c =? 0x130)%N then [0x69%N; 0x307%N]
  else [c].

Definition ucd_word (c : N) : bool :=
  (c =? 0xC9)%N || (c =? 0xE9)%N || (c =? 0x130)%N || (c =? 0x4E2D)%N
  || (c =? 0x1D400)%N.

(** The property [Uppercase] of the database. *)
Definition ucd_uppercase (c : N) : bool :=
  (c =? 0xC9)%N || (c =? 0x130)%N || (c =? 0x1D400)%N.

End Deluge.

(* ===================================================================== *)
(** * Lazy fields of an entry *)
(* ===================================================================== *)

Module LazyEntry.

(** The lazy fields of [Entry] ([Entry.register_lazy_func], the lazy read of
    a field) belong to [flexget.entry], which is not among the sources.
    This module models them from the specification, as its binding
    registry: a map from field name to binding id and, for every binding
    id, the evaluation state of the binding. *)

(** Modelled from the spec: the evaluation state of a lazy binding of
    [Entry], [Pending | Evaluated | Failed]. *)
Inductive eval_state := Pending | Evaluated | Failed.

(** Modelled from the spec: a lazy binding of [Entry]. It holds the field
    names it was registered with, the callable that was registered (it is
    given the record, runs the resolver and writes the mapped fields), and
    its state. *)
Record binding := Binding {
  b_fields : list string;
  b_func : entry -> M entry;
  b_state : eval_state
}.

(** Modelled from the spec: an [Entry] with its binding registry.
    [invoked] lists, oldest first, the ids of the bindings whose callable
    has been invoked; [observed] collects what was logged. *)
Record lazy_entry := LazyEntry {
  fields : entry;
  covering : gmap string nat;
  bindings : list binding;
  invoked : list nat;
  observed : list log_record
}.

(** Modelled from the spec: an [Entry] created from an initial set of
    fields, with no binding. *)
Definition of_fields (e : entry) : lazy_entry :=
  LazyEntry e ∅ [] [] [].

(** Modelled from the spec: [Entry.register_lazy_func(func, keys)], the
    [register] of the specification.  Reading any field of [keys], if not
    materialized, must first invoke [func]; nothing is evaluated at
    registration. *)
Definition register_lazy_func (func : entry -> M entry) (keys : list string)
    (r : lazy_entry) : lazy_entry :=
  let id := length (bindings r) in
  LazyEntry (fields r)
            (foldr (fun k m => <[k := id]> m) (covering r) keys)
            (bindings r ++ [Binding keys func Pending])
            (invoked r)
            (observed r).

Definition set_state (s : eval_state) (b : binding) : binding :=
  Binding (b_fields b) (b_func b) s.

(** Modelled from the spec: the evaluation of the binding [id] of an
    [Entry].  A pending binding has its callable invoked on the record; a
    failure is observed at debug level and leaves the fields as they are.
    A binding that is not pending is left alone. *)
Definition evaluate (id : nat) (r : lazy_entry) : lazy_entry :=
  match bindings r !! id with
  | Some b =>
      match b_state b with
      | Pending =>
          match b_func b (fields r) with
          | (logs, Ok e') =>
              LazyEntry e' (covering r)
                        (<[id := set_state Evaluated b]> (bindings r))
                        (invoked r ++ [id])
                        (observed r ++ logs)
          | (logs, Raise ex) =>
              LazyEntry (fields r) (covering r)
                        (<[id := set_state Failed b]> (bindings r))
                        (invoked r ++ [id])
                        (observed r ++ logs ++ [Log DEBUG (exn_str ex)])
          end
      | _ => r
      end
  | None => r
  end.

(** Modelled from the spec: what a read of a field of an [Entry] returns,
    the materialized value, else the default, else [FieldNotFound] (a
    [KeyError] on the field name). *)
Definition value_or_default (o : option value) (default : option value)
    (field_name : string) : result value :=
  match o, default with
  | Some v, _ => Ok v
  | None, Some d => Ok d
  | None, None => Raise (Exn KeyError field_name)
  end.

(** Modelled from the spec: [Entry.get(field_name, default)], the [get] of
    the specification. *)
Definition get (field_name : string) (default : option value) (r : lazy_entry)
    : result value * lazy_entry :=
  match fields r !! field_name with
  | Some v => (Ok v, r)
  | None =>
      match covering r !! field_name with
      | Some id =>
          let r' := evaluate id r in
          (value_or_default (fields r' !! field_name) default field_name, r')
      | None => (value_or_default None default field_name, r)
      end
  end.

(** The record after reading the fields [names] one after the other. *)
Definition read_all (names : list string) (r : lazy_entry) : lazy_entry :=
  foldl (fun r name => snd (get name None r)) r names.

(** How many times the callable of binding [id] has been invoked. *)
Definition invocations (id : nat) (r : lazy_entry) : nat :=
  length (filter (fun i => i = id) (invoked r)).

(** The binding [id] is registered and pending. *)
Definition pending (id : nat) (r : lazy_entry) : Prop :=
  exists b, bindings r !! id = Some b /\ b_state b = Pending.

(** The binding [id] is registered and has been evaluated, or has failed. *)
Definition settled (id : nat) (r : lazy_entry) : Prop :=
  exists b, bindings r !! id = Some b /\ b_state b <> Pending.

(** Every binding whose callable has been invoked was invoked once, and is
    settled. *)
Definition consistent (r : lazy_entry) : Prop :=
  NoDup (invoked r) /\ forall id, id ∈ invoked r -> settled id r.

End LazyEntry.

(* ===================================================================== *)
(** * flexget/plugins/metainfo/trakt_lookup.py *)
(* ===================================================================== *)

Module Trakt.

Section Lookups.

(** What a lookup returns: a show, a season, an episode or a movie of the
    trakt API.  The database session that the lookups are given is left
    out. *)
Variable media : Type.

(** A value of a field map: the name of an attribute, or a function of
    the object. *)
Inductive source :=
| Attr (name : string)
| Func (f : media -> result value).

Definition field_map : Type := list (string * source).

(** The keys of a dict, which is what iterating over it gives. *)
Definition keys (m : field_map) : list string := map fst m.

(** [Entry.update_using_map(field_map, source_item)], a method of the
    class [Entry], is not among the sources. *)
Variable update_using_map : field_map -> media -> entry -> M entry.

(** ** [class TraktLookup] *)

Record TraktLookup := {
  tl_field_map : field_map;
  tl_lookup_function : entry -> M media
}.

(** [TraktLookup.__call__(self, entry)] *)
Definition TraktLookup_call (self : TraktLookup) (e : entry) : M entry :=
  try_except_else
    (tl_lookup_function self e)
    is_LookupError
    (fun ex => let* _ := log_at DEBUG (exn_str ex) in ret e)
    (fun result => update_using_map (tl_field_map self) result e).

(** ** [class TraktUserDataLookup] *)

Record TraktUserDataLookup := {
  ud_field_name : string;
  ud_data_type : string;
  ud_media_type : string;
  ud_lookup_function : string -> string -> entry -> M value
}.

(** [TraktUserDataLookup.__call__(self, entry)] *)
Definition TraktUserDataLookup_call (self : TraktUserDataLookup) (e : entry)
    : M entry :=
  try_except_else
    (ud_lookup_function self (ud_data_type self) (ud_media_type self) e)
    is_LookupError
    (fun ex => let* _ := log_at DEBUG (exn_str ex) in ret e)
    (fun result => ret (<[ud_field_name self := result]> e)).

(** ** [class PluginTraktLookup] *)

(** The four getters call the trakt API; they are the environment's. *)
Variable get_series get_season get_episode get_movie : entry -> M media.

(** [self.getter_map] *)
Definition getter_map (media_type : string) : option (entry -> M media) :=
  if String.eqb media_type "show" then Some get_series
  else if String.eqb media_type "season" then Some get_season
  else if String.eqb media_type "episode" then Some get_episode
  else if String.eqb media_type "movie" then Some get_movie
  else None.

(** [self.trakt.lookup_map[data_type][media_type]]: the user data lookups
    of the API client, [None] where a key is missing. *)
Variable lookup_map : string -> string -> option (media -> value -> M value).

(** [d[k]] for a dict given by its lookup function. *)
Definition subscript {A} (o : option A) (k : string) : M A :=
  match o with
  | Some a => ret a
  | None => raise (Exn KeyError k)
  end.

(** [PluginTraktLookup.lazy_lookup(self, entry, media_type, mapping)] *)
Definition lazy_lookup (e : entry) (media_type : string) (mapping : field_map)
    : M entry :=
  try_except_else
    (let* getter := subscript (getter_map media_type) media_type in
     getter e)
    is_LookupError
    (fun ex => let* _ := log_at DEBUG (exn_str ex) in ret e)
    (fun trakt_media => update_using_map mapping trakt_media e).

(** ['Unknown data type="%s" or media type="%s"' % (data_type, media_type)] *)
Definition unknown_type (data_type media_type : string) : string :=
  let quote := String (ascii_of_nat 34) EmptyString in
  "Unknown data type=" +:+ quote +:+ data_type +:+ quote
  +:+ " or media type=" +:+ quote +:+ media_type +:+ quote.

(** [PluginTraktLookup.lazy_user_data_lookup(self, data_type, media_type,
    entry)]; a call that falls off the end of the function returns
    [None]. *)
Definition lazy_user_data_lookup (data_type media_type : string) (e : entry)
    : M value :=
  let* fs :=
    try_except_else
      (let* lookup := subscript (getter_map media_type) media_type in
       let* user_data_lookup :=
         subscript (lookup_map data_type media_type) data_type in
       ret (lookup, user_data_lookup))
      is_KeyError
      (fun _ => raise (Exn PluginError (unknown_type data_type media_type)))
      ret in
  let '(lookup, user_data_lookup) := fs in
  try_except_else
    (let* m := lookup e in
     let* title := subscript (e !! "title") "title" in
     user_data_lookup m title)
    is_LookupError
    (fun ex => let* _ := log_at DEBUG (exn_str ex) in ret VNone)
    ret.

(** ** The field maps of [PluginTraktLookup] *)

(** The bodies of the lambdas of the maps; [list_actors] and
    [get_translations_dict] come from [api_trakt].
    - [genre_names]: [lambda i: [db_genre.name for db_genre in i.genres]]
    - [imdb_url]: [lambda series: series.imdb_id and
      'http://www.imdb.com/title/%s' % series.imdb_id]
    - [series_url]: [lambda series: series.slug and
      'https://trakt.tv/shows/%s' % series.slug]
    - [episode_titles]: [lambda show: [episodes.title for episodes in
      show.episodes]]
    - [actors]: [lambda show: list_actors(show.actors)]
    - [translations kind]: [lambda show:
      get_translations_dict(show.translations, kind)]
    - [ep_id]: [lambda ep: 'S%02dE%02d' % (ep.season, ep.number)] *)
Variable genre_names imdb_url series_url episode_titles actors ep_id
  : media -> result value.
Variable translations : string -> media -> result value.

Definition series_map : field_map :=
  [ ("trakt_series_name", Attr "title");
    ("trakt_series_year", Attr "year");
    ("imdb_id", Attr "imdb_id");
    ("tvdb_id", Attr "tvdb_id");
    ("tmdb_id", Attr "tmdb_id");
    ("trakt_show_id", Attr "id");
    ("trakt_slug", Attr "slug");
    ("tvrage_id", Attr "tvrage_id");
    ("trakt_trailer", Attr "trailer");
    ("trakt_homepage", Attr "homepage");
    ("trakt_series_runtime", Attr "runtime");
    ("trakt_series_first_aired", Attr "first_aired");
    ("trakt_series_air_time", Attr "air_time");
    ("trakt_series_air_day", Attr "air_day");
    ("trakt_series_content_rating", Attr "certification");
    ("trakt_genres", Func genre_names);
    ("trakt_series_network", Attr "network");
    ("imdb_url", Func imdb_url);
    ("trakt_series_url", Func series_url);
    ("trakt_series_country", Attr "country");
    ("trakt_series_status", Attr "status");
    ("trakt_series_overview", Attr "overview");
    ("trakt_series_rating", Attr "rating");
    ("trakt_series_votes", Attr "votes");
    ("trakt_series_language", Attr "language");
    ("trakt_series_aired_episodes", Attr "aired_episodes");
    ("trakt_series_episodes", Func episode_titles);
    ("trakt_languages", Attr "translation_languages") ].

Definition series_actor_map : field_map :=
  [ ("trakt_actors", Func actors) ].

Definition show_translate_map : field_map :=
  [ ("trakt_translations", Func (translations "show")) ].

Definition episode_map : field_map :=
  [ ("trakt_ep_name", Attr "title");
    ("trakt_ep_imdb_id", Attr "imdb_id");
    ("trakt_ep_tvdb_id", Attr "tvdb_id");
    ("trakt_ep_tmdb_id", Attr "tmdb_id");
    ("trakt_ep_tvrage", Attr "tvrage_id");
    ("trakt_episode_id", Attr "id");
    ("trakt_ep_first_aired", Attr "first_aired");
    ("trakt_ep_overview", Attr "overview");
    ("trakt_ep_abs_number", Attr "number_abs");
    ("trakt_season", Attr "season");
    ("trakt_episode", Attr "number");
    ("trakt_ep_id", Func ep_id) ].

Definition season_map : field_map :=
  [ ("trakt_season_name", Attr "title");
    ("trakt_season_tvdb_id", Attr "tvdb_id");
    ("trakt_season_tmdb_id", Attr "tmdb_id");
    ("trakt_season_tvrage", Attr "tvrage_id");
    ("trakt_season_id", Attr "id");
    ("trakt_season_first_aired", Attr "first_aired");
    ("trakt_season_overview", Attr "overview");
    ("trakt_season_episode_count", Attr "episode_count");
    ("trakt_season", Attr "number");
    ("trakt_season_aired_episodes", Attr "aired_episodes") ].

Definition movie_map : field_map :=
  [ ("movie_name", Attr "title");
    ("movie_year", Attr "year");
    ("trakt_movie_name", Attr "title");
    ("trakt_movie_year", Attr "year");
    ("trakt_movie_id", Attr "id");
    ("trakt_slug", Attr "slug");
    ("imdb_id", Attr "imdb_id");
    ("tmdb_id", Attr "tmdb_id");
    ("trakt_tagline", Attr "tagline");
    ("trakt_overview", Attr "overview");
    ("trakt_released", Attr "released");
    ("trakt_runtime", Attr "runtime");
    ("trakt_rating", Attr "rating");
    ("trakt_votes", Attr "votes");
    ("trakt_homepage", Attr "homepage");
    ("trakt_trailer", Attr "trailer");
    ("trakt_language", Attr "language");
    ("trakt_genres", Func genre_names);
    ("trakt_languages", Attr "translation_languages") ].

Definition movie_translate_map : field_map :=
  [ ("trakt_translations", Func (translations "movie")) ].

Definition movie_actor_map : field_map :=
  [ ("trakt_actors", Func actors) ].

(** ** [PluginTraktLookup.on_task_metainfo] *)

(** [entry.register_lazy_func(TraktLookup(m, getter), m)] *)
Definition register_lookup (m : field_map) (getter : entry -> M media)
    (r : LazyEntry.lazy_entry) : LazyEntry.lazy_entry :=
  LazyEntry.register_lazy_func
    (TraktLookup_call {| tl_field_map := m; tl_lookup_function := getter |})
    (keys m) r.

(** The [if]/[else] statement on [self.__entry_is_show(entry)] of the loop
    body: the registrations of [TraktLookup]s for one entry.  The private
    tests [__entry_is_show], [__entry_is_episode] and [__entry_is_season]
    read the entry through [Entry.get] and [in], which belong to
    [flexget.entry]; the statement is given their outcomes, and what their
    reads do to the entry is no part of it.  Neither is the end of the loop
    body, which registers the lookups of user data when an account is
    configured (see [TraktUserData]) and reads the entry again to find its
    media type. *)
Definition register_lookups (is_show is_episode is_season : bool)
    (r : LazyEntry.lazy_entry) : LazyEntry.lazy_entry :=
  if is_show then
    let r := register_lookup series_map get_series r in
    let r := register_lookup series_actor_map get_series r in
    let r := register_lookup show_translate_map get_series r in
    if is_episode then register_lookup episode_map get_episode r
    else if is_season then register_lookup season_map get_season r
    else r
  else
    let r := register_lookup movie_map get_movie r in
    let r := register_lookup movie_actor_map get_movie r in
    register_lookup movie_translate_map get_movie r.

(** The record of a show that is neither an episode nor a season, with
    the materialized fields [e], after the loop body. *)
Definition show_entry (e : entry) : LazyEntry.lazy_entry :=
  register_lookups true false false (LazyEntry.of_fields e).

End Lookups.

(** ** An instance *)

(** [apply_mapping(external_object, mapping)] of the specification stands
    for the method [Entry.update_using_map], which is not among the sources.
    An object is given by the dict of its attributes.  For each entry of the
    mapping the value is obtained (the attribute of that name, or the
    function applied to the object) and written to the field; when it cannot
    be obtained the field is not set, and the mapping goes on. *)

(** Modelled from the spec: the attribute access of [Entry.update_using_map]
    on the external object. *)
Definition getattr (obj : value) (name : string) : option value :=
  match obj with
  | VDict d => dict_get name d
  | _ => None
  end.

(** Modelled from the spec: the value of one entry of the mapping of
    [Entry.update_using_map], if it can be obtained. *)
Definition obtain (src : source value) (obj : value) : option value :=
  match src with
  | Attr _ name => getattr obj name
  | Func _ f => match f obj with Ok v => Some v | Raise _ => None end
  end.

(** Modelled from the spec: [apply_mapping], entry by entry, for
    [Entry.update_using_map]. *)
Fixpoint apply_mapping (m : field_map value) (obj : value) (e : entry) : entry :=
  match m with
  | [] => e
  | (internal_name, src) :: m' =>
      match obtain src obj with
      | Some v => apply_mapping m' obj (<[internal_name := v]> e)
      | None => apply_mapping m' obj e
      end
  end.

(** An episode named Pilot, and a lookup that finds it. *)
Definition pilot : value :=
  VDict [("title", VStr "Pilot"); ("season", VInt 1); ("number", VInt 1)].

Definition pilot_lookup : TraktLookup value :=
  {| tl_field_map :=
       [("trakt_ep_name", Attr value "title");
        ("trakt_ep_overview", Attr value "overview")];
     tl_lookup_function := fun _ => ret pilot |}.

(** A record on which [pilot_lookup] is registered for its two fields. *)
Definition pilot_entry : LazyEntry.lazy_entry :=
  LazyEntry.register_lazy_func
    (TraktLookup_call value (fun m obj e => ret (apply_mapping m obj e))
       pilot_lookup)
    (keys value (tl_field_map value pilot_lookup))
    (LazyEntry.of_fields {["title" := VStr "Show S01E01"]}).

End Trakt.

(* ===================================================================== *)
(** * flexget/utils/simple_persistence.py *)
(* ===================================================================== *)

Module Persistence.

(** What a key of the in-memory store holds: a value, or the sentinel
    [DELETE = object()]. *)
Inductive cell :=
| Value (v : value)
| DELETE.

(** [c == DELETE] *)
Definition is_DELETE (c : cell) : bool :=
  match c with DELETE => true | Value _ => false end.

(** ** [collections.defaultdict] *)

(** The first argument of [defaultdict(...)]: [None], a callable (given by
    the object a call of it returns), or an object that is not callable. *)
Inductive argument (V O : Type) :=
| NoneArg
| Callable (produces : V)
| Instance (o : O).
Arguments NoneArg {V O}.
Arguments Callable {V O} produces.
Arguments Instance {V O} o.

(** Task and plugin names are strings or [None]. *)
Record defaultdict (V : Type) := DefaultDict {
  default_factory : option V;
  items : gmap (option string) V
}.
Arguments DefaultDict {V}.
Arguments default_factory {V}.
Arguments items {V}.

(** [defaultdict(a)]: the first argument must be callable or [None]. *)
Definition defaultdict_init {V O} (a : argument V O) : result (defaultdict V) :=
  match a with
  | NoneArg => Ok (DefaultDict None ∅)
  | Callable v => Ok (DefaultDict (Some v) ∅)
  | Instance _ => Raise (Exn TypeError "first argument must be callable or None")
  end.

Definition key_text (k : option string) : string :=
  match k with Some s => s | None => "None" end.

(** [d[k]] on a defaultdict: a missing key is filled by the factory. *)
Definition defaultdict_getitem {V} (k : option string) (d : defaultdict V)
    : result V * defaultdict V :=
  match items d !! k with
  | Some v => (Ok v, d)
  | None =>
      match default_factory d with
      | Some v => (Ok v, DefaultDict (default_factory d) (<[k := v]> (items d)))
      | None => (Raise (Exn KeyError (key_text k)), d)
      end
  end.

(** ** The table [simple_persistence] *)

Record SimpleKeyValue := {
  task : option string;
  plugin : option string;
  key : string;
  value_of : value
}.

(** ** [class SimplePersistence] *)

(** [class_store = defaultdict(defaultdict(dict))], evaluated when the
    class body is: [defaultdict(dict)] is built first and is then the
    first argument of the outer [defaultdict]. *)
Definition class_store_init : result (defaultdict (defaultdict (gmap string cell))) :=
  let? inner :=
    defaultdict_init (Callable ∅ : argument (gmap string cell) unit) in
  defaultdict_init
    (Instance inner : argument (defaultdict (gmap string cell))
                               (defaultdict (gmap string cell))).

(** The state the methods work on: the class attribute [class_store],
    shared by all instances, the table, and the log. *)
Record state := State {
  class_store : defaultdict (defaultdict (gmap string cell));
  table : list SimpleKeyValue;
  logged : list log_record
}.

(** A method call: its result, and the state it leaves (also when it
    raises). *)
Definition P (A : Type) : Type := state -> result A * state.

Definition pret {A} (a : A) : P A := fun st => (Ok a, st).
Definition praise {A} (e : exn) : P A := fun st => (Raise e, st).
Definition pbind {A B} (c : P A) (k : A -> P B) : P B :=
  fun st =>
    match c st with
    | (Ok a, st') => k a st'
    | (Raise e, st') => (Raise e, st')
    end.
Definition plog (l : level) (msg : string) : P unit :=
  fun st => (Ok tt, State (class_store st) (table st) (logged st ++ [Log l msg])).

Notation "'let!' x ':=' c 'in' k" := (pbind c (fun x => k))
  (at level 10, x name, c at level 100, k at level 200).

(** An instance: [self.taskname] and [self.plugin]. *)
Record SimplePersistence := {
  taskname : option string;
  plugin_name : option string
}.

(** [SimplePersistence(plugin)]: [__init__] sets [taskname] to [None]. *)
Definition new (plugin : option string) : SimplePersistence :=
  {| taskname := None; plugin_name := plugin |}.

(** [SimpleTaskPersistence(task)] for a task with the given name, read
    while [current_plugin] is the plugin running. *)
Definition new_for_task (task_name : string) (current_plugin : option string)
    : SimplePersistence :=
  {| taskname := Some task_name; plugin_name := current_plugin |}.

(** An access to the dict [self.store], that is
    [self.class_store[self.taskname][self.plugin]]: both subscripts are
    evaluated, then [f] reads or updates the dict, which is the object held
    by the class store. *)
Definition with_store {A} (self : SimplePersistence)
    (f : gmap string cell -> result A * gmap string cell) : P A :=
  fun st =>
    match defaultdict_getitem (taskname self) (class_store st) with
    | (Raise e, cs) => (Raise e, State cs (table st) (logged st))
    | (Ok by_plugin, cs) =>
        match defaultdict_getitem (plugin_name self) by_plugin with
        | (Raise e, by_plugin') =>
            (Raise e,
             State (DefaultDict (default_factory cs)
                                (<[taskname self := by_plugin']> (items cs)))
                   (table st) (logged st))
        | (Ok d, by_plugin') =>
            let '(r, d') := f d in
            let by_plugin'' :=
              DefaultDict (default_factory by_plugin')
                          (<[plugin_name self := d']> (items by_plugin')) in
            (r,
             State (DefaultDict (default_factory cs)
                                (<[taskname self := by_plugin'']> (items cs)))
                   (table st) (logged st))
        end
    end.

(** [k in self.store] *)
Definition store_contains (self : SimplePersistence) (k : string) : P bool :=
  with_store self (fun d => (Ok (bool_decide (is_Some (d !! k))), d)).

(** [self.store[k]] *)
Definition store_getitem (self : SimplePersistence) (k : string) : P cell :=
  with_store self (fun d =>
    match d !! k with
    | Some c => (Ok c, d)
    | None => (Raise (Exn KeyError k), d)
    end).

(** [self.store[k] = c] *)
Definition store_setitem (self : SimplePersistence) (k : string) (c : cell)
    : P unit :=
  with_store self (fun d => (Ok tt, <[k := c]> d)).

(** [session.query(SimpleKeyValue).filter(task == ...).filter(plugin == ...)
     .filter(key == ...).first()] *)
Definition matches (self : SimplePersistence) (k : string) (row : SimpleKeyValue)
    : bool :=
  bool_decide (task row = taskname self)
  && bool_decide (plugin row = plugin_name self)
  && String.eqb (key row) k.

Definition query_first (self : SimplePersistence) (k : string)
    : P (option SimpleKeyValue) :=
  fun st => (Ok (List.find (matches self k) (table st)), st).

Definition not_contained (k : string) : exn :=
  Exn KeyError (k +:+ " is not contained in the simple_persistence table.").

Section Methods.

(** [repr(value)], used by the debug message of [__setitem__]. *)
Variable repr : value -> string.

(** [SimplePersistence.__setitem__(self, key, value)] *)
Definition __setitem__ (self : SimplePersistence) (k : string) (v : value)
    : P unit :=
  let! _ := plog DEBUG ("setting key " +:+ k +:+ " value " +:+ repr v) in
  store_setitem self k (Value v).

(** [SimplePersistence.__getitem__(self, key)]; the membership test is on
    the string ['key']. *)
Definition __getitem__ (self : SimplePersistence) (k : string) : P cell :=
  let! found := store_contains self "key" in
  if found then
    let! c := store_getitem self k in
    if is_DELETE c then praise (not_contained k)
    else store_getitem self k
  else
    let! skv := query_first self k in
    match skv with
    | None => praise (not_contained k)
    | Some row =>
        let! _ := store_setitem self k (Value (value_of row)) in
        pret (Value (value_of row))
    end.

(** [SimplePersistence.__delitem__(self, key)] *)
Definition __delitem__ (self : SimplePersistence) (k : string) : P unit :=
  store_setitem self k DELETE.

(** [SimplePersistence.flush(self)]: the body logs, and ends on the
    comment [# TODO: the stuff]. *)
Definition flush (self : SimplePersistence) : P unit :=
  plog DEBUG "Flushing simple persistence updates to db.".

(** ** Sequences of calls *)

Inductive call :=
| SetItem (k : string) (v : value)
| GetItem (k : string)
| DelItem (k : string)
| Flush.

(** One call; a [GetItem] answers with what [__getitem__] returns. *)
Definition exec (self : SimplePersistence) (c : call) : P (option cell) :=
  match c with
  | SetItem k v => let! _ := __setitem__ self k v in pret None
  | GetItem k => let! x := __getitem__ self k in pret (Some x)
  | DelItem k => let! _ := __delitem__ self k in pret None
  | Flush => let! _ := flush self in pret None
  end.

(** The calls one after the other; the answer of the last one. *)
Fixpoint run (self : SimplePersistence) (calls : list call) : P (option cell) :=
  match calls with
  | [] => pret None
  | [c] => exec self c
  | c :: rest => let! _ := exec self c in run self rest
  end.

(** The module is imported (the class body builds [class_store]), an
    instance is created and the calls are made on it. *)
Definition import_and_run (rows : list SimpleKeyValue)
    (self : SimplePersistence) (calls : list call) : result (option cell) :=
  let? cs := class_store_init in
  fst (run self calls (State cs rows [])).

End Methods.

(** The class store [defaultdict(lambda: defaultdict(dict))] would be:
    both levels fill a missing key. *)
Definition nested_store : defaultdict (defaultdict (gmap string cell)) :=
  DefaultDict (Some (DefaultDict (Some ∅) ∅)) ∅.

(** The dict [class_store[taskname][plugin]] as it stands, or as the
    factories would fill it in; nothing is filled in here. *)
Definition peek_plugin (self : SimplePersistence)
    (by_plugin : defaultdict (gmap string cell)) : gmap string cell :=
  match items by_plugin !! plugin_name self with
  | Some d => d
  | None => match default_factory by_plugin with Some d => d | None => ∅ end
  end.

Definition peek (self : SimplePersistence) (st : state) : gmap string cell :=
  match items (class_store st) !! taskname self with
  | Some by_plugin => peek_plugin self by_plugin
  | None =>
      match default_factory (class_store st) with
      | Some by_plugin => peek_plugin self by_plugin
      | None => ∅
      end
  end.

(** The dict [self.store] can be reached: neither subscript raises. *)
Definition accessible (self : SimplePersistence) (st : state) : Prop :=
  is_Ok (fst (with_store self (fun d => (Ok tt, d)) st)) = true.

(** The first row of the table for the instance and the key. *)
Definition stored_row (self : SimplePersistence) (k : string) (st : state)
    : option SimpleKeyValue :=
  List.find (matches self k) (table st).

(** A call that leaves the table as it is, whatever it returns or raises. *)
Definition preserves_table {A} (c : P A) : Prop :=
  forall st, table (snd (c st)) = table st.

End Persistence.

(* ===================================================================== *)
(** * The class store and its default factory *)
(* ===================================================================== *)

Module ClassStore.

Import Persistence.

(** What the attribute [default_factory] of a [defaultdict] holds: [None],
    a callable (given by the object a call of it returns), or an object
    that is not callable, of the type named.  The class body writes
    [defaultdict(defaultdict(dict))]: the factory meant for [class_store]
    is the object [defaultdict(dict)], of type [collections.defaultdict]. *)
Inductive factory (V : Type) :=
| NoFactory
| Calls (produces : V)
| NotCallable (type_name : string).
Arguments NoFactory {V}.
Arguments Calls {V} produces.
Arguments NotCallable {V} type_name.

(** The outer dict, from task names to the dicts of the plugins. *)
Record store_dict := StoreDict {
  store_factory : factory (defaultdict (gmap string cell));
  store_items : gmap (option string) (defaultdict (gmap string cell))
}.

(** The call [o()] of an object that is not callable. *)
Definition not_callable (type_name : string) : exn :=
  Exn TypeError ("'" +:+ type_name +:+ "' object is not callable").

(** [defaultdict.__missing__(key)]: [KeyError] without a factory;
    otherwise the factory is called, and what it returns is stored under
    the key and returned. *)
Definition __missing__ (k : option string) (d : store_dict)
    : result (defaultdict (gmap string cell)) * store_dict :=
  match store_factory d with
  | NoFactory => (Raise (Exn KeyError (key_text k)), d)
  | Calls v => (Ok v, StoreDict (store_factory d) (<[k := v]> (store_items d)))
  | NotCallable type_name => (Raise (not_callable type_name), d)
  end.

(** [d[k]] *)
Definition getitem (k : option string) (d : store_dict)
    : result (defaultdict (gmap string cell)) * store_dict :=
  match store_items d !! k with
  | Some v => (Ok v, d)
  | None => __missing__ k d
  end.

(** The class attribute [class_store], the table, and the log. *)
Record state := State {
  class_store : store_dict;
  table : list SimpleKeyValue;
  logged : list log_record
}.

Definition P (A : Type) : Type := state -> result A * state.

Definition pret {A} (a : A) : P A := fun st => (Ok a, st).
Definition praise {A} (e : exn) : P A := fun st => (Raise e, st).
Definition pbind {A B} (c : P A) (k : A -> P B) : P B :=
  fun st =>
    match c st with
    | (Ok a, st') => k a st'
    | (Raise e, st') => (Raise e, st')
    end.
Definition plog (l : level) (msg : string) : P unit :=
  fun st => (Ok tt, State (class_store st) (table st) (logged st ++ [Log l msg])).

Declare Scope class_store_scope.
Notation "'let!' x ':=' c 'in' k" := (pbind c (fun x => k))
  (at level 10, x name, c at level 100, k at level 200) : class_store_scope.
Local Open Scope class_store_scope.

(** An access to [self.store], that is
    [self.class_store[self.taskname][self.plugin]]: the first subscript is
    on the class store, the second on the dict of the task. *)
Definition with_store {A} (self : SimplePersistence)
    (f : gmap string cell -> result A * gmap string cell) : P A :=
  fun st =>
    match getitem (taskname self) (class_store st) with
    | (Raise e, cs) => (Raise e, State cs (table st) (logged st))
    | (Ok by_plugin, cs) =>
        match defaultdict_getitem (plugin_name self) by_plugin with
        | (Raise e, by_plugin') =>
            (Raise e,
             State (StoreDict (store_factory cs)
                              (<[taskname self := by_plugin']> (store_items cs)))
                   (table st) (logged st))
        | (Ok d, by_plugin') =>
            let '(r, d') := f d in
            let by_plugin'' :=
              DefaultDict (default_factory by_plugin')
                          (<[plugin_name self := d']> (items by_plugin')) in
            (r,
             State (StoreDict (store_factory cs)
                              (<[taskname self := by_plugin'']> (store_items cs)))
                   (table st) (logged st))
        end
    end.

(** [k in self.store] *)
Definition store_contains (self : SimplePersistence) (k : string) : P bool :=
  with_store self (fun d => (Ok (bool_decide (is_Some (d !! k))), d)).

(** [self.store[k]] *)
Definition store_getitem (self : SimplePersistence) (k : string) : P cell :=
  with_store self (fun d =>
    match d !! k with
    | Some c => (Ok c, d)
    | None => (Raise (Exn KeyError k), d)
    end).

(** [self.store[k] = c] *)
Definition store_setitem (self : SimplePersistence) (k : string) (c : cell)
    : P unit :=
  with_store self (fun d => (Ok tt, <[k := c]> d)).

Definition query_first (self : SimplePersistence) (k : string)
    : P (option SimpleKeyValue) :=
  fun st => (Ok (List.find (matches self k) (table st)), st).

Section Methods.

(** [repr(value)], used by the debug message of [__setitem__]. *)
Variable repr : value -> string.

(** [SimplePersistence.__setitem__(self, key, value)] *)
Definition __setitem__ (self : SimplePersistence) (k : string) (v : value)
    : P unit :=
  let! _ := plog DEBUG ("setting key " +:+ k +:+ " value " +:+ repr v) in
  store_setitem self k (Value v).

(** [SimplePersistence.__getitem__(self, key)]; the membership test is on
    the string ['key']. *)
Definition __getitem__ (self : SimplePersistence) (k : string) : P cell :=
  let! found := store_contains self "key" in
  if found then
    let! c := store_getitem self k in
    if is_DELETE c then praise (not_contained k)
    else store_getitem self k
  else
    let! skv := query_first self k in
    match skv with
    | None => praise (not_contained k)
    | Some row =>
        let! _ := store_setitem self k (Value (value_of row)) in
        pret (Value (value_of row))
    end.

(** [SimplePersistence.__delitem__(self, key)] *)
Definition __delitem__ (self : SimplePersistence) (k : string) : P unit :=
  store_setitem self k DELETE.

(** [SimplePersistence.flush(self)] *)
Definition flush (self : SimplePersistence) : P unit :=
  plog DEBUG "Flushing simple persistence updates to db.".

End Methods.


(** The class store of [Persistence], whose factory is [None] or a
    callable. *)
Definition of_defaultdict (d : defaultdict (defaultdict (gmap string cell)))
    : store_dict :=
  StoreDict (match default_factory d with
             | Some v => Calls v
             | None => NoFactory
             end)
            (items d).

Definition of_state (st : Persistence.state) : state :=
  State (of_defaultdict (Persistence.class_store st))
        (Persistence.table st) (Persistence.logged st).

End ClassStore.

(* ===================================================================== *)
(** * More of the Python fragment *)
(* ===================================================================== *)

Module PyMore.

(** [bool(v)]: [None], [False], zero, and the empty string, list and dict are
    false. *)
Definition truthy (v : value) : bool :=
  match v with
  | VNone => false
  | VBool b => b
  | VInt z => negb (Z.eqb z 0)
  | VFloat f => negb (is_zero f)
  | VStr s => negb (String.eqb s "")
  | VList l => match l with [] => false | _ => true end
  | VDict d => match d with [] => false | _ => true end
  end.

(** [d.get(k)] on a record: the value, or [None]. *)
Definition get_or_None (e : entry) (k : string) : value :=
  match e !! k with Some v => v | None => VNone end.

(** [d.setdefault(k, v)] on a dict, for its effect on the dict: a key that
    is there keeps its value. *)
Definition setdefault (k : string) (v : value) (d : gmap string value)
    : gmap string value :=
  match d !! k with
  | Some _ => d
  | None => <[k := v]> d
  end.

Definition upper_char (c : ascii) : ascii :=
  if Deluge.is_lower c then ascii_of_nat (nat_of_ascii c - 32) else c.

(** [s.capitalize()], on the 8-bit characters of [Deluge.lower]: the first
    character in upper case, the others in lower case. *)
Definition capitalize (s : string) : string :=
  match s with
  | EmptyString => EmptyString
  | String c s' => String (upper_char c) (Deluge.lower s')
  end.

(** [sep.join(l)] *)
Fixpoint join (sep : string) (l : list string) : string :=
  match l with
  | [] => ""
  | [x] => x
  | x :: l' => x +:+ sep +:+ join sep l'
  end.

End PyMore.

Export PyMore.

(* ===================================================================== *)
(** * deluge2.py: the configuration and the download step *)
(* ===================================================================== *)

Module DelugeConfig.

(** ** [DelugePlugin.prepare_config] *)

(** [config.setdefault('host', 'localhost');
     config.setdefault('port', 58846); return config] *)
Definition DelugePlugin_prepare_config (config : gmap string value)
    : gmap string value :=
  setdefault "port" (VInt 58846) (setdefault "host" (VStr "localhost") config).

(** ** [InputDeluge.prepare_config] *)

(** The value of the key ['filter']: by the schema of the plugin, a dict
    with at most the keys ['label'] and ['state'], both strings. *)
Record filter := Filter {
  label : option string;
  state : option string
}.

(** The dict of the options of [from_deluge3]: the value of ['filter'], if
    the key is there, and the other keys. *)
Record input_options := InputOptions {
  filter_of : option filter;
  options : gmap string value
}.

(** The configuration of [from_deluge3] is a boolean or a dict. *)
Inductive input_config :=
| InputFlag (b : bool)
| InputDict (o : input_options).

(** [InputDeluge.prepare_config(self, config)] *)
Definition InputDeluge_prepare_config (config : input_config) : input_options :=
  let o :=
    match config with
    | InputFlag _ => InputOptions None ∅
    | InputDict o => o
    end in
  let f :=
    match filter_of o with
    | Some f =>
        Some (Filter (match label f with
                      | Some l => Some (Deluge.lower l)
                      | None => None
                      end)
                     (match state f with
                      | Some st => Some (capitalize st)
                      | None => None
                      end))
    | None => None
    end in
  InputOptions f (DelugePlugin_prepare_config (options o)).

(** ** [OutputDeluge.prepare_config] *)

(** The float [0.90], that is 8106479329266893 * 2^(-53). *)
Definition ninety_percent : spec_float :=
  S754_finite false 8106479329266893 (-53).

(** [OutputDeluge.prepare_config(self, config)], for a configuration that is
    a boolean or a dict. *)
Definition OutputDeluge_prepare_config (config : bool + gmap string value)
    : gmap string value :=
  let config :=
    match config with
    | inl b => {["enabled" := VBool b]}
    | inr c => c
    end in
  let config := DelugePlugin_prepare_config config in
  let config := setdefault "enabled" (VBool true) config in
  let config := setdefault "path" (VStr "") config in
  let config := setdefault "movedone" (VStr "") config in
  let config := setdefault "label" (VStr "") config in
  let config := setdefault "main_file_ratio" (VFloat ninety_percent) config in
  let config := setdefault "magnetization_timeout" (VInt 0) config in
  let config := setdefault "keep_subs" (VBool true) config in
  setdefault "hide_sparse_files" (VBool false) config.

(** The defaults of [DelugePlugin.prepare_config]. *)
Definition connection_defaults : gmap string value :=
  list_to_map [("host", VStr "localhost"); ("port", VInt 58846)].

(** The defaults of [OutputDeluge.prepare_config]. *)
Definition output_defaults : gmap string value :=
  list_to_map
    [ ("host", VStr "localhost");
      ("port", VInt 58846);
      ("enabled", VBool true);
      ("path", VStr "");
      ("movedone", VStr "");
      ("label", VStr "");
      ("main_file_ratio", VFloat ninety_percent);
      ("magnetization_timeout", VInt 0);
      ("keep_subs", VBool true);
      ("hide_sparse_files", VBool false) ].

(** ** [OutputDeluge.on_task_download] *)

(** [for entry in task.accepted: if not entry.get('deluge_id'):
     download.instance.get_temp_file(task, entry, handle_magnets=True)],
    for the method [get_temp_file] of the plugin [download].  The result
    lists the entries that [get_temp_file] was called with, in order. *)
Fixpoint get_temp_files (get_temp_file : entry -> result unit)
    (accepted : list entry) : list entry * result unit :=
  match accepted with
  | [] => ([], Ok tt)
  | e :: rest =>
      if truthy (get_or_None e "deluge_id") then
        get_temp_files get_temp_file rest
      else
        match get_temp_file e with
        | Ok _ =>
            let '(called, r) := get_temp_files get_temp_file rest in
            (e :: called, r)
        | Raise ex => ([e], Raise ex)
        end
  end.

(** [OutputDeluge.on_task_download(self, task, config)].
    [get_plugin_by_name] is [plugin.get_plugin_by_name], which gives the
    method [get_temp_file] of the plugin it finds or raises;
    [download_configured] is ['download' in task.config] and [accepted] is
    [task.accepted]. *)
Definition on_task_download
    (get_plugin_by_name : string -> result (entry -> result unit))
    (config : bool + gmap string value)
    (download_configured : bool) (accepted : list entry)
    : list entry * result unit :=
  let config := OutputDeluge_prepare_config config in
  match config !! "enabled" with
  | None => ([], Raise (Exn KeyError "enabled"))
  | Some enabled =>
      if negb (truthy enabled) then ([], Ok tt)
      else if negb download_configured then
        match get_plugin_by_name "download" with
        | Raise ex => ([], Raise ex)
        | Ok get_temp_file => get_temp_files get_temp_file accepted
        end
      else ([], Ok tt)
  end.

(** ** [InputDeluge.generate_entries]: the torrent file *)

(** [os.path.join(config_path, 'state', hash + '.torrent')] *)
Definition torrent_path (config_path hash : string) : string :=
  Deluge.path_join (Deluge.path_join config_path "state") (hash +:+ ".torrent").

(** ['file://' + torrent_path], after a ['/'] is put in front of a path that
    does not start with one. *)
Definition file_url (path : string) : string :=
  "file://" +:+ (if String.prefix "/" path then path else "/" +:+ path).

(** The warning for a torrent file that is not there. *)
Definition not_found (path : string) : log_record :=
  Log WARNING ("Did not find torrent file at " +:+ path).

(** What an entry made for the torrent [hash] holds in ['url'] and
    ['location'], for the file system [isfile] and the expanded
    ['config_path'] of the configuration. *)
Definition located (isfile : string -> bool) (config_path hash : string)
    (e : entry) : Prop :=
  if String.eqb config_path "" then
    e !! "url" = Some (VStr "") /\ e !! "location" = None
  else if isfile (torrent_path config_path hash) then
    e !! "url" = Some (VStr (file_url (torrent_path config_path hash)))
    /\ e !! "location" = Some (VStr (torrent_path config_path hash))
  else
    e !! "url" = Some (VStr "") /\ e !! "location" = None.

(** The warnings logged for the torrents. *)
Definition warnings (isfile : string -> bool) (config_path : string)
    (torrents : list (string * list (string * value))) : list log_record :=
  if String.eqb config_path "" then []
  else
    flat_map (fun t =>
                if isfile (torrent_path config_path (fst t)) then []
                else [not_found (torrent_path config_path (fst t))])
             torrents.

(** A dict of file attributes that holds the path [p]. *)
Definition has_path (f p : value) : Prop :=
  exists d, f = VDict d /\ dict_get "path" d = Some p.

End DelugeConfig.

(* ===================================================================== *)
(** * trakt_lookup.py: the user data of the account *)
(* ===================================================================== *)

Module TraktUserData.

Import Trakt.

(** A value of [user_data_map]: the name of a field, or a dict from media
    type to the name of a field. *)
Inductive user_data_entry :=
| FieldName (name : string)
| ByMediaType (names : list (string * string)).

(** [PluginTraktLookup.user_data_map] *)
Definition user_data_map : list (string * user_data_entry) :=
  [ ("collected", FieldName "trakt_collected");
    ("watched", FieldName "trakt_watched");
    ("ratings",
      ByMediaType
        [ ("show", "trakt_series_user_rating");
          ("season", "trakt_season_user_rating");
          ("episode", "trakt_ep_user_rating");
          ("movie", "trakt_movie_user_rating") ]) ].

(** ['Unknown user data type "%s"' % data_type] *)
Definition unknown_user_data_type (data_type : string) : string :=
  let quote := String (ascii_of_nat 34) EmptyString in
  "Unknown user data type " +:+ quote +:+ data_type +:+ quote.

(** [PluginTraktLookup.__get_user_data_field_name(self, data_type,
    media_type)] *)
Definition get_user_data_field_name (data_type media_type : string)
    : result string :=
  match dict_get data_type user_data_map with
  | None => Raise (Exn PluginError (unknown_user_data_type data_type))
  | Some (ByMediaType names) =>
      match dict_get media_type names with
      | Some name => Ok name
      | None => Raise (Exn KeyError media_type)
      end
  | Some (FieldName name) => Ok name
  end.

(** [PluginTraktLookup.__get_media_type_from_entry(self, entry)].  The
    tests read the entry through [in] and [Entry.get]; the function is given
    their outcomes: [has_season] and [has_episode] are
    ['series_season' in entry] and ['series_episode' in entry], [is_show]
    and [is_movie] are the truth values of [__entry_is_show(entry)] and
    [__entry_is_movie(entry)], and [title] is the field ['title'], if the
    entry has one.  The exception is built from the message and
    [entry['title']], which is evaluated first. *)
Definition get_media_type_from_entry
    (has_season has_episode is_show is_movie : bool) (title : option value)
    : result string :=
  let entry_is_episode := has_season && has_episode in
  let entry_is_season := has_season && negb entry_is_episode in
  if entry_is_episode then Ok "episode"
  else if entry_is_season then Ok "season"
  else if is_show then Ok "show"
  else if is_movie then Ok "movie"
  else
    match title with
    | None => Raise (Exn KeyError "title")
    | Some _ => Raise (Exn PluginError "Unknown media type in entry %s")
    end.

Section Registration.

Variable media : Type.
Variable get_series get_season get_episode get_movie : entry -> M media.
Variable lookup_map : string -> string -> option (media -> value -> M value).

(** The lookup of user data that the plugin registers for a field. *)
Definition user_data_lookup (field_name data_type media_type : string)
    : TraktUserDataLookup :=
  {| ud_field_name := field_name;
     ud_data_type := data_type;
     ud_media_type := media_type;
     ud_lookup_function :=
       lazy_user_data_lookup media get_series get_season get_episode get_movie
         lookup_map |}.

(** [not media_type], for a media type that is [None] or a string. *)
Definition not_given (media_type : option string) : bool :=
  match media_type with
  | None => true
  | Some s => String.eqb s ""
  end.

(** [PluginTraktLookup.__register_lazy_user_data_lookup(self, entry,
    data_type, media_type=None)]; [media_type_from_entry] is the outcome of
    [self.__get_media_type_from_entry(entry)], which is called only when no
    media type is given. *)
Definition register_lazy_user_data_lookup
    (media_type_from_entry : result string)
    (data_type : string) (media_type : option string)
    (r : LazyEntry.lazy_entry) : result LazyEntry.lazy_entry :=
  let? media_type :=
    match media_type with
    | Some s => if not_given media_type then media_type_from_entry else Ok s
    | None => media_type_from_entry
    end in
  let? field_name := get_user_data_field_name data_type media_type in
  Ok (LazyEntry.register_lazy_func
        (TraktUserDataLookup_call
           (user_data_lookup field_name data_type media_type))
        [field_name] r).

(** [PluginTraktLookup.__register_lazy_user_ratings_lookup(self, entry)];
    [is_show] is the truth value of [self.__entry_is_show(entry)]. *)
Definition register_lazy_user_ratings_lookup
    (media_type_from_entry : result string) (is_show : bool)
    (r : LazyEntry.lazy_entry) : result LazyEntry.lazy_entry :=
  let data_type := "ratings" in
  if is_show then
    let? r := register_lazy_user_data_lookup media_type_from_entry
                data_type (Some "show") r in
    let? r := register_lazy_user_data_lookup media_type_from_entry
                data_type (Some "season") r in
    register_lazy_user_data_lookup media_type_from_entry
      data_type (Some "episode") r
  else
    register_lazy_user_data_lookup media_type_from_entry
      data_type (Some "movie") r.

End Registration.

(** The data types and the media types of the plugin. *)
Definition data_types : list string := ["collected"; "watched"; "ratings"].
Definition media_types : list string := ["show"; "season"; "episode"; "movie"].

End TraktUserData.

(* ===================================================================== *)
(** * deluge2.py: the options of a torrent in [on_task_output] *)
(* ===================================================================== *)

Module DelugeOutput.

(** [d.get(k, default)] *)
Definition get_default (d : gmap string value) (k : string) (default : value)
    : value :=
  match d !! k with Some v => v | None => default end.

(** [v is None] *)
Definition is_None (v : value) : bool :=
  match v with VNone => true | _ => false end.

(** [self.options], set by [OutputDeluge.__init__]: the option of the
    plugin and the option of deluge it stands for. *)
Definition options : list (string * string) :=
  [ ("maxupspeed", "max_upload_speed");
    ("maxdownspeed", "max_download_speed");
    ("maxconnections", "max_connections");
    ("maxupslots", "max_upload_slots");
    ("automanaged", "auto_managed");
    ("ratio", "stop_ratio");
    ("removeatratio", "remove_at_ratio");
    ("addpaused", "add_paused");
    ("compact", "compact_allocation") ].

(** The body of [for fopt, dopt in self.options.items()]. *)
Definition add_option (e : entry) (config : gmap string value)
    (add_opts : gmap string value) (opt : string * string)
    : gmap string value :=
  let '(fopt, dopt) := opt in
  let v := get_default e fopt (get_or_None config fopt) in
  if negb (is_None v) then
    let add_opts := <[dopt := v]> add_opts in
    if String.eqb fopt "ratio" then <["stop_at_ratio" := VBool true]> add_opts
    else add_opts
  else add_opts.

(** The loop [for fopt, dopt in self.options.items(): ...] of
    [on_task_output], over any dict of options. *)
Definition add_options_of (opts : list (string * string)) (e : entry)
    (config : gmap string value) (add_opts : gmap string value)
    : gmap string value :=
  foldl (add_option e config) add_opts opts.

(** The loop of [on_task_output], over [self.options]. *)
Definition add_options : entry -> gmap string value -> gmap string value ->
                         gmap string value :=
  add_options_of options.

(** The dict [modify_opts] that [on_task_output] builds for an entry, before
    the label, the movedone path and the content file name are set. *)
Definition modify_opts (e : entry) (config : gmap string value)
    : gmap string value :=
  list_to_map
    [ ("queuetotop", get_default e "queuetotop" (get_or_None config "queuetotop"));
      ("main_file_only",
        get_default e "main_file_only"
          (get_default config "main_file_only" (VBool false)));
      ("main_file_ratio",
        get_default e "main_file_ratio" (get_or_None config "main_file_ratio"));
      ("hide_sparse_files",
        get_default e "hide_sparse_files"
          (get_default config "hide_sparse_files" (VBool true)));
      ("keep_subs",
        get_default e "keep_subs" (get_default config "keep_subs" (VBool true)));
      ("container_directory",
        get_default config "container_directory" (VStr "")) ].

(** The dict of a configuration that is a boolean or a dict, before the
    defaults are set. *)
Definition given (config : bool + gmap string value) : gmap string value :=
  match config with
  | inl b => {["enabled" := VBool b]}
  | inr c => c
  end.

(** ** [_set_torrent_options]: the files of a torrent *)

Section Files.

(** A file of [status['files']], a dict. *)
Variable file : Type.

(** [f == g] on two files; [f != g] is its negation. *)
Variable file_eq : file -> file -> bool.

(** [file['size'] > (status['total_size'] * opts.get('main_file_ratio'))] *)
Variable big : file -> bool.

(** [os.path.splitext(file['path'])[1] in sub_exts] *)
Variable is_sub : file -> bool.

(** The loop that looks for the main file: the first big file, or [None]. *)
Definition main_file (files : list file) : option file := List.find big files.

(** The loop that looks for the subtitle file, run if [keep_subs]. *)
Definition sub_file (keep_subs : bool) (files : list file) : option file :=
  if keep_subs then List.find is_sub files else None.

(** [f == sub_file], where [sub_file] is a file or [None]. *)
Definition is_sub_file (f : file) (sub_file : option file) : bool :=
  match sub_file with
  | Some s => file_eq f s
  | None => false
  end.

(** [[1 if f == main_file or (f == sub_file and keep_subs) else 0
      for f in status['files']]] *)
Definition file_priorities (files : list file) (main_file : file)
    (sub_file : option file) (keep_subs : bool) : list Z :=
  map (fun f =>
         if file_eq f main_file || (is_sub_file f sub_file && keep_subs)
         then 1 else 0)
      files.

(** [[f for f in status['files']
      if f != main_file and (f != sub_file or (not keep_subs))]] *)
Definition sparse_files (files : list file) (main_file : file)
    (sub_file : option file) (keep_subs : bool) : list file :=
  List.filter (fun f =>
                 negb (file_eq f main_file)
                 && (negb (is_sub_file f sub_file) || negb keep_subs))
              files.

End Files.

End DelugeOutput.

(* ===================================================================== *)
(** * deluge2.py: the start of a task and the input of [from_deluge3] *)
(* ===================================================================== *)

Module DelugeInput.

Import Deluge DelugeConfig.

(** What a handler of the plugins raises: the [DependencyError] of a
    missing [deluge_client], the [AttributeError] of a call of a method a
    value does not have, or another exception. *)
Inductive failure :=
| DependencyError
| AttributeError (message : string)
| Exception (e : exn).

Inductive outcome (A : Type) :=
| Done (a : A)
| Fails (f : failure).
Arguments Done {A} a.
Arguments Fails {A} f.

(** [config[k]] *)
Definition item (config : gmap string value) (k : string) : outcome value :=
  match config !! k with
  | Some v => Done v
  | None => Fails (Exception (Exn KeyError k))
  end.

(** The arguments [DelugeRPCClient] is created with. *)
Record rpc_client := DelugeRPCClient {
  rpc_host : value;
  rpc_port : value;
  rpc_username : value;
  rpc_password : value
}.

(** [DelugePlugin.on_task_start(self, task, config)]; [importable] tells
    whether [deluge_client] can be imported, and [prepare_config] is the
    method of the class of [self]. *)
Definition DelugePlugin_on_task_start {C : Type}
    (prepare_config : C -> gmap string value) (importable : bool) (config : C)
    : outcome rpc_client :=
  if negb importable then Fails DependencyError
  else
    let config := prepare_config config in
    match item config "host" with
    | Fails f => Fails f
    | Done host =>
        match item config "port" with
        | Fails f => Fails f
        | Done port =>
            match item config "username" with
            | Fails f => Fails f
            | Done username =>
                match item config "password" with
                | Fails f => Fails f
                | Done password =>
                    Done (DelugeRPCClient host port username password)
                end
            end
        end
    end.

(** [InputDeluge.on_task_start(self, task, config)]: the configuration is
    prepared, and prepared again by the method of the base class. *)
Definition InputDeluge_on_task_start (importable : bool) (config : input_config)
    : outcome rpc_client :=
  let config := InputDeluge_prepare_config config in
  DelugePlugin_on_task_start
    (fun c => options (InputDeluge_prepare_config (InputDict c)))
    importable config.

(** [on_task_start] of [OutputDeluge], which is the method of the base
    class. *)
Definition OutputDeluge_on_task_start (importable : bool)
    (config : bool + gmap string value) : outcome rpc_client :=
  DelugePlugin_on_task_start OutputDeluge_prepare_config importable config.

(** The dict of options that a configuration of [from_deluge3] gives. *)
Definition given_options (config : input_config) : gmap string value :=
  match config with
  | InputFlag _ => ∅
  | InputDict o => options o
  end.

(** ** [InputDeluge.on_task_input] *)

(** The calls of methods of the client. *)
Inductive event :=
| Connect
| Disconnect
| GetTorrentsStatus (filters : list (string * value)) (fields : list value).

(** The client: what [connect] raises or leaves in [connected], what
    [call('core.get_torrents_status', filters, fields)] answers, and what
    [disconnect] does. *)
Record client := Client {
  connects : result bool;
  torrents_status :
    list (string * value) -> list value ->
    result (list (string * list (string * value)));
  disconnects : result unit
}.

(** [DelugePlugin.connect(self)] *)
Definition connect (c : client) : result unit :=
  let? connected := connects c in
  if connected then Ok tt
  else Raise (Exn PluginError "Deluge failed to connect.").

(** [DelugePlugin.get_torrents_status(self, fields, filters=None)] *)
Definition get_torrents_status (c : client) (fields : list value)
    (filters : option (list (string * value)))
    : event * result (list (string * list (string * value))) :=
  let filters := match filters with None => [] | Some f => f end in
  (GetTorrentsStatus filters fields, torrents_status c filters fields).

(** [config.get('keys', [])]; by the schema of the plugin the value of
    ['keys'] is a list. *)
Definition keys_option (o : input_options) : list value :=
  match options o !! "keys" with
  | Some (VList l) => l
  | _ => []
  end.

(** [config.get('config_path', '')]; by the schema of the plugin the value
    of ['config_path'] is a string. *)
Definition config_path_option (o : input_options) : string :=
  match options o !! "config_path" with
  | Some (VStr s) => s
  | _ => ""
  end.

(** [list(self.settings_map.keys()) + config.get('keys', [])] *)
Definition fields_of (o : input_options) : list value :=
  map (fun kv => VStr (fst kv)) settings_items ++ keys_option o.

Section Input.

Variable isfile : string -> bool.
Variable expanduser : string -> string.

(** [InputDeluge.on_task_input(self, task, config)], with the calls made
    to the client and what is logged.  The handler is given the
    configuration of the task: a boolean has no method [get]. *)
Definition on_task_input (c : client) (config : input_config)
    : list event * list log_record * outcome (list entry) :=
  match connect c with
  | Raise e => ([Connect], [], Fails (Exception e))
  | Ok _ =>
      match config with
      | InputFlag _ =>
          ([Connect], [],
           Fails (AttributeError "'bool' object has no attribute 'get'"))
      | InputDict o =>
          let '(call, answer) := get_torrents_status c (fields_of o) None in
          match answer with
          | Raise e => ([Connect; call], [], Fails (Exception e))
          | Ok torrents =>
              match generate_entries isfile expanduser (config_path_option o)
                      torrents with
              | (logs, Raise e) => ([Connect; call], logs, Fails (Exception e))
              | (logs, Ok entries) =>
                  match disconnects c with
                  | Raise e =>
                      ([Connect; call; Disconnect], logs, Fails (Exception e))
                  | Ok _ => ([Connect; call; Disconnect], logs, Done entries)
                  end
              end
          end
      end
  end.

End Input.

(** The keys of a table. *)
Definition table_keys (items : list (string * flexget_key)) : list value :=
  map (fun kv => VStr (fst kv)) items.

End DelugeInput.

(* ===================================================================== *)
(** * simple_persistence.py: the upgrade of the table, and the instances *)
(* ===================================================================== *)

Module Upgrade.

Import Persistence.

(** A row of the table as [upgrade] selects it: the columns [id],
    [plugin], [key] and [value], the last one as it is stored (pickled). *)
Record raw_row := RawRow {
  row_id : Z;
  row_plugin : option string;
  row_key : option string;
  row_value : string
}.

(** The database the session works on: the rows of the table, the indexes
    created on it, and what was logged. *)
Record session := Session {
  rows : list raw_row;
  indexes : list (string * list string);
  records : list log_record
}.

(** ['Couldn\'t load %s:%s removing from db: %s' %
     (row['plugin'], row['key'], e)] *)
Definition couldnt_load (row : raw_row) (e : exn) : string :=
  "Couldn't load " +:+ key_text (row_plugin row) +:+ ":"
  +:+ key_text (row_key row) +:+ " removing from db: " +:+ exn_str e.

(** [session.execute(table.delete().where(table.c.id == id))] *)
Definition delete_where_id (id : Z) (table : list raw_row) : list raw_row :=
  filter (fun r => row_id r <> id) table.

Section Loads.

(** [pickle.loads]; a failure is the exception that [except Exception]
    catches. *)
Variable loads : string -> result value.

(** The loop over the rows selected, which are the rows of the table when
    the [select] is executed. *)
Fixpoint remove_unloadable (selected : list raw_row) (s : session) : session :=
  match selected with
  | [] => s
  | row :: rest =>
      match loads (row_value row) with
      | Ok _ => remove_unloadable rest s
      | Raise e =>
          remove_unloadable rest
            (Session (delete_where_id (row_id row) (rows s))
                     (indexes s)
                     (records s ++ [Log WARNING (couldnt_load row e)]))
      end
  end.

(** [create_index('simple_persistence', session, 'feed', 'plugin', 'key')] *)
Definition create_index (table : string) (columns : list string) (s : session)
    : session :=
  Session (rows s) (indexes s ++ [(table, columns)]) (records s).

(** [upgrade(ver, session)] *)
Definition upgrade (ver : option Z) (s : session) : Z * session :=
  let ver := match ver with None => 0 | Some v => v end in
  let '(ver, s) :=
    if Z.eqb ver 0 then (1, remove_unloadable (rows s) s) else (ver, s) in
  let '(ver, s) :=
    if Z.eqb ver 1 then
      let s := Session (rows s) (indexes s)
                 (records s
                  ++ [Log INFO "Creating index on simple_persistence table."]) in
      (2, create_index "simple_persistence" ["feed"; "plugin"; "key"] s)
    else (ver, s) in
  (ver, s).

(** The row can be loaded. *)
Definition loadable (r : raw_row) : Prop := is_Ok (loads (row_value r)) = true.

(** The ids of the rows that cannot be loaded. *)
Definition unloadable_ids (selected : list raw_row) : list Z :=
  map row_id (filter (fun r => ~ loadable r) selected).

(** The warning for a row, if it cannot be loaded. *)
Definition warning_of (row : raw_row) : list log_record :=
  match loads (row_value row) with
  | Ok _ => []
  | Raise e => [Log WARNING (couldnt_load row e)]
  end.

End Loads.

(** Two instances that name the same dict of the class store. *)
Definition same_store (self other : SimplePersistence) : Prop :=
  taskname self = taskname other /\ plugin_name self = plugin_name other.

(** A call that leaves the dict of the instance [other] as it is. *)
Definition leaves_alone {A} (other : SimplePersistence) (c : P A) : Prop :=
  forall st, peek other (snd (c st)) = peek other st.

End Upgrade.

(* ===================================================================== *)
(** * flexget/plugins/cli/irc.py *)
(* ===================================================================== *)

Module Irc.

(** What a call of the command line raises: the exceptions the actions
    have handlers for, with the arguments the handlers read, and any other
    exception. *)
Inductive error :=
| ValueError (args : list string)
| KeyError (key : option string)
| CLITableError (message : string)
| OtherError (e : exn).

Inductive outcome (A : Type) :=
| Returns (a : A)
| Raises (e : error).
Arguments Returns {A} a.
Arguments Raises {A} e.

(** What can be observed of a run: a line given to [console], and a call of
    a method of the irc manager with its arguments. *)
Inductive event :=
| Console (text : string)
| Call (method : string) (args : list value).

(** The status of a connection, as the manager gives it: the values of the
    keys ['thread'], ['channels'], ['connected_channels'] and ['server'],
    the last one a pair. *)
Record info := Info {
  thread : value;
  channels : list string;
  connected_channels : list string;
  server : value * value
}.

(** The manager of [flexget.plugins.daemon.irc], which is not among the
    sources: what each method returns or raises. *)
Record irc_manager := Manager {
  status_all : outcome (list (string * info));
  status : string -> outcome (list (string * info));
  restart_connections : outcome unit;
  restart_connection : string -> outcome unit;
  stop_connections : bool -> outcome unit;
  stop_connection : string -> outcome unit
}.

(** [options]: the connection, the action and the type of table. *)
Record options := Options {
  irc_connection : string;
  irc_action : option string;
  table_type : string
}.

Definition header : list value :=
  [ VStr "IRC Connection"; VStr "Thread"; VStr "Channels";
    VStr "Connected Channels"; VStr "Server" ].

Section Terminal.

(** [str(v)] *)
Variable str : value -> string.

(** [TerminalTable(table_type, table_data).output], of [flexget.terminal]. *)
Variable table_output : string -> list (list value) -> outcome string.

(** The row appended for a connection. *)
Definition row_of (name : string) (i : info) : list value :=
  [ VStr name; thread i; VStr (join ", " (channels i));
    VStr (join ", " (connected_channels i));
    VStr (str (fst (server i)) +:+ ":" +:+ str (snd (server i))) ].

(** The loop [for name, info in status.items()] of [action_status]; the
    table is built and printed in the body of the loop. *)
Fixpoint print_status (table_type : string) (table_data : list (list value))
    (items : list (string * info)) : list event * outcome unit :=
  match items with
  | [] => ([], Returns tt)
  | (name, i) :: rest =>
      let table_data := table_data ++ [row_of name i] in
      match table_output table_type table_data with
      | Returns text =>
          let '(events, r) := print_status table_type table_data rest in
          (Console text :: events, r)
      | Raises (CLITableError message) =>
          let '(events, r) := print_status table_type table_data rest in
          (Console ("ERROR: " +:+ message) :: events, r)
      | Raises e => ([], Raises e)
      end
  end.

(** [action_status(options, irc_manager)] *)
Definition action_status (o : options) (m : irc_manager)
    : list event * outcome unit :=
  let connection := irc_connection o in
  let '(call, status) :=
    if String.eqb connection "all" then (Call "status_all" [], status_all m)
    else (Call "status" [VStr connection], status m connection) in
  match status with
  | Raises (ValueError args) =>
      match args with
      | arg :: _ => ([call; Console ("ERROR: " +:+ arg)], Returns tt)
      | [] =>
          ([call], Raises (OtherError (Exn IndexError "tuple index out of range")))
      end
  | Raises e => ([call], Raises e)
  | Returns status =>
      let '(events, r) := print_status (table_type o) [header] status in
      (call :: events, r)
  end.

End Terminal.

(** The line that follows a successful action. *)
Definition successfully (done connection : string) : string :=
  "Successfully " +:+ done +:+ " " +:+ connection
  +:+ ". Use `flexget irc status " +:+ connection
  +:+ "` to check its status.".

Definition not_valid (connection : string) : string :=
  "ERROR: " +:+ connection +:+ " is not a valid irc connection".

(** [action_restart(options, irc_manager)] *)
Definition action_restart (o : options) (m : irc_manager)
    : list event * outcome unit :=
  let connection := irc_connection o in
  let announce :=
    Console ("Restarting irc connection " +:+ connection
             +:+ ". It may take a short while.") in
  let '(call, r) :=
    if String.eqb connection "all"
    then (Call "restart_connections" [], restart_connections m)
    else (Call "restart_connection" [VStr connection],
          restart_connection m connection) in
  match r with
  | Returns _ =>
      ([announce; call; Console (successfully "restarted" connection)],
       Returns tt)
  | Raises (KeyError _) =>
      ([announce; call; Console (not_valid connection)], Returns tt)
  | Raises e => ([announce; call], Raises e)
  end.

(** [action_stop(options, irc_manager)] *)
Definition action_stop (o : options) (m : irc_manager)
    : list event * outcome unit :=
  let connection := irc_connection o in
  let announce :=
    Console ("Stopping irc connection " +:+ connection
             +:+ ". It may take a short while.") in
  let '(call, r) :=
    if String.eqb connection "all"
    then (Call "stop_connections" [VBool false], stop_connections m false)
    else (Call "stop_connection" [VStr connection],
          stop_connection m connection) in
  match r with
  | Returns _ =>
      ([announce; call; Console (successfully "stopped" connection)],
       Returns tt)
  | Raises (KeyError _) =>
      ([announce; call; Console (not_valid connection)], Returns tt)
  | Raises e => ([announce; call], Raises e)
  end.

Section Dispatch.

Variable str : value -> string.
Variable table_output : string -> list (list value) -> outcome string.

(** [action_map] of [do_cli] *)
Definition action_map (action : option string)
    : option (options -> irc_manager -> list event * outcome unit) :=
  match action with
  | Some a =>
      if String.eqb a "status" then Some (action_status str table_output)
      else if String.eqb a "restart" then Some action_restart
      else if String.eqb a "stop" then Some action_stop
      else None
  | None => None
  end.

(** [do_cli(manager, options)]; [irc_manager] is the manager imported from
    the daemon plugin, [None] when the daemon does not run. *)
Definition do_cli (irc_manager : option irc_manager) (o : options)
    : list event * outcome unit :=
  match irc_manager with
  | None => ([Console "IRC daemon does not appear to be running."], Returns tt)
  | Some m =>
      match action_map (irc_action o) with
      | Some action => action o m
      | None => ([], Raises (KeyError (irc_action o)))
      end
  end.

(** The line printed for the table data. *)
Definition line_of (table_type : string) (table_data : list (list value))
    : string :=
  match table_output table_type table_data with
  | Returns text => text
  | Raises (CLITableError message) => "ERROR: " +:+ message
  | Raises _ => ""
  end.

(** The table can be shown, or the failure is a [CLITableError]. *)
Definition shown (table_type : string) (table_data : list (list value)) : Prop :=
  match table_output table_type table_data with
  | Returns _ | Raises (CLITableError _) => True
  | Raises _ => False
  end.

End Dispatch.

(** The calls of methods of the manager among the events. *)
Definition calls (events : list event) : list event :=
  List.filter (fun ev => match ev with Call _ _ => true | Console _ => false end)
              events.

Definition is_KeyError_outcome {A} (r : outcome A) : bool :=
  match r with Raises (KeyError _) => true | _ => false end.

Definition returned {A} (r : outcome A) : bool :=
  match r with Returns _ => true | Raises _ => false end.

End Irc.

(* ===================================================================== *)
(** * Properties of the deluge plugin *)
(* ===================================================================== *)

Module Deluge_properties.

Import Deluge.

#[local] Arguments set_field : simpl never.
#[local] Arguments lookup_flexget_key : simpl never.

(** ** Characters *)


(** A property that holds of the 128 ASCII code points holds of every
    ASCII code point. *)
Lemma ascii_cases (P : N -> bool) :
  forallb P (map N.of_nat (seq 0%nat 128%nat)) = true ->
  forall c, is_ascii c = true -> P c = true.
Proof.
  intros H c Hc. rewrite List.forallb_forall in H. apply H.
  apply in_map_iff. exists (N.to_nat c). split; [apply N2Nat.id |].
  apply in_seq. apply N.ltb_lt in Hc. lia.
Qed.

Lemma label_char_ascii c : label_char c = true -> is_ascii c = true.
Proof.
  unfold label_char, between, is_ascii, underscore, hyphen. intros H.
  apply N.ltb_lt.
  repeat (apply orb_prop in H as [H|H]);
    try (apply andb_prop in H as [_ H]; apply N.leb_le in H; lia);
    apply N.eqb_eq in H; lia.
Qed.

Lemma ascii_lower_ascii c : is_ascii c = true -> is_ascii (ascii_lower c) = true.
Proof. apply (ascii_cases (fun c => is_ascii (ascii_lower c))). reflexivity. Qed.

Lemma ascii_lower_idempotent c :
  is_ascii c = true -> ascii_lower (ascii_lower c) = ascii_lower c.
Proof.
  intros H. apply N.eqb_eq. revert c H.
  apply (ascii_cases (fun c => (ascii_lower (ascii_lower c) =? ascii_lower c)%N)).
  reflexivity.
Qed.

Lemma label_char_lower c : label_char c = true -> ascii_lower c = c.
Proof.
  intros H. pose proof (label_char_ascii c H) as Ha.
  pose proof (ascii_cases
                (fun c => implb (label_char c) (ascii_lower c =? c)%N)
                eq_refl c Ha) as E.
  cbv beta in E. rewrite H in E. now apply N.eqb_eq.
Qed.

Lemma forallb_ext (p q : N -> bool) (s : text) :
  (forall c, p c = q c) -> forallb p s = forallb q s.
Proof.
  intros H. induction s as [|c s IH]; cbn [forallb]; [reflexivity |].
  now rewrite H, IH.
Qed.

Lemma forallb_impl (p q : N -> bool) (s : text) :
  (forall c, p c = true -> q c = true) ->
  forallb p s = true -> forallb q s = true.
Proof.
  intros H. rewrite !List.forallb_forall. auto.
Qed.

(** ** [re.sub] on a character class *)

Section Sub.

Variable cls : N -> bool.
Variable repl : text.

(** After a prefix that does not end inside a run, the scan starts
    afresh. *)
Lemma sub_app_kept a rest b :
  a <> [] -> ends_in cls a = false ->
  sub_class_plus cls repl b (a ++ rest)
  = sub_class_plus cls repl b a ++ sub_class_plus cls repl false rest.
Proof.
  revert b. induction a as [|c a IH]; intros b Hne Hend; [congruence |].
  destruct a as [|c' a].
  - simpl in *. now rewrite Hend.
  - assert (Hne' : c' :: a <> []) by discriminate.
    change (ends_in cls (c :: c' :: a)) with (ends_in cls (c' :: a)) in Hend.
    change ((c :: c' :: a) ++ rest) with (c :: ((c' :: a) ++ rest)).
    cbn [sub_class_plus].
    destruct (cls c), b; rewrite IH by assumption;
      try reflexivity; now rewrite app_assoc.
Qed.

(** Inside a run, the rest of the run leaves no trace. *)
Lemma sub_in_run run rest :
  forallb cls run = true ->
  sub_class_plus cls repl true (run ++ rest)
  = sub_class_plus cls repl true rest.
Proof.
  induction run as [|c run IH]; simpl; [reflexivity |].
  intros [Hc Hrun]%andb_prop. rewrite Hc. auto.
Qed.

(** A run met outside a run is replaced by [repl], once. *)
Lemma sub_run run rest :
  run <> [] -> forallb cls run = true ->
  sub_class_plus cls repl false (run ++ rest)
  = repl ++ sub_class_plus cls repl true rest.
Proof.
  destruct run as [|c run]; [congruence |]. simpl.
  intros _ [Hc Hrun]%andb_prop. rewrite Hc. now rewrite sub_in_run.
Qed.

Lemma sub_after_run rest :
  starts_in cls rest = false ->
  sub_class_plus cls repl true rest = sub_class_plus cls repl false rest.
Proof. destruct rest as [|c rest]; simpl; [reflexivity |]. now intros ->. Qed.

(** A maximal run between [pre] and [post] becomes one [repl]. *)
Lemma sub_maximal_run pre run post :
  run <> [] -> forallb cls run = true ->
  ends_in cls pre = false -> starts_in cls post = false ->
  re_sub_class_plus cls repl (pre ++ run ++ post)
  = re_sub_class_plus cls repl pre ++ repl ++ re_sub_class_plus cls repl post.
Proof.
  intros Hne Hrun Hpre Hpost. unfold re_sub_class_plus.
  destruct pre as [|c pre].
  - simpl. now rewrite sub_run, sub_after_run.
  - rewrite sub_app_kept by (assumption || discriminate).
    now rewrite sub_run, sub_after_run.
Qed.

(** What the result holds comes from the replacement or from the text. *)
Lemma sub_in d s : forall b,
  In d (sub_class_plus cls repl b s) -> In d repl \/ In d s.
Proof.
  induction s as [|c s IH]; intros b; cbn [sub_class_plus]; [now right |].
  destruct (cls c) eqn:Hc.
  - destruct b.
    + intros H. destruct (IH _ H); [now left | right; now right].
    + intros [H|H]%in_app_or; [now left |].
      destruct (IH _ H); [now left | right; now right].
  - intros [->|H]; [right; now left |].
    destruct (IH _ H); [now left | right; now right].
Qed.

(** No character of the class is left, when the replacement has none. *)
Lemma sub_kept s : forall b,
  forallb (fun c => negb (cls c)) repl = true ->
  forallb (fun c => negb (cls c)) (sub_class_plus cls repl b s) = true.
Proof.
  induction s as [|c s IH]; intros b Hrepl; cbn [sub_class_plus];
    [reflexivity |].
  destruct (cls c) eqn:Hc.
  - destruct b; [now apply IH |].
    rewrite forallb_app, Hrepl. now apply IH.
  - cbn [forallb]. rewrite Hc. now apply IH.
Qed.

(** A text without a character of the class is left as it is. *)
Lemma sub_fixed s : forall b,
  forallb (fun c => negb (cls c)) s = true -> sub_class_plus cls repl b s = s.
Proof.
  induction s as [|c s IH]; intros b; cbn [sub_class_plus forallb];
    [reflexivity |].
  intros [Hc Hs]%andb_prop. apply negb_true_iff in Hc. rewrite Hc.
  now rewrite IH.
Qed.

Lemma sub_length s : forall b,
  (length repl <= 1)%nat ->
  (length (sub_class_plus cls repl b s) <= length s)%nat.
Proof.
  induction s as [|c s IH]; intros b Hrepl; cbn [sub_class_plus];
    [cbn; lia |].
  destruct (cls c).
  - destruct b.
    + specialize (IH true Hrepl). cbn [length]. lia.
    + specialize (IH true Hrepl). rewrite length_app. cbn [length]. lia.
  - specialize (IH false Hrepl). cbn [length]. lia.
Qed.

Lemma sub_nil s :
  repl <> [] -> re_sub_class_plus cls repl s = [] <-> s = [].
Proof.
  intros Hrepl. split; [| now intros ->].
  destruct s as [|c s]; [reflexivity |].
  unfold re_sub_class_plus. cbn [sub_class_plus].
  destruct (cls c); [| discriminate].
  intros [H _]%app_eq_nil. contradiction.
Qed.

End Sub.

(** ** [_format_label] *)

Section Label.

Variable unicode_lower : text -> N -> text -> text.
Variable unicode_word : N -> bool.

Local Abbreviation lower_code_point := (lower_code_point unicode_lower).
Local Abbreviation lower_from := (lower_from unicode_lower).
Local Abbreviation str_lower := (str_lower unicode_lower).
Local Abbreviation is_word := (is_word unicode_word).
Local Abbreviation not_word_or_hyphen := (not_word_or_hyphen unicode_word).
Local Abbreviation _format_label := (_format_label unicode_lower unicode_word).

Lemma lower_char_class c :
  is_ascii c = true ->
  not_word_or_hyphen (ascii_lower c) = not_word_or_hyphen c.
Proof.
  intros H. apply eqb_prop. revert c H.
  apply (ascii_cases
           (fun c => Bool.eqb (not_word_or_hyphen (ascii_lower c))
                              (not_word_or_hyphen c))).
  reflexivity.
Qed.

Lemma lower_char_kept c :
  is_ascii c = true ->
  not_word_or_hyphen c = false -> label_char (ascii_lower c) = true.
Proof.
  intros H Hc. revert c H Hc.
  enough (forall c, is_ascii c = true ->
            implb (negb (not_word_or_hyphen c)) (label_char (ascii_lower c))
            = true) as E.
  { intros c H Hc. specialize (E c H). now rewrite Hc in E. }
  apply ascii_cases. reflexivity.
Qed.

Lemma label_char_not_in_class c :
  label_char c = true -> not_word_or_hyphen c = false.
Proof.
  intros H. pose proof (label_char_ascii c H) as Ha. revert c Ha H.
  enough (forall c, is_ascii c = true ->
            implb (label_char c) (negb (not_word_or_hyphen c)) = true) as E.
  { intros c Ha H. specialize (E c Ha). rewrite H in E.
    now apply negb_true_iff in E. }
  apply ascii_cases. reflexivity.
Qed.

Lemma underscore_kept : not_word_or_hyphen underscore = false.
Proof. reflexivity. Qed.

Lemma kept_is_word c :
  negb (not_word_or_hyphen c) = (is_word c || (c =? hyphen)%N).
Proof. unfold Deluge.not_word_or_hyphen. apply negb_involutive. Qed.

(** *** [lower] *)

Lemma lower_from_ascii s : forall before,
  forallb is_ascii s = true -> lower_from before s = map ascii_lower s.
Proof.
  induction s as [|c s IH]; intros before; cbn [Deluge.lower_from forallb map];
    [reflexivity |].
  intros [Hc Hs]%andb_prop. unfold Deluge.lower_code_point. rewrite Hc.
  cbn [app]. now rewrite IH.
Qed.

Lemma str_lower_ascii s :
  forallb is_ascii s = true -> str_lower s = map ascii_lower s.
Proof. apply lower_from_ascii. Qed.

(** A text whose code points lower-casing leaves alone is left alone. *)
Lemma lower_from_fixed s : forall before,
  (forall d, In d s ->
     forall before' after', lower_code_point before' d after' = [d]) ->
  lower_from before s = s.
Proof.
  induction s as [|c s IH]; intros before H; cbn [Deluge.lower_from];
    [reflexivity |].
  rewrite (H c (or_introl eq_refl)). cbn [app]. f_equal.
  apply IH. intros d Hd. apply H. now right.
Qed.

Lemma lower_code_point_ascii_stable c before after :
  is_ascii c = true -> lower_code_point before (ascii_lower c) after = [ascii_lower c].
Proof.
  intros H. unfold Deluge.lower_code_point.
  now rewrite ascii_lower_ascii, ascii_lower_idempotent.
Qed.

Lemma lower_from_stable s : forall before d,
  lower_is_stable unicode_lower -> In d (lower_from before s) ->
  forall before' after', lower_code_point before' d after' = [d].
Proof.
  induction s as [|c s IH]; intros before d Hst; cbn [Deluge.lower_from];
    [contradiction |].
  intros [H|H]%in_app_or; [| now apply (IH _ _ Hst H)].
  unfold Deluge.lower_code_point in H. destruct (is_ascii c) eqn:Hc.
  - destruct H as [<-|[]]. intros. now apply lower_code_point_ascii_stable.
  - now apply (Hst _ _ _ _ Hc H).
Qed.

Lemma lower_label s : forall before,
  forallb label_char s = true -> lower_from before s = s.
Proof.
  intros before H. apply lower_from_fixed. intros d Hd before' after'.
  rewrite List.forallb_forall in H. specialize (H d Hd).
  rewrite <- (label_char_lower d H) at 1.
  rewrite lower_code_point_ascii_stable by now apply label_char_ascii.
  now rewrite label_char_lower.
Qed.

(** *** The result *)

Lemma format_label_words s :
  forallb (fun c => is_word c || (c =? hyphen)%N) (_format_label s) = true.
Proof.
  unfold Deluge._format_label, re_sub_class_plus.
  rewrite <- (sub_kept not_word_or_hyphen [underscore] (str_lower s) false eq_refl).
  apply forallb_ext. intros c. symmetry. apply kept_is_word.
Qed.

Lemma sub_fixed_words s b :
  forallb (fun c => is_word c || (c =? hyphen)%N) s = true ->
  sub_class_plus not_word_or_hyphen [underscore] b s = s.
Proof.
  intros H. apply sub_fixed. rewrite <- H.
  apply forallb_ext. intros c. apply kept_is_word.
Qed.

Lemma format_label_idempotent s :
  str_lower (_format_label s) = _format_label s ->
  _format_label (_format_label s) = _format_label s.
Proof.
  intros H. unfold Deluge._format_label at 1. rewrite H.
  apply sub_fixed_words, format_label_words.
Qed.

Lemma format_label_lowered s :
  lower_is_stable unicode_lower ->
  str_lower (_format_label s) = _format_label s.
Proof.
  intros Hst. apply lower_from_fixed. intros d Hd.
  apply sub_in in Hd as [[<-|[]]|Hd]; [reflexivity |].
  now apply (lower_from_stable s [] d Hst).
Qed.

Lemma sub_label s : forall b,
  forallb is_ascii s = true ->
  forallb label_char
    (sub_class_plus not_word_or_hyphen [underscore] b (map ascii_lower s))
  = true.
Proof.
  induction s as [|c s IH]; intros b; cbn [map forallb sub_class_plus];
    [reflexivity |].
  intros [Hc Hs]%andb_prop. rewrite (lower_char_class c Hc).
  destruct (not_word_or_hyphen c) eqn:Hcls.
  - destruct b; cbn [app forallb]; now rewrite ?IH.
  - cbn [forallb]. now rewrite (lower_char_kept c Hc Hcls), IH.
Qed.

Lemma format_label_ascii s :
  forallb is_ascii s = true -> forallb label_char (_format_label s) = true.
Proof.
  intros H. unfold Deluge._format_label, re_sub_class_plus.
  rewrite (str_lower_ascii s H). now apply sub_label.
Qed.

Lemma format_label_fixed s :
  forallb label_char s = true -> _format_label s = s.
Proof.
  intros H. unfold Deluge._format_label, re_sub_class_plus, Deluge.str_lower.
  rewrite (lower_label s [] H). apply sub_fixed.
  apply (forallb_impl label_char); [| exact H].
  intros c Hc. now rewrite (label_char_not_in_class c Hc).
Qed.

Lemma forallb_map_lower cls' s :
  (forall c, is_ascii c = true -> cls' (ascii_lower c) = cls' c) ->
  forallb is_ascii s = true ->
  forallb cls' (map ascii_lower s) = forallb cls' s.
Proof.
  intros Hcls. induction s as [|c s IH]; cbn [map forallb]; [reflexivity |].
  intros [Hc Hs]%andb_prop. now rewrite (Hcls c Hc), IH.
Qed.

Lemma ends_in_lower s :
  forallb is_ascii s = true ->
  ends_in not_word_or_hyphen (map ascii_lower s)
  = ends_in not_word_or_hyphen s.
Proof.
  induction s as [|c s IH]; cbn [map forallb]; [reflexivity |].
  intros [Hc Hs]%andb_prop.
  destruct s as [|c' s]; [apply (lower_char_class c Hc) | exact (IH Hs)].
Qed.

Lemma starts_in_lower s :
  forallb is_ascii s = true ->
  starts_in not_word_or_hyphen (map ascii_lower s)
  = starts_in not_word_or_hyphen s.
Proof.
  destruct s as [|c s]; cbn [map forallb starts_in]; [reflexivity |].
  intros [Hc _]%andb_prop. apply (lower_char_class c Hc).
Qed.

(** C10. The label formatter normalizes: for every label [s] and every
    character database, [_format_label s] holds only word characters and
    hyphens; every maximal run of other characters of [s.lower()] has
    become a single underscore; [_format_label (_format_label s)] is
    [_format_label s] when lower-casing is stable; and when [s] is ASCII,
    [_format_label s] holds only the lowercase letters a-z, digits,
    underscores and hyphens, a second application changes nothing, and
    every maximal run of other characters of [s] itself has become a
    single underscore. *)
Theorem format_label_normal_idempotent (s : text) :
  forallb (fun c => is_word c || (c =? hyphen)%N) (_format_label s) = true
  /\ (forall pre run post : text,
        str_lower s = pre ++ run ++ post ->
        run <> [] ->
        forallb not_word_or_hyphen run = true ->
        ends_in not_word_or_hyphen pre = false ->
        starts_in not_word_or_hyphen post = false ->
        _format_label s
        = re_sub_class_plus not_word_or_hyphen [underscore] pre
          ++ [underscore]
          ++ re_sub_class_plus not_word_or_hyphen [underscore] post)
  /\ (lower_is_stable unicode_lower ->
      _format_label (_format_label s) = _format_label s)
  /\ (forallb is_ascii s = true ->
      forallb label_char (_format_label s) = true
      /\ _format_label (_format_label s) = _format_label s
      /\ (forall pre run post : text,
            s = pre ++ run ++ post ->
            run <> [] ->
            forallb not_word_or_hyphen run = true ->
            ends_in not_word_or_hyphen pre = false ->
            starts_in not_word_or_hyphen post = false ->
            _format_label s
            = _format_label pre ++ [underscore] ++ _format_label post)).
Proof.
  split; [apply format_label_words |]. split; [| split].
  - intros pre run post Hs Hne Hrun Hpre Hpost.
    unfold Deluge._format_label. rewrite Hs. now apply sub_maximal_run.
  - intros Hst. now apply format_label_idempotent, format_label_lowered.
  - intros Ha. pose proof (format_label_ascii s Ha) as Hl.
    split; [exact Hl |]. split; [now apply format_label_fixed |].
    intros pre run post -> Hne Hrun Hpre Hpost.
    rewrite !forallb_app in Ha.
    apply andb_prop in Ha as [Ha1 [Ha2 Ha3]%andb_prop].
    unfold Deluge._format_label.
    rewrite (str_lower_ascii pre Ha1), (str_lower_ascii post Ha3).
    rewrite str_lower_ascii by now rewrite !forallb_app, Ha1, Ha2, Ha3.
    rewrite !map_app. apply sub_maximal_run.
    + destruct run; [congruence | discriminate].
    + now rewrite (forallb_map_lower _ run lower_char_class Ha2).
    + now rewrite ends_in_lower.
    + now rewrite starts_in_lower.
Qed.

End Label.

Lemma ucd_lower_is_stable : lower_is_stable ucd_lower.
Proof.
  intros before c after d Hc Hin before' after'.
  unfold ucd_lower in Hin.
  destruct (N.eqb_spec c 0xC9) as [->|H1];
    [destruct Hin as [<-|[]]; reflexivity |].
  destruct (N.eqb_spec c 0x130) as [->|H2];
    [destruct Hin as [<-|[<-|[]]]; reflexivity |].
  destruct Hin as [<-|[]].
  unfold lower_code_point, ucd_lower. rewrite Hc.
  destruct (N.eqb_spec c 0xC9); [contradiction |].
  now destruct (N.eqb_spec c 0x130).
Qed.

Lemma format_label_normal_idempotent_witness :
  _format_label ucd_lower ucd_word (code_points "My Label!! (2019)")
  = code_points "my_label_2019_"
  /\ _format_label ucd_lower ucd_word (code_points "my_label_2019_")
     = code_points "my_label_2019_"
  /\ _format_label ucd_lower ucd_word (code_points "My Label!! (2019)")
     = _format_label ucd_lower ucd_word (code_points "My Label")
       ++ [underscore]
       ++ _format_label ucd_lower ucd_word (code_points "2019)")
  /\ _format_label ucd_lower ucd_word
       (_format_label ucd_lower ucd_word [0xC9; 0x20; 0x130]%N)
     = _format_label ucd_lower ucd_word [0xC9; 0x20; 0x130]%N.
Proof.
  destruct (format_label_normal_idempotent ucd_lower ucd_word
              (code_points "My Label!! (2019)"))
    as (_ & _ & _ & Hascii).
  destruct (Hascii eq_refl) as (_ & Hidem & Hrun).
  split; [reflexivity |]. split; [exact Hidem |]. split.
  - apply (Hrun (code_points "My Label") (code_points "!! (")
             (code_points "2019)"));
      [reflexivity | discriminate | reflexivity | reflexivity | reflexivity].
  - destruct (format_label_normal_idempotent ucd_lower ucd_word
                [0xC9; 0x20; 0x130]%N) as (_ & _ & Hst & _).
    exact (Hst ucd_lower_is_stable).
Defined.

(** A word character that [str.lower()] leaves upper-case is kept: the
    label that is the one code point U+1D400 is returned as it is, and so
    is a CJK ideograph. *)
Lemma format_label_keeps_an_uppercase_letter :
  _format_label ucd_lower ucd_word [0x1D400%N] = [0x1D400%N]
  /\ ucd_uppercase 0x1D400 = true
  /\ forallb label_char (_format_label ucd_lower ucd_word [0x1D400%N]) = false
  /\ _format_label ucd_lower ucd_word [0x4E2D%N] = [0x4E2D%N].
Proof. repeat split. Qed.

(** ** The mapping tables *)

Lemma lookup_in_items key k :
  lookup_flexget_key key = Ok k ->
  (key, k) ∈ settings_items ++ extra_settings_items.
Proof.
  unfold lookup_flexget_key, settings_map, extra_settings_map.
  destruct (list_to_map settings_items !! key) as [k1|] eqn:H1.
  - intros [= <-]. apply elem_of_app. left.
    now apply (elem_of_list_to_map_2 (M := gmap string)).
  - destruct (list_to_map extra_settings_items !! key) as [k2|] eqn:H2;
      [| discriminate].
    intros [= <-]. apply elem_of_app. right.
    now apply (elem_of_list_to_map_2 (M := gmap string)).
Qed.

(** No two keys of the two tables are mapped to the same field. *)
Lemma field_names_NoDup :
  NoDup (map (fun kv => field_name (snd kv))
             (settings_items ++ extra_settings_items)).
Proof. apply (bool_decide_unpack _). vm_compute. exact I. Qed.

Lemma NoDup_map_elem_inj {A B} (f : A -> B) (l : list A) x y :
  NoDup (map f l) -> x ∈ l -> y ∈ l -> f x = f y -> x = y.
Proof.
  induction l as [|a l IH]; simpl; intros Hnd Hx Hy Hf.
  - now apply elem_of_nil in Hx.
  - apply NoDup_cons in Hnd as [Ha Hnd].
    apply elem_of_cons in Hx as [-> | Hx]; apply elem_of_cons in Hy as [-> | Hy].
    + reflexivity.
    + exfalso. apply Ha. rewrite Hf. now apply (list_elem_of_fmap_2 f).
    + exfalso. apply Ha. rewrite <- Hf. now apply (list_elem_of_fmap_2 f).
    + now apply IH.
Qed.

Lemma field_name_inj key1 key2 k1 k2 :
  lookup_flexget_key key1 = Ok k1 -> lookup_flexget_key key2 = Ok k2 ->
  field_name k1 = field_name k2 -> key1 = key2.
Proof.
  intros H1%lookup_in_items H2%lookup_in_items Hf.
  assert (E : (key1, k1) = (key2, k2)); [| congruence].
  now apply (NoDup_map_elem_inj (fun kv => field_name (snd kv))
               (settings_items ++ extra_settings_items) _ _ field_names_NoDup).
Qed.

(** ** The loop of [generate_entries] *)

(** One step of the loop, for a key of the tables. *)
Lemma set_field_mapped e key value k :
  lookup_flexget_key key = Ok k ->
  set_field e key value
  = (let? v := formatted k value in Ok (<[field_name k := v]> e)).
Proof. unfold set_field. intros ->. now destruct k. Qed.

(** One step of the loop, for a key of neither table. *)
Lemma set_field_unmapped e key value :
  settings_map !! key = None -> extra_settings_map !! key = None ->
  set_field e key value = Raise (Exn KeyError key).
Proof. unfold set_field, lookup_flexget_key. now intros -> ->. Qed.

Lemma set_fields_succeeds d : forall e,
  all_mapped d -> exists e', set_fields e d = Ok e'.
Proof.
  induction d as [|[key value] d IH]; intros e Hd; cbn [set_fields];
    [eauto |].
  apply Forall_cons in Hd as [(k & v & Hk & Hv) Hd]. simpl in Hk, Hv.
  rewrite (set_field_mapped _ _ _ _ Hk), Hv. cbn [result_bind].
  now apply IH.
Qed.

(** A field that no key of [d] is mapped to is left as it is. *)
Lemma set_fields_frame d : forall e e' y,
  set_fields e d = Ok e' ->
  (forall key value k,
      (key, value) ∈ d -> lookup_flexget_key key = Ok k -> field_name k <> y) ->
  e' !! y = e !! y.
Proof.
  induction d as [|[key value] d IH]; intros e e' y; cbn [set_fields].
  - now intros [= ->].
  - destruct (lookup_flexget_key key) as [k|ex] eqn:Hk.
    + rewrite (set_field_mapped _ _ _ _ Hk).
      destruct (formatted k value) as [v|ex]; cbn [result_bind];
      [| discriminate].
      intros Hrest Hy. rewrite (IH _ _ _ Hrest).
      * apply lookup_insert_ne. apply (Hy key value k); [left | assumption].
      * intros key' value' k' Hin. apply (Hy key' value'). now right.
    + unfold set_field. rewrite Hk. discriminate.
Qed.

(** The field a key of [d] is mapped to holds the key's value, formatted. *)
Lemma set_fields_sets d : forall e e' key value k v,
  NoDup (map fst d) ->
  set_fields e d = Ok e' ->
  (key, value) ∈ d ->
  lookup_flexget_key key = Ok k ->
  formatted k value = Ok v ->
  e' !! field_name k = Some v.
Proof.
  induction d as [|[key0 value0] d IH]; intros e e' key value k v Hnd;
    cbn [set_fields map fst].
  - intros _ Hin. now apply elem_of_nil in Hin.
  - apply NoDup_cons in Hnd as [Hfresh Hnd].
    intros Hrun Hin Hk Hv. apply elem_of_cons in Hin as [[= <- <-] | Hin].
    + rewrite (set_field_mapped _ _ _ _ Hk), Hv in Hrun.
    cbn [result_bind] in Hrun.
      rewrite (set_fields_frame _ _ _ _ Hrun); [apply lookup_insert_eq |].
      intros key' value' k' Hin' Hk' Heq. apply Hfresh.
      rewrite (field_name_inj _ _ _ _ Hk Hk' (eq_sym Heq)).
      now apply (list_elem_of_fmap_2 fst _ (key', value')).
    + destruct (set_field e key0 value0) as [e1|ex]; cbn [result_bind] in Hrun;
        [| discriminate].
      now apply (IH e1 e' key value k v).
Qed.

(** The loop stops on the first key of neither table. *)
Lemma set_fields_unmapped d1 : forall e key value d2,
  all_mapped d1 ->
  settings_map !! key = None -> extra_settings_map !! key = None ->
  set_fields e (d1 ++ (key, value) :: d2) = Raise (Exn KeyError key).
Proof.
  induction d1 as [|[key1 value1] d1 IH]; intros e key value d2 Hd H1 H2;
    cbn [set_fields app].
  - now rewrite set_field_unmapped.
  - apply Forall_cons in Hd as [(k & v & Hk & Hv) Hd]. simpl in Hk, Hv.
    rewrite (set_field_mapped _ _ _ _ Hk), Hv. cbn [result_bind].
  now apply IH.
Qed.

(** ** Examples *)

(** One torrent, its file found under the configuration directory. *)
Example generate_entries_one_torrent :
  generate_entries
    (fun path => String.eqb path "/home/u/.config/deluge/state/2f1d.torrent")
    (fun path => path) "/home/u/.config/deluge"
    [("2f1d", [("name", VStr "ubuntu.iso"); ("total_size", VInt 1048576)])]
  = ([],
     Ok [ <["content_size" := VFloat (S754_finite false 4503599627370496 (-52))]>
          (<["title" := VStr "ubuntu.iso"]>
          (<["url" := VStr "file:///home/u/.config/deluge/state/2f1d.torrent"]>
          (<["location" := VStr "/home/u/.config/deluge/state/2f1d.torrent"]>
          (<["url" := VStr ""]> {["deluge_id" := VStr "2f1d"]})))) ]).
Proof. reflexivity. Qed.

(** The torrent file is not there: a warning, and the entry keeps its empty
    url. *)
Example generate_entries_no_file :
  generate_entries (fun _ => false) (fun path => path) "cfg"
    [("2f1d", [("files", VList [VDict [("path", VStr "a/b.mkv")]])])]
  = ([Log WARNING "Did not find torrent file at cfg/state/2f1d.torrent"],
     Ok [ <["content_files" := VList [VStr "a/b.mkv"]]>
          (<["url" := VStr ""]> {["deluge_id" := VStr "2f1d"]}) ]).
Proof. reflexivity. Qed.

(** The constant [two] is the float of the integer 2. *)
Example two_is_float_of_2 : float_of_int 2 = Ok two.
Proof. reflexivity. Qed.

(** C4, as the claim states it, fails: a torrent dict with a key of neither
    table makes the loop, and [generate_entries] with it, raise [KeyError];
    and a value its format function rejects makes the loop raise, the keys
    after it being left unprocessed. *)
Lemma unmapped_key_raises :
  set_fields ∅ [("name", VStr "ubuntu.iso"); ("comment", VStr "")]
  = Raise (Exn KeyError "comment")
  /\ generate_entries (fun _ => false) (fun path => path) ""
       [("2f1d", [("name", VStr "ubuntu.iso"); ("comment", VStr "")])]
     = ([], Raise (Exn KeyError "comment"))
  /\ set_fields ∅ [("seeding_time", VNone); ("name", VStr "ubuntu.iso")]
     = Raise (Exn TypeError
                "unsupported operand type(s) for /: 'NoneType' and 'int'").
Proof. repeat split; reflexivity. Qed.

(** C4, amended. For every torrent dict whose keys all are in [settings_map]
    or [extra_settings_map] and whose values are accepted by the format
    functions, the loop does not raise; a field that no key of the dict is
    mapped to is left as it was (in particular, a field whose source key is
    missing from the dict is not set); the field of every key of the dict
    holds the key's value, formatted.  A key of neither table is not ignored:
    the loop raises [KeyError] on it. *)
Theorem mapped_keys_are_set (e : entry) (d : list (string * value)) :
  all_mapped d ->
  (exists e',
      set_fields e d = Ok e'
      /\ (forall y,
            (forall key value k,
                (key, value) ∈ d -> lookup_flexget_key key = Ok k ->
                field_name k <> y) ->
            e' !! y = e !! y)
      /\ (NoDup (map fst d) ->
          forall key value k v,
            (key, value) ∈ d -> lookup_flexget_key key = Ok k ->
            formatted k value = Ok v ->
            e' !! field_name k = Some v))
  /\ (forall key value d2,
        settings_map !! key = None -> extra_settings_map !! key = None ->
        set_fields e (d ++ (key, value) :: d2) = Raise (Exn KeyError key)).
Proof.
  intros Hd. split.
  - destruct (set_fields_succeeds d e Hd) as [e' He']. exists e'.
    split; [assumption |]. split.
    + intros y Hy. now apply (set_fields_frame d e e' y).
    + intros Hnd key value k v. now apply (set_fields_sets d e e').
  - intros key value d2. now apply set_fields_unmapped.
Qed.

Lemma mapped_keys_are_set_witness :
  all_mapped [("seeding_time", VInt 7200); ("name", VStr "ubuntu.iso")]
  /\ (exists e',
      set_fields ∅ [("seeding_time", VInt 7200); ("name", VStr "ubuntu.iso")]
      = Ok e'
      /\ e' !! "deluge_label" = None
      /\ e' !! "title" = Some (VStr "ubuntu.iso"))
  /\ set_fields ∅ ([("seeding_time", VInt 7200); ("name", VStr "ubuntu.iso")]
                    ++ [("comment", VStr "")])
     = Raise (Exn KeyError "comment").
Proof.
  assert (Hd : all_mapped
                 [("seeding_time", VInt 7200); ("name", VStr "ubuntu.iso")]).
  { apply List.Forall_cons; [| apply List.Forall_cons; [| apply List.Forall_nil]].
    - exists (Tuple "deluge_seed_time" hours), (VFloat two).
      split; reflexivity.
    - exists (Name "title"), (VStr "ubuntu.iso"). split; reflexivity. }
  destruct (mapped_keys_are_set ∅ _ Hd) as [(e' & He' & Hframe & Hset) Hraise].
  split; [exact Hd |]. split.
  - exists e'. split; [exact He' |]. split.
    + rewrite (Hframe "deluge_label"); [reflexivity |].
      intros key value k Hin Hk.
      apply elem_of_cons in Hin as [[= -> ->] | Hin].
      { change (lookup_flexget_key "seeding_time")
          with (Ok (Tuple "deluge_seed_time" hours)) in Hk.
        injection Hk as <-. discriminate. }
      apply elem_of_cons in Hin as [[= -> ->] | Hin].
      { change (lookup_flexget_key "name") with (Ok (Name "title")) in Hk.
        injection Hk as <-. discriminate. }
      now apply elem_of_nil in Hin.
    + assert (Hnd : NoDup (map fst [("seeding_time", VInt 7200);
                                     ("name", VStr "ubuntu.iso")])).
      { apply (bool_decide_unpack _). reflexivity. }
      apply (Hset Hnd "name" (VStr "ubuntu.iso") (Name "title")).
      * right; left.
      * reflexivity.
      * reflexivity.
  - apply Hraise; reflexivity.
Defined.

(** C5. A key of the tables whose entry is a tuple of a field name and a
    function stores, under that field name, the function applied to the
    value of the key (and raises what the function raises).  In particular,
    ['seeding_time'] is mapped to ['deluge_seed_time'] with
    [lambda time: time / 3600], and the value 7200 is stored as 2.0. *)
Theorem tuple_key_stores_formatted_value
    (e : entry) (key name : string) (format_func : value -> result value)
    (value : value) :
  lookup_flexget_key key = Ok (Tuple name format_func) ->
  set_field e key value
  = (let? v := format_func value in Ok (<[name := v]> e))
  /\ (forall v, format_func value = Ok v ->
        exists e', set_fields e [(key, value)] = Ok e' /\ e' !! name = Some v)
  /\ lookup_flexget_key "seeding_time" = Ok (Tuple "deluge_seed_time" hours)
  /\ hours (VInt 7200) = Ok (VFloat two)
  /\ set_fields e [("seeding_time", VInt 7200)]
     = Ok (<["deluge_seed_time" := VFloat two]> e).
Proof.
  intros Hk. split; [| split].
  - now rewrite (set_field_mapped _ _ _ _ Hk).
  - intros v Hv. exists (<[name := v]> e). cbn [set_fields].
    rewrite (set_field_mapped _ _ _ _ Hk). cbn [formatted]. rewrite Hv.
    split; [reflexivity | apply lookup_insert_eq].
  - repeat split; reflexivity.
Qed.

Lemma tuple_key_stores_formatted_value_witness :
  lookup_flexget_key "seeding_time" = Ok (Tuple "deluge_seed_time" hours)
  /\ set_field ∅ "seeding_time" (VInt 7200)
  = Ok (<["deluge_seed_time" := VFloat two]> ∅)
  /\ exists e',
       set_fields ∅ [("seeding_time", VInt 7200)] = Ok e'
       /\ e' !! "deluge_seed_time" = Some (VFloat two).
Proof.
  destruct (tuple_key_stores_formatted_value
              ∅ "seeding_time" "deluge_seed_time" hours (VInt 7200)
              eq_refl) as (Hstep & Hloop & _).
  split; [reflexivity |]. split; [exact Hstep |]. apply Hloop. reflexivity.
Defined.

End Deluge_properties.

(* ===================================================================== *)
(** * Properties of the trakt lookups *)
(* ===================================================================== *)

Module Trakt_properties.

Import Trakt TraktUserData.

Section Lookups.

Variable media : Type.
Variable update_using_map : field_map media -> media -> entry -> M entry.

(** What [TraktLookup.__call__] does when its lookup function raises. *)
Lemma TraktLookup_call_raise (self : TraktLookup media) (e : entry) logs ex :
  tl_lookup_function media self e = (logs, Raise ex) ->
  TraktLookup_call media update_using_map self e
  = if is_LookupError ex
    then (logs ++ [Log DEBUG (exn_str ex)], Ok e)
    else (logs, Raise ex).
Proof.
  intros H. unfold TraktLookup_call, try_except_else. rewrite H.
  now destruct (is_LookupError ex).
Qed.

(** What [TraktUserDataLookup.__call__] does when its lookup function
    raises. *)
Lemma TraktUserDataLookup_call_raise (self : TraktUserDataLookup) (e : entry)
    logs ex :
  ud_lookup_function self (ud_data_type self) (ud_media_type self) e
  = (logs, Raise ex) ->
  TraktUserDataLookup_call self e
  = if is_LookupError ex
    then (logs ++ [Log DEBUG (exn_str ex)], Ok e)
    else (logs, Raise ex).
Proof.
  intros H. unfold TraktUserDataLookup_call, try_except_else. rewrite H.
  now destruct (is_LookupError ex).
Qed.

(** ** [lazy_user_data_lookup] *)

Variable get_series get_season get_episode get_movie : entry -> M media.
Variable lookup_map : string -> string -> option (media -> value -> M value).

(** The getter of the media type raises. *)
Lemma lazy_user_data_lookup_getter_raise data_type media_type e getter udl
    logs ex :
  getter_map media get_series get_season get_episode get_movie media_type
  = Some getter ->
  lookup_map data_type media_type = Some udl ->
  getter e = (logs, Raise ex) ->
  lazy_user_data_lookup media get_series get_season get_episode get_movie
    lookup_map data_type media_type e
  = if is_LookupError ex
    then (logs ++ [Log DEBUG (exn_str ex)], Ok VNone)
    else (logs, Raise ex).
Proof.
  intros Hg Hu He. unfold lazy_user_data_lookup. rewrite Hg, Hu.
  cbn [subscript bind ret try_except_else app]. rewrite He.
  cbn [bind try_except_else]. destruct (is_LookupError ex);
    cbn [log_at bind ret app]; now rewrite ?app_nil_r.
Qed.

(** The user data lookup of the API client raises. *)
Lemma lazy_user_data_lookup_client_raise data_type media_type e getter udl
    m title logs1 logs2 ex :
  getter_map media get_series get_season get_episode get_movie media_type
  = Some getter ->
  lookup_map data_type media_type = Some udl ->
  getter e = (logs1, Ok m) ->
  e !! "title" = Some title ->
  udl m title = (logs2, Raise ex) ->
  lazy_user_data_lookup media get_series get_season get_episode get_movie
    lookup_map data_type media_type e
  = if is_LookupError ex
    then (logs1 ++ logs2 ++ [Log DEBUG (exn_str ex)], Ok VNone)
    else (logs1 ++ logs2, Raise ex).
Proof.
  intros Hg Hu He Ht Hc. unfold lazy_user_data_lookup. rewrite Hg, Hu.
  cbn [subscript bind ret try_except_else app]. rewrite He, Ht.
  cbn [subscript bind ret try_except_else app]. rewrite Hc.
  cbn [bind try_except_else]. destruct (is_LookupError ex);
    cbn [log_at bind ret app]; now rewrite ?app_nil_r, <- ?app_assoc.
Qed.

(** C2. When the lookup fails with a [LookupError] on a record, a
    [TraktLookup] logs the failure at debug level and returns the record as
    it was, so that its fields stay absent; a [TraktUserDataLookup] as the
    plugin registers it does not: its lookup function,
    [lazy_user_data_lookup], has caught the [LookupError], logged it at
    debug level and returned [None], and [__call__] stores that [None] in
    the field, whether it is the getter of the media or the user data
    lookup of the API client that failed. *)
Theorem lookup_error_stores_None_as_user_data
    (tl : TraktLookup media) (e : entry) (logs : list log_record) (ex : exn)
    (field_name data_type media_type : string)
    (getter : entry -> M media) (udl : media -> value -> M value) :
  is_LookupError ex = true ->
  getter_map media get_series get_season get_episode get_movie media_type
  = Some getter ->
  lookup_map data_type media_type = Some udl ->
  (tl_lookup_function media tl e = (logs, Raise ex) ->
   TraktLookup_call media update_using_map tl e
   = (logs ++ [Log DEBUG (exn_str ex)], Ok e))
  /\ (getter e = (logs, Raise ex) ->
      TraktUserDataLookup_call
        (user_data_lookup media get_series get_season get_episode get_movie
           lookup_map field_name data_type media_type) e
      = (logs ++ [Log DEBUG (exn_str ex)], Ok (<[field_name := VNone]> e)))
  /\ (forall m title logs2,
        getter e = (logs, Ok m) ->
        e !! "title" = Some title ->
        udl m title = (logs2, Raise ex) ->
        TraktUserDataLookup_call
          (user_data_lookup media get_series get_season get_episode get_movie
             lookup_map field_name data_type media_type) e
        = (logs ++ logs2 ++ [Log DEBUG (exn_str ex)],
           Ok (<[field_name := VNone]> e)))
  /\ (<[field_name := VNone]> e) !! field_name = Some VNone.
Proof.
  intros Hex Hg Hu. split; [| split; [| split]].
  - intros Htl. now rewrite (TraktLookup_call_raise tl e logs ex Htl), Hex.
  - intros He. unfold TraktUserDataLookup_call, try_except_else.
    cbn [ud_lookup_function ud_data_type ud_media_type ud_field_name
         user_data_lookup].
    rewrite (lazy_user_data_lookup_getter_raise _ _ _ _ _ _ _ Hg Hu He), Hex.
    cbn [ret]. now rewrite app_nil_r.
  - intros m title logs2 He Ht Hc.
    unfold TraktUserDataLookup_call, try_except_else.
    cbn [ud_lookup_function ud_data_type ud_media_type ud_field_name
         user_data_lookup].
    rewrite (lazy_user_data_lookup_client_raise _ _ _ _ _ _ _ _ _ _
               Hg Hu He Ht Hc), Hex.
    cbn [ret]. now rewrite app_nil_r.
  - apply lookup_insert_eq.
Qed.

End Lookups.

Lemma lookup_error_stores_None_as_user_data_witness :
  TraktLookup_call value (fun _ _ e => ret e)
    {| tl_field_map := [("trakt_series_name", Attr value "title")];
       tl_lookup_function :=
         fun _ => raise (Exn BaseLookupError "no results from trakt") |}
    {["title" := VStr "Show"]}
  = ([Log DEBUG "no results from trakt"], Ok {["title" := VStr "Show"]})
  /\ TraktUserDataLookup_call
       (user_data_lookup value
          (fun _ => raise (Exn BaseLookupError "no results from trakt"))
          (fun _ => ret VNone) (fun _ => ret VNone) (fun _ => ret VNone)
          (fun _ _ => Some (fun _ _ => ret (VBool true)))
          "trakt_watched" "watched" "show")
       {["title" := VStr "Show"]}
     = ([Log DEBUG "no results from trakt"],
        Ok (<["trakt_watched" := VNone]> {["title" := VStr "Show"]})).
Proof.
  destruct (lookup_error_stores_None_as_user_data value (fun _ _ e => ret e)
              (fun _ => raise (Exn BaseLookupError "no results from trakt"))
              (fun _ => ret VNone) (fun _ => ret VNone) (fun _ => ret VNone)
              (fun _ _ => Some (fun _ _ => ret (VBool true)))
              {| tl_field_map := [("trakt_series_name", Attr value "title")];
                 tl_lookup_function :=
                   fun _ => raise (Exn BaseLookupError "no results from trakt") |}
              {["title" := VStr "Show"]} []
              (Exn BaseLookupError "no results from trakt")
              "trakt_watched" "watched" "show"
              (fun _ => raise (Exn BaseLookupError "no results from trakt"))
              (fun _ _ => ret (VBool true))
              eq_refl eq_refl eq_refl)
    as (Htl & Hud & _).
  split; [exact (Htl eq_refl) | exact (Hud eq_refl)].
Defined.

(** A [ConnectionError] raised by the lookup is not caught by the handlers
    of the plugin: it leaves [TraktLookup.__call__],
    [lazy_user_data_lookup] and [TraktUserDataLookup.__call__]. *)
Example connection_error_propagates :
  TraktLookup_call value (fun _ _ e => ret e)
    {| tl_field_map := [("trakt_series_name", Attr value "title")];
       tl_lookup_function :=
         fun _ => raise (Exn ConnectionError "connection refused") |}
    {["title" := VStr "Show"]}
  = ([], Raise (Exn ConnectionError "connection refused"))
  /\ lazy_user_data_lookup value
       (fun _ => raise (Exn ConnectionError "connection refused"))
       (fun _ => ret VNone) (fun _ => ret VNone) (fun _ => ret VNone)
       (fun _ _ => Some (fun _ _ => ret (VBool true)))
       "watched" "show" {["title" := VStr "Show"]}
     = ([], Raise (Exn ConnectionError "connection refused"))
  /\ TraktUserDataLookup_call
       {| ud_field_name := "trakt_watched"; ud_data_type := "watched";
          ud_media_type := "show";
          ud_lookup_function :=
            lazy_user_data_lookup value
              (fun _ => raise (Exn ConnectionError "connection refused"))
              (fun _ => ret VNone) (fun _ => ret VNone) (fun _ => ret VNone)
              (fun _ _ => Some (fun _ _ => ret (VBool true))) |}
       {["title" := VStr "Show"]}
     = ([], Raise (Exn ConnectionError "connection refused")).
Proof. repeat split; reflexivity. Qed.

(** As the plugin registers it, the lookup function of a
    [TraktUserDataLookup] is [lazy_user_data_lookup], which does not raise a
    [LookupError] of the lookup: it returns [None], and the field holds
    [None]. *)
Example user_data_lookup_miss :
  TraktUserDataLookup_call
    {| ud_field_name := "trakt_watched"; ud_data_type := "watched";
       ud_media_type := "show";
       ud_lookup_function :=
         lazy_user_data_lookup value
           (fun _ => raise (Exn BaseLookupError "no results from trakt"))
           (fun _ => ret VNone) (fun _ => ret VNone) (fun _ => ret VNone)
           (fun _ _ => Some (fun _ _ => ret (VBool true))) |}
    {["title" := VStr "Show"]}
  = ([Log DEBUG "no results from trakt"],
     Ok (<["trakt_watched" := VNone]> {["title" := VStr "Show"]})).
Proof. reflexivity. Qed.

End Trakt_properties.

(* ===================================================================== *)
(** * Properties of the lazy fields *)
(* ===================================================================== *)

Module LazyEntry_properties.

Import LazyEntry.

(** ** Registration *)

Lemma register_covers func keys r f :
  f ∈ keys ->
  covering (register_lazy_func func keys r) !! f = Some (length (bindings r)).
Proof.
  unfold register_lazy_func. cbn [covering].
  induction keys as [|k keys IH]; intros Hf; [now apply elem_of_nil in Hf |].
  cbn [foldr]. destruct (decide (k = f)) as [-> | Hne].
  - apply lookup_insert_eq.
  - rewrite lookup_insert_ne by assumption. apply IH.
    apply elem_of_cons in Hf as [-> | Hf]; [congruence | assumption].
Qed.

Lemma register_pending func keys r :
  pending (length (bindings r)) (register_lazy_func func keys r).
Proof.
  exists (Binding keys func Pending). split; [| reflexivity].
  unfold register_lazy_func. cbn [bindings].
  rewrite lookup_app_r by reflexivity.
  now replace (length (bindings r) - length (bindings r))%nat with 0%nat by lia.
Qed.

(** ** Reading *)

Lemma evaluate_settled id r : settled id r -> evaluate id r = r.
Proof.
  intros (b & Hb & Hs). unfold evaluate. rewrite Hb.
  now destruct (b_state b).
Qed.

(** The evaluation of a pending binding invokes its callable, once, and
    settles the binding. *)
Lemma evaluate_pending id r :
  pending id r ->
  invoked (evaluate id r) = invoked r ++ [id]
  /\ settled id (evaluate id r)
  /\ covering (evaluate id r) = covering r
  /\ length (bindings (evaluate id r)) = length (bindings r)
  /\ (forall id', id' <> id ->
        bindings (evaluate id r) !! id' = bindings r !! id').
Proof.
  intros (b & Hb & Hs). unfold evaluate. rewrite Hb, Hs.
  assert (Hlt : (id < length (bindings r))%nat) by now apply lookup_lt_Some in Hb.
  destruct (b_func b (fields r)) as [logs [e'|ex]]; cbn [invoked covering bindings];
    (split; [reflexivity |]); (split; [| split; [reflexivity | split]]).
  - exists (set_state Evaluated b). split; [| discriminate].
    now apply list_lookup_insert_eq.
  - apply length_insert.
  - intros id' Hne. now apply list_lookup_insert_ne.
  - exists (set_state Failed b). split; [| discriminate].
    now apply list_lookup_insert_eq.
  - apply length_insert.
  - intros id' Hne. now apply list_lookup_insert_ne.
Qed.

(** A read of a field whose binding is settled changes nothing. *)
Lemma get_settled f default id r :
  covering r !! f = Some id -> settled id r -> snd (get f default r) = r.
Proof.
  intros Hc Hs. unfold get. destruct (fields r !! f); [reflexivity |].
  rewrite Hc. cbn [snd]. now apply evaluate_settled.
Qed.

(** A read of an absent field whose binding is pending evaluates it. *)
Lemma get_pending f default id r :
  covering r !! f = Some id -> pending id r -> fields r !! f = None ->
  snd (get f default r) = evaluate id r.
Proof. intros Hc Hp Hf. unfold get. now rewrite Hf, Hc. Qed.

Lemma read_all_settled id names : forall r,
  Forall (fun f => covering r !! f = Some id) names ->
  settled id r -> read_all names r = r.
Proof.
  unfold read_all. induction names as [|f names IH]; intros r Hall Hs;
    [reflexivity |].
  apply Forall_cons in Hall as [Hf Hall]. cbn [foldl].
  rewrite (get_settled f None id r Hf Hs). now apply IH.
Qed.




(** ** Examples *)

(** The name of the episode is read through the lookup; the overview, which
    the episode found does not have, stays absent: the default is returned,
    or [FieldNotFound] without a default, and the lookup is not made again. *)
Example read_name :
  fst (get "trakt_ep_name" None Trakt.pilot_entry) = Ok (VStr "Pilot").
Proof. reflexivity. Qed.

Example read_overview_default :
  fst (get "trakt_ep_overview" (Some VNone) Trakt.pilot_entry) = Ok VNone
  /\ fst (get "trakt_ep_overview" None Trakt.pilot_entry)
     = Raise (Exn KeyError "trakt_ep_overview")
  /\ invoked (read_all ["trakt_ep_overview"; "trakt_ep_overview"]
                Trakt.pilot_entry) = [0%nat].
Proof. repeat split; reflexivity. Qed.

(** A field that is already materialized is read without any lookup. *)
Example read_materialized :
  get "title" None Trakt.pilot_entry
  = (Ok (VStr "Show S01E01"), Trakt.pilot_entry).
Proof. reflexivity. Qed.

(** ** Every binding is evaluated at most once *)

Lemma settled_evaluate id id' r : settled id r -> settled id (evaluate id' r).
Proof.
  intros Hs. destruct (decide (id' = id)) as [-> | Hne].
  - now rewrite evaluate_settled.
  - unfold evaluate. destruct (bindings r !! id') as [b'|] eqn:Hb'; [| assumption].
    destruct (b_state b') eqn:Hs'; try assumption.
    destruct Hs as (b & Hb & Hst).
    destruct (b_func b' (fields r)) as [logs [e'|ex]];
      exists b; (split; [| assumption]); cbn [bindings];
      now rewrite list_lookup_insert_ne.
Qed.

Lemma consistent_evaluate id r : consistent r -> consistent (evaluate id r).
Proof.
  intros [Hnd Hall].
  destruct (bindings r !! id) as [b|] eqn:Hb;
    [| unfold evaluate; rewrite Hb; now split].
  destruct (b_state b) eqn:Hs.
  - assert (Hp : pending id r) by (exists b; now split).
    destruct (evaluate_pending id r Hp) as (Hinv & Hset & _).
    split.
    + rewrite Hinv. apply NoDup_app. split; [assumption |].
      split; [| apply NoDup_singleton].
      intros i Hi ->%list_elem_of_singleton.
      destruct (Hall _ Hi) as (b' & Hb' & Hs'). congruence.
    + intros i. rewrite Hinv. intros [Hi | ->%list_elem_of_singleton]%elem_of_app.
      * now apply settled_evaluate, Hall.
      * assumption.
  - rewrite evaluate_settled; [now split |]. exists b. split; congruence.
  - rewrite evaluate_settled; [now split |]. exists b. split; congruence.
Qed.

Lemma consistent_get f default r :
  consistent r -> consistent (snd (get f default r)).
Proof.
  intros H. unfold get. destruct (fields r !! f); [assumption |].
  destruct (covering r !! f); [| assumption]. now apply consistent_evaluate.
Qed.

Lemma consistent_register func keys r :
  consistent r -> consistent (register_lazy_func func keys r).
Proof.
  intros [Hnd Hall]. split; [assumption |].
  intros id Hid. destruct (Hall id Hid) as (b & Hb & Hs).
  exists b. split; [| assumption]. cbn [register_lazy_func bindings].
  now apply lookup_app_l_Some.
Qed.

Lemma consistent_of_fields e : consistent (of_fields e).
Proof.
  split; [apply NoDup_nil_2 |]. intros id Hid. now apply elem_of_nil in Hid.
Qed.

Lemma filter_absent (id : nat) (l : list nat) :
  id ∉ l -> filter (fun i => i = id) l = [].
Proof.
  induction l as [|i l IH]; intros Hid; [reflexivity |].
  apply not_elem_of_cons in Hid as [Hne Hid].
  rewrite filter_cons_False by congruence. now apply IH.
Qed.

Lemma filter_NoDup (id : nat) (l : list nat) :
  NoDup l -> (length (filter (fun i => i = id) l) <= 1)%nat.
Proof.
  induction 1 as [|i l Hi Hl IH]; [cbn; lia |].
  destruct (decide (i = id)) as [-> | Hne].
  - rewrite filter_cons_True by reflexivity.
    rewrite (filter_absent id l Hi). cbn. lia.
  - now rewrite filter_cons_False.
Qed.

Lemma consistent_read_all names : forall r,
  consistent r -> consistent (read_all names r).
Proof.
  unfold read_all. induction names as [|f names IH]; intros r Hr;
    [assumption |].
  cbn [foldl]. now apply IH, consistent_get.
Qed.

(** Whatever fields are read, no callable is invoked twice. *)
Lemma read_all_at_most_once names r id :
  consistent r -> (invocations id (read_all names r) <= 1)%nat.
Proof.
  intros Hr. destruct (consistent_read_all names r Hr) as [Hnd _].
  now apply filter_NoDup.
Qed.

End LazyEntry_properties.

(* ===================================================================== *)
(** * The lookups of the plugin as lazy fields *)
(* ===================================================================== *)

Module Trakt_lazy_properties.

Import Trakt TraktUserData LazyEntry.

(** ** The first read of a field of a record with one binding *)

Lemma get_fresh_returns func keys e f default logs e' :
  f ∈ keys -> e !! f = None ->
  func e = (logs, Ok e') ->
  get f default (register_lazy_func func keys (of_fields e))
  = (value_or_default (e' !! f) default f,
     LazyEntry e' (covering (register_lazy_func func keys (of_fields e)))
               [Binding keys func Evaluated] [0%nat] logs).
Proof.
  intros Hf He Hfunc. unfold get.
  rewrite (LazyEntry_properties.register_covers func keys (of_fields e) f Hf).
  cbn [fields register_lazy_func of_fields bindings length]. rewrite He.
  unfold evaluate.
  cbn [fields covering bindings invoked observed lookup list_lookup app
       b_state b_func register_lazy_func of_fields].
  now rewrite Hfunc.
Qed.

Lemma get_fresh_raises func keys e f default logs ex :
  f ∈ keys -> e !! f = None ->
  func e = (logs, Raise ex) ->
  get f default (register_lazy_func func keys (of_fields e))
  = (value_or_default None default f,
     LazyEntry e (covering (register_lazy_func func keys (of_fields e)))
               [Binding keys func Failed] [0%nat]
               (logs ++ [Log DEBUG (exn_str ex)])).
Proof.
  intros Hf He Hfunc. unfold get.
  rewrite (LazyEntry_properties.register_covers func keys (of_fields e) f Hf).
  cbn [fields register_lazy_func of_fields bindings length]. rewrite He.
  unfold evaluate.
  cbn [fields covering bindings invoked observed lookup list_lookup app
       b_state b_func register_lazy_func of_fields].
  rewrite Hfunc. cbn [fields]. now rewrite He.
Qed.

Section Lookups.

Variable media : Type.
Variable update_using_map : field_map media -> media -> entry -> M entry.
Variable get_series get_season get_episode get_movie : entry -> M media.
Variable lookup_map : string -> string -> option (media -> value -> M value).

#[local] Abbreviation getter_map :=
  (Trakt.getter_map media get_series get_season get_episode get_movie).
#[local] Abbreviation register_lookup :=
  (Trakt.register_lookup media update_using_map).
#[local] Abbreviation user_data_lookup :=
  (TraktUserData.user_data_lookup media get_series get_season get_episode
     get_movie lookup_map).

(** C3. An exception of the getter, of whatever class, during the
    evaluation of a binding of the plugin does not leave the read of the
    field: the read answers with the default (or [KeyError] on the field
    name when there is none) and the callable has been invoked once.  On
    the binding of a [TraktLookup] the fields are left as they were, the
    binding having failed, or, for a [LookupError], been evaluated without
    a field written.  On the binding of a field of user data the fields
    are left as they were when the exception is no [LookupError]; after a
    [LookupError] the field is not left absent: it holds [None], which the
    read returns. *)
Theorem exception_of_lookup_ends_in_the_read
    (m : field_map media) (getter : entry -> M media) (e : entry)
    (logs : list log_record) (ex : exn) (f : string) (default : option value)
    (field_name data_type media_type : string)
    (udl : media -> value -> M value) :
  getter e = (logs, Raise ex) ->
  f ∈ keys media m -> e !! f = None ->
  getter_map media_type = Some getter ->
  lookup_map data_type media_type = Some udl ->
  e !! field_name = None ->
  (fst (get f default (register_lookup m getter (of_fields e)))
   = value_or_default None default f
   /\ fields (snd (get f default (register_lookup m getter (of_fields e)))) = e
   /\ invoked (snd (get f default (register_lookup m getter (of_fields e))))
      = [0%nat]
   /\ map b_state
        (bindings (snd (get f default (register_lookup m getter (of_fields e)))))
      = [if is_LookupError ex then Evaluated else Failed])
  /\ (is_LookupError ex = false ->
      get field_name default
        (register_lazy_func
           (TraktUserDataLookup_call
              (user_data_lookup field_name data_type media_type))
           [field_name] (of_fields e))
      = (value_or_default None default field_name,
         LazyEntry e {[field_name := 0%nat]}
           [Binding [field_name]
              (TraktUserDataLookup_call
                 (user_data_lookup field_name data_type media_type))
              Failed]
           [0%nat] (logs ++ [Log DEBUG (exn_str ex)])))
  /\ (is_LookupError ex = true ->
      get field_name default
        (register_lazy_func
           (TraktUserDataLookup_call
              (user_data_lookup field_name data_type media_type))
           [field_name] (of_fields e))
      = (Ok VNone,
         LazyEntry (<[field_name := VNone]> e) {[field_name := 0%nat]}
           [Binding [field_name]
              (TraktUserDataLookup_call
                 (user_data_lookup field_name data_type media_type))
              Evaluated]
           [0%nat] (logs ++ [Log DEBUG (exn_str ex)]))).
Proof.
  intros Hget Hf He Hg Hu Hfield.
  pose proof (Trakt_properties.TraktLookup_call_raise media update_using_map
                {| tl_field_map := m; tl_lookup_function := getter |}
                e logs ex Hget) as Htl.
  pose proof (Trakt_properties.lazy_user_data_lookup_getter_raise media
                get_series get_season get_episode get_movie lookup_map
                data_type media_type e getter udl logs ex Hg Hu Hget) as Hlazy.
  assert (Hin : field_name ∈ [field_name]) by constructor.
  split; [| split].
  - unfold Trakt.register_lookup. cbn [tl_field_map].
    destruct (is_LookupError ex).
    + rewrite (get_fresh_returns _ _ e f default _ e Hf He Htl).
      cbn [fst snd fields invoked bindings map b_state]. now rewrite He.
    + now rewrite (get_fresh_raises _ _ e f default _ ex Hf He Htl).
  - intros Hex. rewrite Hex in Hlazy.
    apply (get_fresh_raises _ _ e field_name default logs ex Hin Hfield).
    unfold TraktUserDataLookup_call, try_except_else.
    cbn [ud_lookup_function ud_data_type ud_media_type ud_field_name
         TraktUserData.user_data_lookup].
    now rewrite Hlazy, Hex.
  - intros Hex. rewrite Hex in Hlazy.
    rewrite (get_fresh_returns _ _ e field_name default
               (logs ++ [Log DEBUG (exn_str ex)])
               (<[field_name := VNone]> e) Hin Hfield).
    + now rewrite lookup_insert_eq.
    + unfold TraktUserDataLookup_call, try_except_else.
      cbn [ud_lookup_function ud_data_type ud_media_type ud_field_name
           TraktUserData.user_data_lookup].
      rewrite Hlazy. cbn [ret]. now rewrite app_nil_r.
Qed.

End Lookups.

Lemma exception_of_lookup_ends_in_the_read_witness :
  get "trakt_series_name" (Some (VStr "unknown"))
    (Trakt.register_lookup value (fun _ _ e => ret e)
       [("trakt_series_name", Attr value "title")]
       (fun _ => raise (Exn ConnectionError "connection refused"))
       (of_fields {["title" := VStr "Show"]}))
  = (Ok (VStr "unknown"),
     LazyEntry {["title" := VStr "Show"]} {["trakt_series_name" := 0%nat]}
       [Binding ["trakt_series_name"]
          (TraktLookup_call value (fun _ _ e => ret e)
             {| tl_field_map := [("trakt_series_name", Attr value "title")];
                tl_lookup_function :=
                  fun _ => raise (Exn ConnectionError "connection refused") |})
          Failed]
       [0%nat] [Log DEBUG "connection refused"])
  /\ get "trakt_watched" (Some (VStr "unknown"))
       (register_lazy_func
          (TraktUserDataLookup_call
             (TraktUserData.user_data_lookup value
                (fun _ => raise (Exn BaseLookupError "not found"))
                (fun _ => ret VNone) (fun _ => ret VNone)
                (fun _ => ret VNone)
                (fun _ _ => Some (fun _ _ => ret (VBool true)))
                "trakt_watched" "watched" "show"))
          ["trakt_watched"] (of_fields {["title" := VStr "Show"]}))
     = (Ok VNone,
        LazyEntry (<["trakt_watched" := VNone]> {["title" := VStr "Show"]})
          {["trakt_watched" := 0%nat]}
          [Binding ["trakt_watched"]
             (TraktUserDataLookup_call
                (TraktUserData.user_data_lookup value
                   (fun _ => raise (Exn BaseLookupError "not found"))
                   (fun _ => ret VNone) (fun _ => ret VNone)
                   (fun _ => ret VNone)
                   (fun _ _ => Some (fun _ _ => ret (VBool true)))
                   "trakt_watched" "watched" "show"))
             Evaluated]
          [0%nat] [Log DEBUG "not found"]).
Proof.
  destruct (exception_of_lookup_ends_in_the_read value (fun _ _ e => ret e)
              (fun _ => raise (Exn BaseLookupError "not found"))
              (fun _ => ret VNone) (fun _ => ret VNone) (fun _ => ret VNone)
              (fun _ _ => Some (fun _ _ => ret (VBool true)))
              [("trakt_series_name", Attr value "title")]
              (fun _ => raise (Exn BaseLookupError "not found"))
              {["title" := VStr "Show"]} []
              (Exn BaseLookupError "not found")
              "trakt_series_name" (Some (VStr "unknown"))
              "trakt_watched" "watched" "show"
              (fun _ _ => ret (VBool true))
              eq_refl ltac:(constructor) eq_refl eq_refl eq_refl eq_refl)
    as (_ & _ & Hnone).
  split; [reflexivity | exact (Hnone eq_refl)].
Defined.

End Trakt_lazy_properties.

(* ===================================================================== *)
(** * Properties of the persistence *)
(* ===================================================================== *)

Module Persistence_properties.

Import Persistence.

(** ** The class body *)

(** [defaultdict(defaultdict(dict))] raises: its argument is an instance of
    [defaultdict], which is not callable. *)
Lemma class_store_init_raises :
  class_store_init = Raise (Exn TypeError "first argument must be callable or None").
Proof. reflexivity. Qed.

(** ** Accesses to the store *)

Lemma with_store_accessible {A} (self : SimplePersistence)
    (f : gmap string cell -> result A * gmap string cell) (st : state) :
  accessible self st ->
  exists st',
    with_store self f st = (fst (f (peek self st)), st')
    /\ peek self st' = snd (f (peek self st))
    /\ accessible self st'
    /\ table st' = table st
    /\ logged st' = logged st.
Proof.
  unfold accessible, with_store, peek, peek_plugin, defaultdict_getitem.
  destruct st as [[fac1 its1] rows logs]. cbn [class_store items default_factory table logged].
  destruct (its1 !! taskname self) as [[fac2 its2]|] eqn:H1;
    cbn [items default_factory].
  - destruct (its2 !! plugin_name self) as [d|] eqn:H2.
    + intros _. destruct (f d) as [r d'] eqn:Hf. eexists. split; [reflexivity |].
      cbn [class_store items default_factory table logged fst snd].
      rewrite !lookup_insert_eq. cbn [items]. rewrite !lookup_insert_eq.
      repeat split; reflexivity.
    + destruct fac2 as [d|]; [| discriminate].
      intros _. destruct (f d) as [r d'] eqn:Hf. eexists. split; [reflexivity |].
      cbn [class_store items default_factory table logged fst snd].
      rewrite !lookup_insert_eq. cbn [items]. rewrite !lookup_insert_eq.
      repeat split; reflexivity.
  - destruct fac1 as [[fac2 its2]|]; [| discriminate].
    cbn [items default_factory].
    destruct (its2 !! plugin_name self) as [d|] eqn:H2.
    + intros _. destruct (f d) as [r d'] eqn:Hf. eexists. split; [reflexivity |].
      cbn [class_store items default_factory table logged fst snd].
      rewrite !lookup_insert_eq. cbn [items]. rewrite !lookup_insert_eq.
      repeat split; reflexivity.
    + destruct fac2 as [d|]; [| discriminate].
      intros _. destruct (f d) as [r d'] eqn:Hf. eexists. split; [reflexivity |].
      cbn [class_store items default_factory table logged fst snd].
      rewrite !lookup_insert_eq. cbn [items]. rewrite !lookup_insert_eq.
      repeat split; reflexivity.
Qed.

Lemma store_setitem_accessible self k c st :
  accessible self st ->
  exists st',
    store_setitem self k c st = (Ok tt, st')
    /\ peek self st' = <[k := c]> (peek self st)
    /\ accessible self st'
    /\ table st' = table st.
Proof.
  intros Ha. unfold store_setitem.
  destruct (with_store_accessible self (fun d => (Ok tt, <[k := c]> d)) st Ha)
    as (st' & Hrun & Hpeek & Ha' & Ht & _).
  exists st'. now rewrite Hrun.
Qed.

Lemma store_contains_accessible self k st :
  accessible self st ->
  exists st',
    store_contains self k st
    = (Ok (bool_decide (is_Some (peek self st !! k))), st')
    /\ peek self st' = peek self st
    /\ accessible self st'
    /\ table st' = table st.
Proof.
  intros Ha. unfold store_contains.
  destruct (with_store_accessible self
              (fun d => (Ok (bool_decide (is_Some (d !! k))), d)) st Ha)
    as (st' & Hrun & Hpeek & Ha' & Ht & _).
  exists st'. now rewrite Hrun.
Qed.

Lemma store_getitem_accessible self k st :
  accessible self st ->
  exists st',
    store_getitem self k st
    = (match peek self st !! k with
       | Some c => Ok c
       | None => Raise (Exn KeyError k)
       end, st')
    /\ peek self st' = peek self st
    /\ accessible self st'
    /\ table st' = table st.
Proof.
  intros Ha. unfold store_getitem.
  destruct (with_store_accessible self
              (fun d => match d !! k with
                        | Some c => (Ok c, d)
                        | None => (Raise (Exn KeyError k), d)
                        end) st Ha)
    as (st' & Hrun & Hpeek & Ha' & Ht & _).
  exists st'. rewrite Hrun, Hpeek. now destruct (peek self st !! k).
Qed.

(** Logging leaves the store and the table as they are. *)
Lemma plog_state l msg st :
  plog l msg st
  = (Ok tt, State (class_store st) (table st) (logged st ++ [Log l msg])).
Proof. reflexivity. Qed.

Lemma peek_logged self cs rows logs logs' :
  peek self (State cs rows logs) = peek self (State cs rows logs').
Proof. reflexivity. Qed.

Lemma accessible_logged self cs rows rows' logs logs' :
  accessible self (State cs rows logs) -> accessible self (State cs rows' logs').
Proof.
  unfold accessible, with_store. cbn [class_store].
  destruct (defaultdict_getitem (taskname self) cs) as [[bp|ex] cs'];
    [| discriminate].
  destruct (defaultdict_getitem (plugin_name self) bp) as [[d|ex] bp'];
    [trivial | discriminate].
Qed.

(** ** Nothing is written to the table *)

Lemma preserves_pret {A} (a : A) : preserves_table (pret a).
Proof. now intros st. Qed.

Lemma preserves_praise {A} (e : exn) : preserves_table (@praise A e).
Proof. now intros st. Qed.

Lemma preserves_plog l msg : preserves_table (plog l msg).
Proof. now intros st. Qed.

Lemma preserves_pbind {A B} (c : P A) (k : A -> P B) :
  preserves_table c -> (forall a, preserves_table (k a)) ->
  preserves_table (pbind c k).
Proof.
  intros Hc Hk st. unfold pbind. specialize (Hc st).
  destruct (c st) as [[a|e] st']; cbn [snd] in *; [| assumption].
  now rewrite Hk.
Qed.

Lemma preserves_with_store {A} self
    (f : gmap string cell -> result A * gmap string cell) :
  preserves_table (with_store self f).
Proof.
  intros st. unfold with_store.
  destruct (defaultdict_getitem (taskname self) (class_store st))
    as [[bp|e] cs]; [| reflexivity].
  destruct (defaultdict_getitem (plugin_name self) bp) as [[d|e] bp'];
    [| reflexivity].
  now destruct (f d).
Qed.

Lemma preserves_query_first self k : preserves_table (query_first self k).
Proof. now intros st. Qed.

(** ** The methods *)

Section Methods.

Variable repr : value -> string.

Lemma preserves_exec self c : preserves_table (exec repr self c).
Proof.
  destruct c as [k v | k | k |]; cbn [exec];
    apply preserves_pbind; try (intros; apply preserves_pret).
  - apply preserves_pbind; [apply preserves_plog |].
    intros _. apply preserves_with_store.
  - unfold __getitem__. apply preserves_pbind; [apply preserves_with_store |].
    intros [|].
    + apply preserves_pbind; [apply preserves_with_store |].
      intros c. destruct (is_DELETE c);
        [apply preserves_praise | apply preserves_with_store].
    + apply preserves_pbind; [apply preserves_query_first |].
      intros [row|]; [| apply preserves_praise].
      apply preserves_pbind; [apply preserves_with_store |].
      intros _. apply preserves_pret.
  - apply preserves_with_store.
  - apply preserves_plog.
Qed.

(** No sequence of calls changes the table. *)
Lemma preserves_run self calls : preserves_table (run repr self calls).
Proof.
  induction calls as [|c calls IH]; [apply preserves_pret |].
  destruct calls as [|c' calls]; [apply preserves_exec |].
  change (run repr self (c :: c' :: calls))
    with (pbind (exec repr self c) (fun _ => run repr self (c' :: calls))).
  apply preserves_pbind; [apply preserves_exec | intros _; exact IH].
Qed.

Lemma setitem_accessible self k v st :
  accessible self st ->
  exists st',
    __setitem__ repr self k v st = (Ok tt, st')
    /\ peek self st' = <[k := Value v]> (peek self st)
    /\ accessible self st'
    /\ table st' = table st.
Proof.
  intros Ha. unfold __setitem__, pbind. rewrite plog_state.
  destruct st as [cs rows logs]. cbn [class_store table logged].
  apply (accessible_logged self cs rows rows logs
           (logs ++ [Log DEBUG ("setting key " +:+ k +:+ " value " +:+ repr v)]))
    in Ha.
  destruct (store_setitem_accessible self k (Value v) _ Ha)
    as (st' & Hrun & Hpeek & Ha' & Ht).
  exists st'. repeat split; assumption.
Qed.

Lemma delitem_accessible self k st :
  accessible self st ->
  exists st',
    __delitem__ self k st = (Ok tt, st')
    /\ peek self st' = <[k := DELETE]> (peek self st)
    /\ accessible self st'
    /\ table st' = table st.
Proof. apply store_setitem_accessible. Qed.

(** [flush] writes nothing: the store and the table are as they were. *)
Lemma flush_state self st :
  flush self st
  = (Ok tt,
     State (class_store st) (table st)
           (logged st ++ [Log DEBUG "Flushing simple persistence updates to db."])).
Proof. reflexivity. Qed.

Lemma flush_accessible self st :
  accessible self st ->
  exists st',
    flush self st = (Ok tt, st')
    /\ peek self st' = peek self st
    /\ accessible self st'
    /\ table st' = table st.
Proof.
  intros Ha. rewrite flush_state. eexists. split; [reflexivity |].
  destruct st as [cs rows logs]. cbn [class_store table logged].
  split; [reflexivity |]. split; [| reflexivity].
  now apply (accessible_logged self cs rows rows logs).
Qed.

(** What [__getitem__] answers, in terms of the dict of the instance and of
    the table. *)
Lemma getitem_accessible self k st :
  accessible self st ->
  fst (__getitem__ self k st)
  = if bool_decide (is_Some (peek self st !! "key")) then
      match peek self st !! k with
      | Some DELETE => Raise (not_contained k)
      | Some (Value v) => Ok (Value v)
      | None => Raise (Exn KeyError k)
      end
    else
      match stored_row self k st with
      | Some row => Ok (Value (value_of row))
      | None => Raise (not_contained k)
      end.
Proof.
  intros Ha. unfold __getitem__, pbind.
  destruct (store_contains_accessible self "key" st Ha)
    as (st1 & -> & Hp1 & Ha1 & Ht1).
  destruct (bool_decide (is_Some (peek self st !! "key"))).
  - destruct (store_getitem_accessible self k st1 Ha1)
      as (st2 & -> & Hp2 & Ha2 & Ht2).
    rewrite Hp1. destruct (peek self st !! k) as [[v|]|] eqn:Hk;
      cbn [is_DELETE]; try reflexivity.
    destruct (store_getitem_accessible self k st2 Ha2)
      as (st3 & -> & _). now rewrite Hp2, Hp1, Hk.
  - unfold query_first, stored_row. rewrite Ht1.
    destruct (find (matches self k) (table st)) as [row|]; [| reflexivity].
    destruct (store_setitem_accessible self k (Value (value_of row)) st1 Ha1)
      as (st2 & -> & _). reflexivity.
Qed.

Lemma fst_answer {A B} (c : P A) (g : A -> B) st :
  fst (pbind c (fun x => pret (g x)) st)
  = match fst (c st) with Ok a => Ok (g a) | Raise e => Raise e end.
Proof. unfold pbind, pret. now destruct (c st) as [[a|e] st']. Qed.

(** ** A write, a flush and a read *)

(** The read after a write and a flush answers with the value written only
    when the string ['key'] is a key of the dict; otherwise the table is
    asked, which [flush] has not written to. *)
Lemma set_flush_get self k v st :
  accessible self st ->
  fst (run repr self [SetItem k v; Flush; GetItem k] st)
  = if bool_decide (k = "key" \/ is_Some (peek self st !! "key")) then
      Ok (Some (Value v))
    else
      match stored_row self k st with
      | Some row => Ok (Some (Value (value_of row)))
      | None => Raise (not_contained k)
      end.
Proof.
  intros Ha. cbn [run exec]. unfold pbind at 1 2.
  destruct (setitem_accessible self k v st Ha) as (st1 & -> & Hp1 & Ha1 & Ht1).
  cbn [pret]. unfold pbind at 1 2.
  destruct (flush_accessible self st1 Ha1) as (st2 & -> & Hp2 & Ha2 & Ht2).
  cbn [pret]. rewrite fst_answer, (getitem_accessible self k st2 Ha2).
  unfold stored_row. rewrite Hp2, Hp1, Ht2, Ht1, lookup_insert_eq.
  destruct (decide (k = "key")) as [-> | Hne].
  - rewrite lookup_insert_eq.
    rewrite !bool_decide_eq_true_2 by eauto. reflexivity.
  - rewrite lookup_insert_ne by assumption.
    destruct (peek self st !! "key") as [c|] eqn:Hkey.
    + rewrite !bool_decide_eq_true_2 by eauto. reflexivity.
    + rewrite !bool_decide_eq_false_2;
        [now destruct (find (matches self k) (table st)) | |].
      * intros [? | [? ?]]; congruence.
      * intros [? ?]; congruence.
Qed.

(** ** A write, a delete, a flush and a read *)

(** The read after a write, a delete and a flush raises [KeyError] when the
    string ['key'] is a key of the dict; otherwise the table is asked, and a
    row of the table for the key is read back, and written over the
    [DELETE] mark. *)
Lemma set_delete_flush_get self k v st :
  accessible self st ->
  fst (run repr self [SetItem k v; DelItem k; Flush; GetItem k] st)
  = if bool_decide (k = "key" \/ is_Some (peek self st !! "key")) then
      Raise (not_contained k)
    else
      match stored_row self k st with
      | Some row => Ok (Some (Value (value_of row)))
      | None => Raise (not_contained k)
      end.
Proof.
  intros Ha. cbn [run exec]. unfold pbind at 1 2.
  destruct (setitem_accessible self k v st Ha) as (st1 & -> & Hp1 & Ha1 & Ht1).
  cbn [pret]. unfold pbind at 1 2.
  destruct (delitem_accessible self k st1 Ha1) as (st2 & -> & Hp2 & Ha2 & Ht2).
  cbn [pret]. unfold pbind at 1 2.
  destruct (flush_accessible self st2 Ha2) as (st3 & -> & Hp3 & Ha3 & Ht3).
  cbn [pret]. rewrite fst_answer, (getitem_accessible self k st3 Ha3).
  unfold stored_row. rewrite Hp3, Hp2, Hp1, Ht3, Ht2, Ht1, lookup_insert_eq.
  destruct (decide (k = "key")) as [-> | Hne].
  - rewrite lookup_insert_eq.
    rewrite !bool_decide_eq_true_2 by eauto. reflexivity.
  - rewrite !lookup_insert_ne by assumption.
    destruct (peek self st !! "key") as [c|] eqn:Hkey.
    + rewrite !bool_decide_eq_true_2 by eauto. reflexivity.
    + rewrite !bool_decide_eq_false_2;
        [now destruct (find (matches self k) (table st)) | |].
      * intros [? | [? ?]]; congruence.
      * intros [? ?]; congruence.
Qed.

(** ** The round trip, the tombstone and the flush *)

(** Whatever the instance and the calls, their run after the import of the
    module ends in the [TypeError] of the class body. *)
Lemma import_raises_TypeError
    (rows : list SimpleKeyValue) (self : SimplePersistence)
    (calls : list call) :
  import_and_run repr rows self calls
  = Raise (Exn TypeError "first argument must be callable or None").
Proof. reflexivity. Qed.

(** C6 fails on the code. After the module is imported, a write, a flush
    and a read of the key end in the [TypeError] of the class body.  On the
    class store [defaultdict(lambda: defaultdict(dict))], with an empty
    table, the read of the key ['k'] after [set] and [flush] raises
    [KeyError]: [__getitem__] tests ['key' in self.store] and [flush] writes
    nothing to the table. *)
Theorem set_flush_get_raises
    (rows : list SimpleKeyValue) (self : SimplePersistence)
    (k : string) (v : value) :
  import_and_run repr rows self [SetItem k v; Flush; GetItem k]
  = Raise (Exn TypeError "first argument must be callable or None")
  /\ fst (run repr (new (Some "seen")) [SetItem "k" (VInt 1); Flush; GetItem "k"]
            (State nested_store [] []))
     = Raise (not_contained "k").
Proof. split; reflexivity. Qed.

(** C7 fails on the code. After the module is imported, a write, a delete, a
    flush and a read of the key end in the [TypeError] of the class body, not
    in a [KeyError].  On the class store
    [defaultdict(lambda: defaultdict(dict))], with a table that holds a row
    for the key ['k'], the read after [set], [delete] and [flush] does not
    raise: it answers with the value of the row. *)
Theorem set_delete_flush_get_answers
    (rows : list SimpleKeyValue) (self : SimplePersistence)
    (k : string) (v : value) :
  import_and_run repr rows self [SetItem k v; DelItem k; Flush; GetItem k]
  = Raise (Exn TypeError "first argument must be callable or None")
  /\ fst (run repr (new (Some "seen"))
            [SetItem "k" (VInt 5); DelItem "k"; Flush; GetItem "k"]
            (State nested_store
                   [{| task := None; plugin := Some "seen"; key := "k";
                       value_of := VInt 5 |}] []))
     = Ok (Some (Value (VInt 5))).
Proof. split; reflexivity. Qed.

(** C8 fails on the code. [flush] logs and does nothing else: the class
    store and the table are left as they are, whatever is pending, and no
    sequence of calls of the methods changes the table; a value written
    before a flush is in no row of the table after it, it is in the dict
    only.  (With nothing pending, then, [flush] changes neither the store
    nor the table.) *)
Theorem flush_commits_nothing
    (self : SimplePersistence) (st : state) (calls : list call) :
  flush self st
  = (Ok tt,
     State (class_store st) (table st)
           (logged st ++ [Log DEBUG "Flushing simple persistence updates to db."]))
  /\ table (snd (run repr self calls st)) = table st
  /\ table (snd (run repr (new (Some "seen")) [SetItem "k" (VInt 1); Flush]
                   (State nested_store [] [])))
     = []
  /\ peek (new (Some "seen"))
          (snd (run repr (new (Some "seen")) [SetItem "k" (VInt 1); Flush]
                  (State nested_store [] [])))
       !! "k"
     = Some (Value (VInt 1)).
Proof.
  split; [reflexivity |]. split; [apply preserves_run |].
  split; reflexivity.
Qed.

End Methods.

End Persistence_properties.

(* ===================================================================== *)
(** * Properties of the class store *)
(* ===================================================================== *)

Module ClassStore_properties.

Import Persistence ClassStore.

(** ** A factory that is not callable *)


(** ** A factory that is callable, or [None] *)

Lemma with_store_of_state {A} (self : SimplePersistence)
    (f : gmap string cell -> result A * gmap string cell)
    (st : Persistence.state) :
  with_store self f (of_state st)
  = (fst (Persistence.with_store self f st),
     of_state (snd (Persistence.with_store self f st))).
Proof.
  destruct st as [[fac its] rows logs].
  unfold with_store, Persistence.with_store, getitem, __missing__,
    defaultdict_getitem, of_state, of_defaultdict.
  cbn [class_store store_items store_factory table logged
       Persistence.class_store Persistence.table Persistence.logged
       items default_factory].
  destruct (its !! taskname self) as [[fac2 its2]|]; cbn [items default_factory].
  - destruct (its2 !! plugin_name self) as [d|].
    + now destruct (f d).
    + destruct fac2 as [d|]; [now destruct (f d) | reflexivity].
  - destruct fac as [[fac2 its2]|]; [| reflexivity].
    cbn [items default_factory].
    destruct (its2 !! plugin_name self) as [d|].
    + now destruct (f d).
    + destruct fac2 as [d|]; [now destruct (f d) | reflexivity].
Qed.

Section Methods.

Variable repr : value -> string.

(** On a class store whose factory is callable or [None], the methods are
    those of [Persistence]. *)
Lemma setitem_of_state self k v (st : Persistence.state) :
  __setitem__ repr self k v (of_state st)
  = (fst (Persistence.__setitem__ repr self k v st),
     of_state (snd (Persistence.__setitem__ repr self k v st))).
Proof.
  unfold __setitem__, Persistence.__setitem__, pbind, Persistence.pbind,
    plog, Persistence.plog, store_setitem, Persistence.store_setitem.
  exact (with_store_of_state self _
           (Persistence.State (Persistence.class_store st)
              (Persistence.table st) (Persistence.logged st ++ [_]))).
Qed.

Lemma delitem_of_state self k (st : Persistence.state) :
  __delitem__ self k (of_state st)
  = (fst (Persistence.__delitem__ self k st),
     of_state (snd (Persistence.__delitem__ self k st))).
Proof. apply with_store_of_state. Qed.

Lemma getitem_of_state self k (st : Persistence.state) :
  __getitem__ self k (of_state st)
  = (fst (Persistence.__getitem__ self k st),
     of_state (snd (Persistence.__getitem__ self k st))).
Proof.
  unfold __getitem__, Persistence.__getitem__, pbind, Persistence.pbind,
    store_contains, Persistence.store_contains,
    store_getitem, Persistence.store_getitem,
    store_setitem, Persistence.store_setitem,
    query_first, Persistence.query_first,
    praise, Persistence.praise, pret, Persistence.pret.
  rewrite with_store_of_state.
  destruct (Persistence.with_store self _ st) as [[found|e] st1];
    cbn [fst snd]; [| reflexivity].
  destruct found.
  - rewrite with_store_of_state.
    destruct (Persistence.with_store self _ st1) as [[c|e] st2];
      cbn [fst snd]; [| reflexivity].
    destruct (is_DELETE c); [reflexivity |].
    rewrite with_store_of_state.
    now destruct (Persistence.with_store self _ st2) as [[c'|e] st3].
  - change (table (of_state st1)) with (Persistence.table st1).
    destruct (find (matches self k) (Persistence.table st1)) as [row|];
      [| reflexivity].
    rewrite with_store_of_state.
    now destruct (Persistence.with_store self _ st1) as [[u|e] st2].
Qed.


End Methods.


End ClassStore_properties.

(* ===================================================================== *)
(** * The lookups registered by [on_task_metainfo] *)
(* ===================================================================== *)

Module Registration_properties.

Import LazyEntry Trakt LazyEntry_properties.

Section Registered.

Variable media : Type.
Variable update_using_map : field_map media -> media -> entry -> M entry.
Variable get_series get_season get_episode get_movie : entry -> M media.
Variable genre_names imdb_url series_url episode_titles actors ep_id
  : media -> result value.
Variable translations : string -> media -> result value.

#[local] Abbreviation show :=
  (show_entry media update_using_map get_series get_season get_episode
     get_movie genre_names imdb_url series_url episode_titles actors ep_id
     translations).

(** The first binding registered is the one of [series_map], and it covers
    every key of [series_map]. *)
Lemma series_map_covered (e : entry) (f : string) :
  f ∈ keys media (series_map media genre_names imdb_url series_url episode_titles) ->
  covering (show e) !! f = Some 0%nat.
Proof.
  intros Hf. cbn in Hf.
  repeat (apply elem_of_cons in Hf as [-> | Hf]; [reflexivity |]).
  now apply elem_of_nil in Hf.
Qed.

(** Reading fields of [series_map] on such a record, the first of which is
    not materialized, invokes the [TraktLookup] of [series_map] once, and
    no other lookup. *)
Lemma series_lookup_invoked_once (e : entry) (first : string) (rest : list string) :
  e !! first = None ->
  Forall (fun f => f ∈ keys media (series_map media genre_names imdb_url
                                     series_url episode_titles))
         (first :: rest) ->
  invoked (read_all (first :: rest) (show e)) = [0%nat].
Proof.
  intros He Hall. apply Forall_cons in Hall as [Hfirst Hrest].
  assert (Hp : pending 0 (show e)) by (eexists; split; reflexivity).
  destruct (evaluate_pending 0 (show e) Hp) as (Hinv & Hs & Hcov & _).
  unfold read_all. cbn [foldl].
  rewrite (get_pending first None 0 (show e)
             (series_map_covered e first Hfirst) Hp He).
  fold (read_all rest (evaluate 0 (show e))).
  rewrite (read_all_settled 0 rest); [exact Hinv | | exact Hs].
  rewrite Hcov. eapply Forall_impl; [exact Hrest |].
  intros f Hf. now apply series_map_covered.
Qed.

End Registered.

End Registration_properties.

(* ===================================================================== *)
(** * More properties of the deluge plugin *)
(* ===================================================================== *)

Module Deluge_more_properties.

Import Deluge DelugeConfig Deluge_properties.

#[local] Arguments set_field : simpl never.
#[local] Arguments lookup_flexget_key : simpl never.

(** ** The entries of [generate_entries] *)

(** No key of the tables is mapped to ['deluge_id'], ['url'] or
    ['location']. *)
Lemma reserved_fields_unmapped key k :
  lookup_flexget_key key = Ok k ->
  field_name k <> "deluge_id" /\ field_name k <> "url"
  /\ field_name k <> "location".
Proof.
  intros Hin%lookup_in_items.
  assert (Hall : Forall (fun kv : string * flexget_key =>
                           field_name (snd kv) <> "deluge_id"
                           /\ field_name (snd kv) <> "url"
                           /\ field_name (snd kv) <> "location")
                        (settings_items ++ extra_settings_items)).
  { apply (bool_decide_unpack _). vm_compute. exact I. }
  rewrite Forall_forall in Hall. exact (Hall _ Hin).
Qed.

(** What [locate] does, case by case. *)
Lemma locate_cases isfile expanduser config_path hash (e : entry) :
  locate isfile expanduser config_path hash e
  = if String.eqb (expanduser config_path) "" then ([], Ok e)
    else if isfile (torrent_path (expanduser config_path) hash) then
      ([], Ok (<["url" := VStr (file_url (torrent_path (expanduser config_path) hash))]>
               (<["location" := VStr (torrent_path (expanduser config_path) hash)]> e)))
    else ([not_found (torrent_path (expanduser config_path) hash)], Ok e).
Proof.
  unfold locate, torrent_path, file_url, not_found.
  destruct (String.eqb (expanduser config_path) ""); [reflexivity |].
  destruct (isfile _); reflexivity.
Qed.

(** The entry of one torrent, before the loop over its keys. *)
Lemma located_after_locate isfile expanduser config_path hash logs e :
  locate isfile expanduser config_path hash
    (<["url" := VStr ""]> {["deluge_id" := VStr hash]}) = (logs, Ok e) ->
  e !! "deluge_id" = Some (VStr hash)
  /\ located isfile (expanduser config_path) hash e
  /\ logs = warnings isfile (expanduser config_path) [(hash, [])].
Proof.
  rewrite locate_cases. unfold located, warnings. cbn [flat_map fst].
  destruct (String.eqb (expanduser config_path) "").
  - intros [= <- <-]. repeat split; reflexivity.
  - destruct (isfile (torrent_path (expanduser config_path) hash)).
    + intros [= <- <-]. repeat split; reflexivity.
    + intros [= <- <-]. repeat split; reflexivity.
Qed.

Lemma locate_succeeds isfile expanduser config_path hash (e : entry) :
  exists logs e', locate isfile expanduser config_path hash e = (logs, Ok e').
Proof.
  rewrite locate_cases.
  destruct (String.eqb (expanduser config_path) ""); [eauto |].
  destruct (isfile _); eauto.
Qed.

(** The loop over the keys keeps ['deluge_id'], ['url'] and ['location']. *)
Lemma set_fields_keeps_reserved d (e e' : entry) y :
  set_fields e d = Ok e' ->
  y = "deluge_id" \/ y = "url" \/ y = "location" ->
  e' !! y = e !! y.
Proof.
  intros Hrun Hy. apply (set_fields_frame d e e' y Hrun).
  intros key value k _ Hk Heq.
  destruct (reserved_fields_unmapped key k Hk) as (H1 & H2 & H3).
  destruct Hy as [-> | [-> | ->]]; congruence.
Qed.

Lemma located_kept isfile config_path hash (e e' : entry) :
  e' !! "url" = e !! "url" -> e' !! "location" = e !! "location" ->
  located isfile config_path hash e -> located isfile config_path hash e'.
Proof.
  unfold located. intros -> ->. trivial.
Qed.

Lemma warnings_cons isfile config_path hash d torrents :
  warnings isfile config_path ((hash, d) :: torrents)
  = warnings isfile config_path [(hash, [])]
    ++ warnings isfile config_path torrents.
Proof.
  unfold warnings. destruct (String.eqb config_path ""); [reflexivity |].
  cbn [flat_map fst]. now rewrite app_nil_r.
Qed.

(** One step of [generate_entries]. *)
Lemma generate_entries_cons isfile expanduser config_path hash d torrents :
  generate_entries isfile expanduser config_path ((hash, d) :: torrents)
  = (let* e := locate isfile expanduser config_path hash
                 (<["url" := VStr ""]> {["deluge_id" := VStr hash]}) in
     let* e := lift (set_fields e d) in
     let* entries := generate_entries isfile expanduser config_path torrents in
     ret (e :: entries)).
Proof. reflexivity. Qed.

(** X1. For torrents whose status dicts hold only keys of the tables, with
    values their format functions accept, [generate_entries] returns one
    entry for each torrent, in the order of the torrents.  The entry of a
    torrent holds the hash of the torrent in ['deluge_id']; when the torrent
    file is found under the configuration directory it holds the path in
    ['location'] and a [file://] url of the path, with a leading slash, in
    ['url'], otherwise an empty ['url'] and no ['location'].  One warning is
    logged for each torrent file that is looked for and not found. *)
Theorem generate_entries_one_entry_per_torrent
    (isfile : string -> bool) (expanduser : string -> string)
    (config_path : string) (torrents : list (string * list (string * value))) :
  Forall (fun t => all_mapped (snd t)) torrents ->
  exists entries,
    generate_entries isfile expanduser config_path torrents
    = (warnings isfile (expanduser config_path) torrents, Ok entries)
    /\ Forall2 (fun t e =>
                  e !! "deluge_id" = Some (VStr (fst t))
                  /\ located isfile (expanduser config_path) (fst t) e)
               torrents entries.
Proof.
  induction torrents as [|[hash d] torrents IH]; intros Hall.
  - exists []. split; [| constructor]. unfold warnings.
    now destruct (String.eqb (expanduser config_path) "").
  - apply Forall_cons in Hall as [Hd Hall]. cbn [snd] in Hd.
    destruct (IH Hall) as (entries & Hrest & Hshape).
    destruct (locate_succeeds isfile expanduser config_path hash
                (<["url" := VStr ""]> {["deluge_id" := VStr hash]}))
      as (logs & e0 & Hloc).
    destruct (located_after_locate _ _ _ _ _ _ Hloc) as (Hid & Hlocated & ->).
    destruct (set_fields_succeeds d e0 Hd) as [e1 He1].
    exists (e1 :: entries). split.
    + rewrite generate_entries_cons, Hloc. cbn [bind]. rewrite He1.
      cbn [bind lift]. rewrite Hrest, (warnings_cons _ _ hash d torrents).
      cbn [bind ret app]. now rewrite !app_nil_r.
    + constructor; [| assumption]. cbn [fst]. split.
      * rewrite (set_fields_keeps_reserved d e0 e1 "deluge_id" He1); auto.
      * apply (located_kept _ _ _ e0); [| | assumption];
          apply (set_fields_keeps_reserved d e0 e1 _ He1); auto.
Qed.

Lemma generate_entries_one_entry_per_torrent_witness :
  Forall (fun t : string * list (string * value) => all_mapped (snd t))
         [("2f1d", [("name", VStr "ubuntu.iso")]); ("77aa", [])]
  /\ exists entries,
       generate_entries (fun path => String.eqb path "cfg/state/77aa.torrent")
         (fun path => path) "cfg"
         [("2f1d", [("name", VStr "ubuntu.iso")]); ("77aa", [])]
       = ([Log WARNING "Did not find torrent file at cfg/state/2f1d.torrent"],
          Ok entries)
       /\ length entries = 2%nat.
Proof.
  assert (Hall : Forall (fun t : string * list (string * value) =>
                           all_mapped (snd t))
                        [("2f1d", [("name", VStr "ubuntu.iso")]); ("77aa", [])]).
  { apply List.Forall_cons; [| apply List.Forall_cons; [| apply List.Forall_nil]].
    - apply List.Forall_cons; [| apply List.Forall_nil].
      exists (Name "title"), (VStr "ubuntu.iso"). split; reflexivity.
    - apply List.Forall_nil. }
  split; [exact Hall |].
  destruct (generate_entries_one_entry_per_torrent
              (fun path => String.eqb path "cfg/state/77aa.torrent")
              (fun path => path) "cfg" _ Hall) as (entries & Hrun & Hshape).
  exists entries. split; [exact Hrun |].
  symmetry. exact (Forall2_length _ _ _ Hshape).
Defined.

(** X2. One torrent whose status dict holds a key of neither table makes
    the whole of [generate_entries] raise [KeyError] on that key: no entry
    is returned, for this torrent or for any other, before or after it. *)
Theorem generate_entries_fails_as_a_whole
    (isfile : string -> bool) (expanduser : string -> string)
    (config_path : string)
    (before after : list (string * list (string * value)))
    (hash key : string) (v : value) (d1 d2 : list (string * value)) :
  Forall (fun t => all_mapped (snd t)) before ->
  all_mapped d1 ->
  settings_map !! key = None -> extra_settings_map !! key = None ->
  snd (generate_entries isfile expanduser config_path
         (before ++ (hash, d1 ++ (key, v) :: d2) :: after))
  = Raise (Exn KeyError key).
Proof.
  intros Hbefore Hd1 H1 H2.
  induction before as [|[hash0 d0] before IH]; cbn [app].
  - rewrite generate_entries_cons.
    destruct (locate_succeeds isfile expanduser config_path hash
                (<["url" := VStr ""]> {["deluge_id" := VStr hash]}))
      as (logs & e0 & ->).
    cbn [bind]. now rewrite (set_fields_unmapped d1 e0 key v d2 Hd1 H1 H2).
  - apply Forall_cons in Hbefore as [Hd0 Hbefore]. cbn [snd] in Hd0.
    specialize (IH Hbefore). rewrite generate_entries_cons.
    destruct (locate_succeeds isfile expanduser config_path hash0
                (<["url" := VStr ""]> {["deluge_id" := VStr hash0]}))
      as (logs & e0 & ->).
    cbn [bind]. destruct (set_fields_succeeds d0 e0 Hd0) as [e1 ->].
    cbn [bind lift].
    destruct (generate_entries isfile expanduser config_path
                (before ++ (hash, d1 ++ (key, v) :: d2) :: after))
      as [logs' r].
    cbn [snd] in IH. subst r. reflexivity.
Qed.

Lemma generate_entries_fails_as_a_whole_witness :
  all_mapped [("name", VStr "ubuntu.iso")]
  /\ settings_map !! "comment" = None
  /\ extra_settings_map !! "comment" = None
  /\ snd (generate_entries (fun _ => false) (fun path => path) ""
            ([("2f1d", [("name", VStr "a.iso")])]
             ++ ("77aa", [("name", VStr "ubuntu.iso")]
                         ++ ("comment", VStr "") :: [("eta", VInt 0)])
             :: [("9c3e", [])]))
     = Raise (Exn KeyError "comment").
Proof.
  assert (Hd : forall s, all_mapped [("name", VStr s)]).
  { intros s. apply List.Forall_cons; [| apply List.Forall_nil].
    exists (Name "title"), (VStr s). split; reflexivity. }
  split; [apply Hd |]. split; [reflexivity |]. split; [reflexivity |].
  apply generate_entries_fails_as_a_whole; [| apply Hd | reflexivity | reflexivity].
  apply List.Forall_cons; [apply Hd | apply List.Forall_nil].
Defined.

(** ** [_format_label] *)

(** X3. The labels of lowercase letters a-z, digits, underscores and
    hyphens are left as they are by [_format_label]; a label that is left
    as it is holds only word characters and hyphens; and an ASCII label
    that is left as it is holds only lowercase letters a-z, digits,
    underscores and hyphens. *)
Theorem format_label_fixed_points
    (unicode_lower : text -> N -> text -> text) (unicode_word : N -> bool)
    (s : text) :
  (forallb label_char s = true ->
   _format_label unicode_lower unicode_word s = s)
  /\ (_format_label unicode_lower unicode_word s = s ->
      forallb (fun c => is_word unicode_word c || (c =? hyphen)%N) s = true)
  /\ (forallb is_ascii s = true ->
      _format_label unicode_lower unicode_word s = s ->
      forallb label_char s = true).
Proof.
  split; [apply format_label_fixed |]. split.
  - intros H. rewrite <- H. apply format_label_words.
  - intros Ha H. rewrite <- H. now apply format_label_ascii.
Qed.

Lemma format_label_fixed_points_witness :
  _format_label ucd_lower ucd_word (code_points "tv-shows_2") = code_points "tv-shows_2"
  /\ forallb (fun c => is_word ucd_word c || (c =? hyphen)%N) [0xE9%N] = true
  /\ forallb label_char (code_points "tv-shows_2") = true.
Proof.
  destruct (format_label_fixed_points ucd_lower ucd_word
              (code_points "tv-shows_2")) as (Hfix & _ & Hascii).
  destruct (format_label_fixed_points ucd_lower ucd_word [0xE9%N])
    as (_ & Hword & _).
  split; [exact (Hfix eq_refl) |]. split; [exact (Hword eq_refl) |].
  exact (Hascii eq_refl (Hfix eq_refl)).
Defined.

(** The label ['é'] is left as it is, and is not ASCII. *)
Example format_label_fixed_point_not_ascii :
  _format_label ucd_lower ucd_word [0xE9%N] = [0xE9%N]
  /\ forallb label_char [0xE9%N] = false.
Proof. split; reflexivity. Qed.

Lemma map_nil_iff {A B} (f : A -> B) (l : list A) : map f l = [] <-> l = [].
Proof. destruct l; split; intros; (reflexivity || discriminate). Qed.

(** X4. [_format_label] never makes a label longer than its lower-cased
    form, which for an ASCII label is as long as the label; and the only
    ASCII label it makes empty is the empty one. *)
Theorem format_label_length
    (unicode_lower : text -> N -> text -> text) (unicode_word : N -> bool)
    (s : text) :
  (length (_format_label unicode_lower unicode_word s)
   <= length (str_lower unicode_lower s))%nat
  /\ (_format_label unicode_lower unicode_word s = []
      <-> str_lower unicode_lower s = [])
  /\ (forallb is_ascii s = true ->
      (length (_format_label unicode_lower unicode_word s) <= length s)%nat
      /\ (_format_label unicode_lower unicode_word s = [] <-> s = [])).
Proof.
  assert (Hlen : (length (_format_label unicode_lower unicode_word s)
                  <= length (str_lower unicode_lower s))%nat).
  { apply sub_length. cbn. lia. }
  assert (Hnil : _format_label unicode_lower unicode_word s = []
                 <-> str_lower unicode_lower s = []).
  { apply sub_nil. discriminate. }
  split; [exact Hlen |]. split; [exact Hnil |].
  intros Ha. rewrite (str_lower_ascii unicode_lower s Ha) in Hlen, Hnil.
  rewrite length_map in Hlen. split; [exact Hlen |].
  etransitivity; [exact Hnil | apply map_nil_iff].
Qed.

Lemma format_label_length_witness :
  (length (_format_label ucd_lower ucd_word (code_points "My Label!! (2019)"))
   <= 17)%nat
  /\ length (_format_label ucd_lower ucd_word (code_points "My Label!! (2019)"))
     = 14%nat.
Proof.
  destruct (format_label_length ucd_lower ucd_word
              (code_points "My Label!! (2019)")) as (_ & _ & Hascii).
  split; [exact (proj1 (Hascii eq_refl)) | reflexivity].
Defined.

(** The label ['İ'] becomes ['i_']: one code point becomes two. *)
Example format_label_longer :
  _format_label ucd_lower ucd_word [0x130%N] = [0x69%N; underscore].
Proof. reflexivity. Qed.

(** ** [file_paths], the format function of ['files'] *)

Lemma comprehension_paths fs ps :
  Forall2 has_path fs ps ->
  comprehension (fun f => getitem_str f "path") fs = Ok ps.
Proof.
  induction 1 as [|f p fs ps (d & -> & Hp) _ IH]; [reflexivity |].
  cbn [comprehension getitem_str]. rewrite Hp. cbn [result_bind].
  now rewrite IH.
Qed.

Lemma comprehension_missing_path fs ps d rest :
  Forall2 has_path fs ps ->
  dict_get "path" d = None ->
  comprehension (fun f => getitem_str f "path") (fs ++ VDict d :: rest)
  = Raise (Exn KeyError "path").
Proof.
  intros Hfs Hd. induction Hfs as [|f p fs ps (d' & -> & Hp) _ IH];
    cbn [app comprehension getitem_str].
  - now rewrite Hd.
  - rewrite Hp. cbn [result_bind]. now rewrite IH.
Qed.

(** X5. For a list of file dicts that all hold a ['path'], the format
    function of ['files'] returns the list of the paths, in order; the first
    file dict without a ['path'] makes it raise [KeyError]. *)
Theorem file_paths_lists_the_paths
    (fs ps : list value) (d : list (string * value)) (rest : list value) :
  Forall2 has_path fs ps ->
  dict_get "path" d = None ->
  file_paths (VList fs) = Ok (VList ps)
  /\ file_paths (VList (fs ++ VDict d :: rest)) = Raise (Exn KeyError "path").
Proof.
  intros Hfs Hd. unfold file_paths. cbn [iterate result_bind]. split.
  - now rewrite (comprehension_paths fs ps Hfs).
  - now rewrite (comprehension_missing_path fs ps d rest Hfs Hd).
Qed.

Lemma file_paths_lists_the_paths_witness :
  Forall2 has_path
    [VDict [("path", VStr "a/b.mkv"); ("size", VInt 7)];
     VDict [("index", VInt 1); ("path", VStr "a/b.srt")]]
    [VStr "a/b.mkv"; VStr "a/b.srt"]
  /\ dict_get "path" [("size", VInt 3)] = None
  /\ file_paths
       (VList [VDict [("path", VStr "a/b.mkv"); ("size", VInt 7)];
               VDict [("index", VInt 1); ("path", VStr "a/b.srt")]])
     = Ok (VList [VStr "a/b.mkv"; VStr "a/b.srt"])
  /\ file_paths
       (VList ([VDict [("path", VStr "a/b.mkv"); ("size", VInt 7)];
                VDict [("index", VInt 1); ("path", VStr "a/b.srt")]]
               ++ VDict [("size", VInt 3)] :: []))
     = Raise (Exn KeyError "path").
Proof.
  assert (Hfs : Forall2 has_path
                  [VDict [("path", VStr "a/b.mkv"); ("size", VInt 7)];
                   VDict [("index", VInt 1); ("path", VStr "a/b.srt")]]
                  [VStr "a/b.mkv"; VStr "a/b.srt"]).
  { apply List.Forall2_cons; [eexists; split; reflexivity |].
    apply List.Forall2_cons; [eexists; split; reflexivity |].
    apply List.Forall2_nil. }
  split; [exact Hfs |]. split; [reflexivity |].
  exact (file_paths_lists_the_paths _ _ [("size", VInt 3)] [] Hfs eq_refl).
Defined.

(** ** [prepare_config] *)

(** [setdefault] is the union with a singleton, the dict first. *)
Lemma setdefault_union k v (d : gmap string value) :
  setdefault k v d = d ∪ {[k := v]}.
Proof.
  unfold setdefault. apply map_eq. intros i. rewrite lookup_union.
  destruct (decide (i = k)) as [-> | Hne].
  - rewrite lookup_singleton_eq. destruct (d !! k) as [x|] eqn:Hk.
    + now rewrite Hk.
    + now rewrite lookup_insert_eq.
  - rewrite lookup_singleton_ne by congruence.
    destruct (d !! k) as [x|] eqn:Hk.
    + now destruct (d !! i).
    + rewrite lookup_insert_ne by congruence. now destruct (d !! i).
Qed.

Lemma union_idempotent_defaults (c defaults : gmap string value) :
  (c ∪ defaults) ∪ defaults = c ∪ defaults.
Proof.
  apply map_eq. intros i. rewrite !lookup_union.
  destruct (c !! i), (defaults !! i); reflexivity.
Qed.

Lemma DelugePlugin_prepare_config_union (c : gmap string value) :
  DelugePlugin_prepare_config c = c ∪ connection_defaults.
Proof.
  unfold DelugePlugin_prepare_config. rewrite !setdefault_union.
  now rewrite <- (assoc_L (∪)).
Qed.

Lemma OutputDeluge_prepare_config_union (c : gmap string value) :
  OutputDeluge_prepare_config (inr c) = c ∪ output_defaults.
Proof.
  unfold OutputDeluge_prepare_config, DelugePlugin_prepare_config.
  rewrite !setdefault_union. now rewrite <- !(assoc_L (∪)).
Qed.

(** X6. [OutputDeluge.prepare_config] completes the dict of the
    configuration with defaults and never changes a value that is given: a
    key keeps the value it has, one of the ten keys with a default gets its
    default when it is missing, and no other key is added.  A boolean
    becomes the dict of the defaults with ['enabled'] set to it.  A second
    call changes nothing. *)
Theorem OutputDeluge_prepare_config_defaults
    (c : gmap string value) (b : bool) (k : string) :
  OutputDeluge_prepare_config (inr c) !! k
  = match c !! k with
    | Some v => Some v
    | None => output_defaults !! k
    end
  /\ OutputDeluge_prepare_config (inl b)
     = <["enabled" := VBool b]> output_defaults
  /\ OutputDeluge_prepare_config (inr (OutputDeluge_prepare_config (inr c)))
     = OutputDeluge_prepare_config (inr c)
  /\ OutputDeluge_prepare_config (inr (OutputDeluge_prepare_config (inl b)))
     = OutputDeluge_prepare_config (inl b).
Proof.
  split; [| split; [| split]].
  - rewrite OutputDeluge_prepare_config_union, lookup_union.
    now destruct (c !! k), (output_defaults !! k).
  - destruct b; reflexivity.
  - rewrite !OutputDeluge_prepare_config_union.
    apply union_idempotent_defaults.
  - destruct b; reflexivity.
Qed.

(** ** [InputDeluge.prepare_config] *)






(** ** [on_task_download] *)

(** The entries of a successful [generate_entries] hold the hashes of the
    torrents. *)
Lemma generate_entries_ids isfile expanduser config_path torrents :
  forall logs entries,
    generate_entries isfile expanduser config_path torrents = (logs, Ok entries) ->
    Forall2 (fun t e => e !! "deluge_id" = Some (VStr (fst t))) torrents entries.
Proof.
  induction torrents as [|[hash d] torrents IH]; intros logs entries.
  - intros [= <- <-]. constructor.
  - rewrite generate_entries_cons.
    destruct (locate_succeeds isfile expanduser config_path hash
                (<["url" := VStr ""]> {["deluge_id" := VStr hash]}))
      as (logs0 & e0 & Hloc).
    destruct (located_after_locate _ _ _ _ _ _ Hloc) as (Hid & _ & _).
    rewrite Hloc. cbn [bind lift].
    destruct (set_fields e0 d) as [e1|ex] eqn:He1; [| discriminate].
    cbn [bind].
    destruct (generate_entries isfile expanduser config_path torrents)
      as [logs1 [entries1|ex]] eqn:Hrest; [| discriminate].
    cbn [bind ret]. intros [= <- <-]. constructor.
    + cbn [fst].
      rewrite (set_fields_keeps_reserved d e0 e1 "deluge_id" He1); auto.
    + now apply (IH logs1).
Qed.

Lemma get_temp_files_known get_temp_file (accepted : list entry) :
  Forall (fun e => truthy (get_or_None e "deluge_id") = true) accepted ->
  get_temp_files get_temp_file accepted = ([], Ok tt).
Proof.
  induction 1 as [|e accepted He _ IH]; [reflexivity |].
  cbn [get_temp_files]. now rewrite He.
Qed.

(** X8. The entries that [generate_entries] makes, for torrents whose hash
    is not empty, are never handed to the download plugin by
    [on_task_download], whatever the configuration of the output plugin: the
    ['deluge_id'] they carry marks them as loaded in deluge.  The step then
    fails only if the plugin [download] is looked up and not found. *)
Theorem from_deluge_entries_are_not_downloaded
    (isfile : string -> bool) (expanduser : string -> string)
    (config_path : string) (torrents : list (string * list (string * value)))
    (logs : list log_record) (entries : list entry)
    (get_plugin_by_name : string -> result (entry -> result unit))
    (config : bool + gmap string value) (download_configured : bool) :
  generate_entries isfile expanduser config_path torrents = (logs, Ok entries) ->
  Forall (fun t => fst t <> EmptyString) torrents ->
  fst (on_task_download get_plugin_by_name config download_configured entries)
  = []
  /\ (forall get_temp_file,
        get_plugin_by_name "download" = Ok get_temp_file ->
        snd (on_task_download get_plugin_by_name config download_configured
               entries) = Ok tt).
Proof.
  intros Hgen Hhash.
  assert (Hids : Forall (fun e => truthy (get_or_None e "deluge_id") = true)
                        entries).
  { pose proof (generate_entries_ids _ _ _ _ _ _ Hgen) as H2.
    clear Hgen. induction H2 as [|t e torrents entries Hid _ IH];
      [constructor |].
    apply Forall_cons in Hhash as [Ht Hhash].
    constructor; [| now apply IH].
    unfold get_or_None. rewrite Hid. cbn [truthy].
    destruct (fst t) as [|c r]; [congruence | reflexivity]. }
  unfold on_task_download.
  destruct (OutputDeluge_prepare_config config !! "enabled") as [enabled|] eqn:He.
  - destruct (negb (truthy enabled)); [split; reflexivity |].
    destruct (negb download_configured); [| split; reflexivity].
    destruct (get_plugin_by_name "download") as [g|ex].
    + rewrite (get_temp_files_known g entries Hids). split; reflexivity.
    + split; [reflexivity | discriminate].
  - exfalso. destruct config as [b | c].
    + destruct b; discriminate.
    + rewrite OutputDeluge_prepare_config_union, lookup_union in He.
      destruct (c !! "enabled"); discriminate.
Qed.

Lemma from_deluge_entries_are_not_downloaded_witness :
  Forall (fun t : string * list (string * value) => fst t <> EmptyString)
         [("2f1d", [("name", VStr "ubuntu.iso")])]
  /\ fst (on_task_download
            (fun _ => Ok (fun _ => Raise (Exn ConnectionError "no network")))
            (inl true) false
            [ <["title" := VStr "ubuntu.iso"]>
              (<["url" := VStr ""]> {["deluge_id" := VStr "2f1d"]}) ])
     = [].
Proof.
  assert (Hh : Forall (fun t : string * list (string * value) =>
                         fst t <> EmptyString)
                      [("2f1d", [("name", VStr "ubuntu.iso")])]).
  { apply List.Forall_cons; [discriminate | apply List.Forall_nil]. }
  split; [exact Hh |].
  exact (proj1 (from_deluge_entries_are_not_downloaded
           (fun _ => false) (fun path => path) ""
           [("2f1d", [("name", VStr "ubuntu.iso")])] [] _
           (fun _ => Ok (fun _ => Raise (Exn ConnectionError "no network")))
           (inl true) false eq_refl Hh)).
Defined.

(** ** [on_task_output]: the options of a torrent *)

Import DelugeOutput.

Lemma add_option_this e config a fopt dopt :
  dopt <> "stop_at_ratio" ->
  add_option e config a (fopt, dopt) !! dopt
  = if is_None (get_default e fopt (get_or_None config fopt)) then a !! dopt
    else Some (get_default e fopt (get_or_None config fopt)).
Proof.
  intros Hne. unfold add_option.
  destruct (is_None (get_default e fopt (get_or_None config fopt)));
    cbn [negb]; [reflexivity |].
  destruct (String.eqb fopt "ratio").
  - rewrite lookup_insert_ne by congruence. apply lookup_insert_eq.
  - apply lookup_insert_eq.
Qed.

Lemma add_option_other e config a fopt dopt k :
  k <> dopt ->
  k <> "stop_at_ratio" \/ fopt <> "ratio" ->
  add_option e config a (fopt, dopt) !! k = a !! k.
Proof.
  intros Hne Hr. unfold add_option.
  destruct (is_None (get_default e fopt (get_or_None config fopt)));
    cbn [negb]; [reflexivity |].
  destruct (String.eqb_spec fopt "ratio") as [-> | _].
  - destruct Hr as [Hr | Hr]; [| congruence].
    now rewrite !lookup_insert_ne by congruence.
  - now rewrite lookup_insert_ne by congruence.
Qed.

Lemma add_option_ratio e config a :
  add_option e config a ("ratio", "stop_ratio") !! "stop_at_ratio"
  = if is_None (get_default e "ratio" (get_or_None config "ratio"))
    then a !! "stop_at_ratio"
    else Some (VBool true).
Proof.
  unfold add_option.
  destruct (is_None (get_default e "ratio" (get_or_None config "ratio")));
    cbn [negb]; [reflexivity |].
  apply lookup_insert_eq.
Qed.

Ltac through_options :=
  repeat first
    [ rewrite add_option_this by discriminate
    | rewrite add_option_ratio
    | rewrite add_option_other by (first [discriminate | auto; fail]) ].

(** X9. The loop of [on_task_output] over [self.options] sets, for each of
    the nine options of the plugin, the option of deluge it stands for to
    the value of the entry, or else of the configuration; an option whose
    value is [None] (not given, or given as [None] in the entry, which hides
    the configuration) is left as it was.  ['stop_at_ratio'] is set, to
    [True], exactly when a ratio is given.  No other key is touched. *)
Theorem add_options_sets_what_is_given
    (e : entry) (config add_opts : gmap string value) :
  (forall fopt dopt,
      (fopt, dopt) ∈ options ->
      add_options e config add_opts !! dopt
      = if is_None (get_default e fopt (get_or_None config fopt))
        then add_opts !! dopt
        else Some (get_default e fopt (get_or_None config fopt)))
  /\ add_options e config add_opts !! "stop_at_ratio"
     = (if is_None (get_default e "ratio" (get_or_None config "ratio"))
        then add_opts !! "stop_at_ratio"
        else Some (VBool true))
  /\ (forall k,
        k ∉ "stop_at_ratio" :: map snd options ->
        add_options e config add_opts !! k = add_opts !! k).
Proof.
  unfold add_options, add_options_of, options. cbn [foldl map snd].
  split; [| split].
  - intros fopt dopt Hin.
    apply elem_of_cons in Hin as [Hin | Hin].
    { injection Hin as -> ->. through_options. reflexivity. }
    repeat (apply elem_of_cons in Hin as [Hin | Hin];
            [injection Hin as -> ->; through_options; reflexivity |]).
    now apply elem_of_nil in Hin.
  - through_options. reflexivity.
  - intros k Hk.
    repeat (apply not_elem_of_cons in Hk as [? Hk]).
    through_options. reflexivity.
Qed.

Lemma prepared_union config :
  OutputDeluge_prepare_config config = given config ∪ output_defaults.
Proof.
  destruct config as [b | c]; [| apply OutputDeluge_prepare_config_union].
  apply (OutputDeluge_prepare_config_union {["enabled" := VBool b]}).
Qed.

Lemma get_default_prepared config k default :
  get_default (OutputDeluge_prepare_config config) k default
  = get_default (given config) k (get_default output_defaults k default).
Proof.
  unfold get_default. rewrite prepared_union, lookup_union.
  now destruct (given config !! k), (output_defaults !! k).
Qed.

Lemma modify_opts_lookup (e : entry) (config : gmap string value) :
  modify_opts e config !! "hide_sparse_files"
  = Some (get_default e "hide_sparse_files"
            (get_default config "hide_sparse_files" (VBool true)))
  /\ modify_opts e config !! "keep_subs"
     = Some (get_default e "keep_subs"
               (get_default config "keep_subs" (VBool true)))
  /\ modify_opts e config !! "main_file_ratio"
     = Some (get_default e "main_file_ratio"
               (get_default config "main_file_ratio" VNone))
  /\ modify_opts e config !! "main_file_only"
     = Some (get_default e "main_file_only"
               (get_default config "main_file_only" (VBool false)))
  /\ modify_opts e config !! "queuetotop"
     = Some (get_default e "queuetotop" (get_default config "queuetotop" VNone))
  /\ modify_opts e config !! "container_directory"
     = Some (get_default config "container_directory" (VStr "")).
Proof. repeat split; reflexivity. Qed.

(** X10. The defaults that reach [modify_opts] in [on_task_output] are those
    of [prepare_config]: an entry and a configuration that do not say
    otherwise give [hide_sparse_files = False] (the [True] of
    [config.get('hide_sparse_files', True)] is never used), [keep_subs =
    True] and [main_file_ratio = 0.90]; [main_file_only], which
    [prepare_config] does not set, defaults to [False] and [queuetotop] to
    [None].  In each case the entry goes before the configuration. *)
Theorem prepared_defaults_reach_modify_opts
    (e : entry) (config : bool + gmap string value) :
  let from k default :=
    Some (get_default e k (get_default (given config) k default)) in
  let m := modify_opts e (OutputDeluge_prepare_config config) in
  m !! "hide_sparse_files" = from "hide_sparse_files" (VBool false)
  /\ m !! "keep_subs" = from "keep_subs" (VBool true)
  /\ m !! "main_file_ratio" = from "main_file_ratio" (VFloat ninety_percent)
  /\ m !! "main_file_only" = from "main_file_only" (VBool false)
  /\ m !! "queuetotop" = from "queuetotop" VNone
  /\ m !! "container_directory"
     = Some (get_default (given config) "container_directory" (VStr "")).
Proof.
  cbv zeta.
  destruct (modify_opts_lookup e (OutputDeluge_prepare_config config))
    as (-> & -> & -> & -> & -> & ->).
  rewrite !get_default_prepared. repeat split; reflexivity.
Qed.


(** ** The order of the keys of a torrent dict *)

(** A field is written by a key of the dict, or by none. *)
Lemma field_written_or_not (d : list (string * value)) (y : string) :
  all_mapped d ->
  (exists key v k v',
      (key, v) ∈ d /\ lookup_flexget_key key = Ok k
      /\ formatted k v = Ok v' /\ field_name k = y)
  \/ (forall key v k,
        (key, v) ∈ d -> lookup_flexget_key key = Ok k -> field_name k <> y).
Proof.
  induction d as [|[key v] d IH]; intros Hall.
  - right. intros key v k Hin. now apply elem_of_nil in Hin.
  - apply Forall_cons in Hall as [(k & v' & Hk & Hv) Hall].
    cbn [fst snd] in Hk, Hv.
    destruct (decide (field_name k = y)) as [Hy | Hy].
    + left. exists key, v, k, v'. repeat split; try assumption. left.
    + destruct (IH Hall) as [(key1 & v1 & k1 & v1' & Hin & H1 & H2 & H3) | Hno].
      * left. exists key1, v1, k1, v1'. repeat split; try assumption.
        now right.
      * right. intros key2 v2 k2 Hin Hk2.
        apply elem_of_cons in Hin as [[= -> ->] | Hin].
        -- rewrite Hk in Hk2. now injection Hk2 as <-.
        -- now apply (Hno key2 v2).
Qed.

(** The loop over the keys gives the same entry for the items of the dict
    in any order. *)
Lemma set_fields_permutation (e : entry) (d d' : list (string * value)) :
  d ≡ₚ d' -> all_mapped d -> NoDup (map fst d) ->
  set_fields e d = set_fields e d'.
Proof.
  intros Hperm Hall Hnd.
  assert (Hall' : all_mapped d').
  { unfold all_mapped in *. now rewrite <- Hperm. }
  assert (Hnd' : NoDup (map fst d')).
  { change (NoDup (fst <$> d')). now rewrite <- Hperm. }
  destruct (set_fields_succeeds d e Hall) as [e1 H1].
  destruct (set_fields_succeeds d' e Hall') as [e2 H2].
  rewrite H1, H2. f_equal. apply map_eq. intros y.
  destruct (field_written_or_not d y Hall)
    as [(key & v & k & v' & Hin & Hk & Hv & <-) | Hno].
  - rewrite (set_fields_sets d e e1 key v k v' Hnd H1 Hin Hk Hv).
    symmetry. apply (set_fields_sets d' e e2 key v k v' Hnd' H2); try assumption.
    now rewrite <- Hperm.
  - rewrite (set_fields_frame d e e1 y H1 Hno).
    symmetry. apply (set_fields_frame d' e e2 y H2).
    intros key v k Hin. apply (Hno key v). now rewrite Hperm.
Qed.

(** X11. [generate_entries] does not depend on the order in which the
    daemon lists the keys of a torrent: when every key of every torrent dict
    is mapped (with a value its format function accepts), the warnings and
    the entries are the same for the same torrents with the items of their
    dicts in any other order. *)
Theorem generate_entries_ignores_the_order_of_keys
    isfile expanduser config_path
    (torrents torrents' : list (string * list (string * value))) :
  Forall2 (fun t t' => fst t = fst t' /\ snd t ≡ₚ snd t') torrents torrents' ->
  Forall (fun t => all_mapped (snd t) /\ NoDup (map fst (snd t))) torrents ->
  generate_entries isfile expanduser config_path torrents
  = generate_entries isfile expanduser config_path torrents'.
Proof.
  induction 1 as [|[hash d] [hash' d'] torrents torrents' [Hh Hp] _ IH];
    intros Hall; [reflexivity |].
  cbn [fst snd] in Hh, Hp. subst hash'.
  apply Forall_cons in Hall as [[Hm Hnd] Hall]. cbn [snd] in Hm, Hnd.
  rewrite !generate_entries_cons, (IH Hall).
  destruct (locate isfile expanduser config_path hash
              (<["url" := VStr ""]> {["deluge_id" := VStr hash]}))
    as [logs [e0|ex]]; [| reflexivity].
  cbn [bind lift]. now rewrite (set_fields_permutation e0 d d' Hp Hm Hnd).
Qed.

(** ** [_set_torrent_options]: the files that are downloaded *)

Section Files.

Variable file : Type.
Variable file_eq : file -> file -> bool.
Variable big is_sub : file -> bool.

(** X12. When only the main file is downloaded, every file of the torrent
    is either given priority 1 or listed among the sparse files that are
    hidden, never both: the sparse files are the files of priority 0, in
    their order.  The main file, the first file that is big enough, is a
    file of the torrent and has priority 1 (equality of files being
    reflexive), so something is downloaded. *)
Theorem main_file_only_partitions_the_files
    (files : list file) (keep_subs : bool) (main : file) :
  (forall f, file_eq f f = true) ->
  main_file file big files = Some main ->
  let sub := sub_file file is_sub keep_subs files in
  let priorities := file_priorities file file_eq files main sub keep_subs in
  length priorities = length files
  /\ sparse_files file file_eq files main sub keep_subs
     = map fst (List.filter (fun fp => Z.eqb (snd fp) 0)
                            (combine files priorities))
  /\ big main = true
  /\ In (main, 1) (combine files priorities).
Proof.
  intros Hrefl Hmain. cbv zeta.
  generalize (sub_file file is_sub keep_subs files). intros sub.
  unfold file_priorities, sparse_files.
  split; [apply length_map |]. split; [| split].
  - clear Hmain. induction files as [|f files IH]; [reflexivity |].
    cbn [List.filter map combine]. rewrite IH.
    now destruct (file_eq f main), (is_sub_file file file_eq f sub), keep_subs.
  - unfold main_file in Hmain. now apply find_some in Hmain.
  - unfold main_file in Hmain. apply find_some in Hmain as [Hin _].
    clear - Hin Hrefl. induction files as [|f files IH]; [contradiction |].
    cbn [map combine]. destruct Hin as [-> | Hin].
    + left. now rewrite Hrefl.
    + right. now apply IH.
Qed.

End Files.

Lemma main_file_only_partitions_the_files_witness :
  sparse_files string String.eqb ["a.nfo"; "movie.mkv"; "movie.srt"]
    "movie.mkv" (Some "movie.srt") true
  = ["a.nfo"].
Proof.
  destruct (main_file_only_partitions_the_files string String.eqb
              (fun f => String.eqb f "movie.mkv")
              (fun f => String.eqb f "movie.srt")
              ["a.nfo"; "movie.mkv"; "movie.srt"] true "movie.mkv"
              String.eqb_refl eq_refl) as (_ & Hsparse & _).
  exact Hsparse.
Defined.

Lemma generate_entries_ignores_the_order_of_keys_witness :
  generate_entries (fun _ => false) (fun path => path) ""
    [("2f1d", [("name", VStr "ubuntu.iso"); ("ratio", VInt 2)])]
  = generate_entries (fun _ => false) (fun path => path) ""
      [("2f1d", [("ratio", VInt 2); ("name", VStr "ubuntu.iso")])].
Proof.
  apply generate_entries_ignores_the_order_of_keys.
  - apply List.Forall2_cons; [| apply List.Forall2_nil].
    split; [reflexivity | apply Permutation_swap].
  - apply List.Forall_cons; [| apply List.Forall_nil]. split.
    + apply List.Forall_cons; [| apply List.Forall_cons; [| apply List.Forall_nil]].
      * exists (Name "title"), (VStr "ubuntu.iso"). split; reflexivity.
      * exists (Name "deluge_ratio"), (VInt 2). split; reflexivity.
    + apply (bool_decide_unpack _). vm_compute. exact I.
Defined.

End Deluge_more_properties.

(* ===================================================================== *)
(** * Properties of the user data lookups of trakt *)
(* ===================================================================== *)

Module Trakt_more_properties.

Import Trakt TraktUserData LazyEntry.

Section Lookups.

Variable media : Type.
Variable update_using_map : field_map media -> media -> entry -> M entry.
Variable get_series get_season get_episode get_movie : entry -> M media.
Variable lookup_map : string -> string -> option (media -> value -> M value).

#[local] Abbreviation getter_map :=
  (Trakt.getter_map media get_series get_season get_episode get_movie).
#[local] Abbreviation lazy_lookup :=
  (Trakt.lazy_lookup media update_using_map get_series get_season get_episode
     get_movie).
#[local] Abbreviation lazy_user_data_lookup :=
  (Trakt.lazy_user_data_lookup media get_series get_season get_episode
     get_movie lookup_map).
#[local] Abbreviation user_data_lookup :=
  (TraktUserData.user_data_lookup media get_series get_season get_episode
     get_movie lookup_map).

(** X13. [lazy_lookup] does what the [TraktLookup] of the same getter and
    mapping does: for a media type of [getter_map] the two agree on every
    entry (same log, same result, same exception), and for any other media
    type [lazy_lookup] calls no getter, logs the [KeyError] at debug level
    and returns the entry as it is. *)
Theorem lazy_lookup_is_TraktLookup (e : entry) (media_type : string)
    (mapping : field_map media) :
  lazy_lookup e media_type mapping
  = match getter_map media_type with
    | Some getter =>
        TraktLookup_call media update_using_map
          {| tl_field_map := mapping; tl_lookup_function := getter |} e
    | None => ([Log DEBUG ("'" +:+ media_type +:+ "'")], Ok e)
    end.
Proof.
  unfold Trakt.lazy_lookup, TraktLookup_call, try_except_else.
  destruct (getter_map media_type) as [getter|]; cbn [subscript bind ret raise
    tl_lookup_function tl_field_map].
  - destruct (getter e) as [logs [m|ex]]; reflexivity.
  - reflexivity.
Qed.

(** [lazy_user_data_lookup] raises no [LookupError]: the first handler turns
    a [KeyError] into a [PluginError], the second one returns [None]. *)
Lemma lazy_user_data_lookup_not_LookupError data_type media_type e logs ex :
  lazy_user_data_lookup data_type media_type e = (logs, Raise ex) ->
  is_LookupError ex = false.
Proof.
  unfold Trakt.lazy_user_data_lookup, try_except_else.
  destruct (getter_map media_type) as [getter|];
    cbn [subscript bind ret raise is_KeyError exn_class_of];
    [| now intros [= <- <-]].
  destruct (lookup_map data_type media_type) as [udl|];
    cbn [subscript bind ret raise is_KeyError exn_class_of app];
    [| now intros [= <- <-]].
  destruct (getter e) as [l1 [m|ex1]]; cbn [bind].
  - destruct (e !! "title") as [t|]; cbn [subscript bind ret raise app
      is_LookupError exn_class_of].
    + destruct (udl m t) as [l2 [v|ex2]]; [discriminate |].
      destruct (is_LookupError ex2) eqn:H2; [discriminate |].
      now intros [= <- <-].
    + discriminate.
  - destruct (is_LookupError ex1) eqn:H1; [discriminate |].
    now intros [= <- <-].
Qed.

(** X14. The handler of [TraktUserDataLookup.__call__] is never entered for
    the lookups of user data that the plugin registers:
    [lazy_user_data_lookup] catches every [LookupError] itself and returns
    [None].  So whenever the call of such a lookup returns, the field is
    set, to [None] after a lookup that failed; the log and the exceptions
    are those of [lazy_user_data_lookup]. *)
Theorem user_data_lookup_always_sets_the_field
    (field_name data_type media_type : string) (e : entry) :
  TraktUserDataLookup_call (user_data_lookup field_name data_type media_type) e
  = let* result := lazy_user_data_lookup data_type media_type e in
    ret (<[field_name := result]> e).
Proof.
  unfold TraktUserDataLookup_call, try_except_else, bind.
  cbn [ud_lookup_function ud_data_type ud_media_type ud_field_name
       TraktUserData.user_data_lookup].
  destruct (lazy_user_data_lookup data_type media_type e) as [logs [v|ex]] eqn:H;
    [reflexivity |].
  now rewrite (lazy_user_data_lookup_not_LookupError _ _ _ _ _ H).
Qed.

(** ** The names of the fields of user data *)

Lemma field_name_cases data_type media_type name :
  get_user_data_field_name data_type media_type = Ok name ->
  (data_type = "collected" /\ name = "trakt_collected")
  \/ (data_type = "watched" /\ name = "trakt_watched")
  \/ (data_type = "ratings"
      /\ (media_type, name)
         ∈ [ ("show", "trakt_series_user_rating");
             ("season", "trakt_season_user_rating");
             ("episode", "trakt_ep_user_rating");
             ("movie", "trakt_movie_user_rating") ]).
Proof.
  unfold get_user_data_field_name, user_data_map. cbn [dict_get].
  destruct (String.eqb_spec data_type "collected") as [-> | _];
    [cbv beta iota; intros [= <-]; now left |].
  destruct (String.eqb_spec data_type "watched") as [-> | _];
    [cbv beta iota; intros [= <-]; right; now left |].
  destruct (String.eqb_spec data_type "ratings") as [-> | _];
    [| cbv beta iota; discriminate].
  cbv beta iota. cbn [dict_get]. intros H. right; right. split; [reflexivity |]. revert H.
  destruct (String.eqb_spec media_type "show") as [-> | _];
    [cbv beta iota; intros [= <-]; repeat constructor |].
  destruct (String.eqb_spec media_type "season") as [-> | _];
    [cbv beta iota; intros [= <-]; repeat constructor |].
  destruct (String.eqb_spec media_type "episode") as [-> | _];
    [cbv beta iota; intros [= <-]; repeat constructor |].
  destruct (String.eqb_spec media_type "movie") as [-> | _];
    [cbv beta iota; intros [= <-]; repeat constructor | cbv beta iota; discriminate].
Qed.

(** ** The registration of the lookups of user data *)

(** The registration for a media type that is given. *)
Lemma register_given media_type_from_entry data_type media_type name r :
  media_type <> "" ->
  get_user_data_field_name data_type media_type = Ok name ->
  register_lazy_user_data_lookup media get_series get_season get_episode
    get_movie lookup_map media_type_from_entry data_type (Some media_type) r
  = Ok (register_lazy_func
          (TraktUserDataLookup_call (user_data_lookup name data_type media_type))
          [name] r).
Proof.
  intros Hne Hname. unfold register_lazy_user_data_lookup, not_given.
  destruct (String.eqb_spec media_type "") as [-> | _]; [congruence |].
  cbn [result_bind]. now rewrite Hname.
Qed.

(** What [lazy_user_data_lookup] gives when the getter finds the media and
    the entry has a title. *)
Lemma lazy_user_data_lookup_found data_type media_type e getter udl l1 m t l2 v :
  getter_map media_type = Some getter ->
  lookup_map data_type media_type = Some udl ->
  getter e = (l1, Ok m) ->
  e !! "title" = Some t ->
  udl m t = (l2, Ok v) ->
  lazy_user_data_lookup data_type media_type e = (l1 ++ l2, Ok v).
Proof.
  intros Hg Hu Hm Ht Hv. unfold Trakt.lazy_user_data_lookup, try_except_else.
  rewrite Hg, Hu. cbn [subscript bind ret app]. rewrite Hm, Ht.
  cbn [subscript bind ret app]. rewrite Hv.
  now rewrite !app_nil_r.
Qed.

(** X15. The media type that [__get_media_type_from_entry] finds for an
    entry is one that the plugin can serve: [getter_map] has a getter for it
    and every data type of [user_data_map] has a field name for it, so the
    registration of a lookup of user data without a media type succeeds and
    registers a pending lookup for that field.  The media type is found as
    soon as the entry has a ['series_season'], is a show or is a movie. *)
Theorem media_type_of_entry_is_served
    (has_season has_episode is_show is_movie : bool) (title : option value)
    (media_type data_type : string) (r : lazy_entry) :
  get_media_type_from_entry has_season has_episode is_show is_movie title
  = Ok media_type ->
  data_type ∈ data_types ->
  has_season || is_show || is_movie = true
  /\ is_Some (getter_map media_type)
  /\ exists name,
       get_user_data_field_name data_type media_type = Ok name
       /\ register_lazy_user_data_lookup media get_series get_season
            get_episode get_movie lookup_map
            (get_media_type_from_entry has_season has_episode is_show is_movie
               title)
            data_type None r
          = Ok (register_lazy_func
                  (TraktUserDataLookup_call
                     (user_data_lookup name data_type media_type))
                  [name] r).
Proof.
  intros Hmt Hdt.
  assert (Hcases : has_season || is_show || is_movie = true
                   /\ media_type ∈ media_types).
  { revert Hmt. unfold get_media_type_from_entry, media_types.
    destruct has_season, has_episode, is_show, is_movie, title;
      cbn; intros [= <-]; split; try reflexivity; repeat constructor. }
  destruct Hcases as [Hsome Hin]. split; [exact Hsome |].
  unfold register_lazy_user_data_lookup. rewrite Hmt. cbn [result_bind].
  unfold data_types, media_types in *. set_unfold.
  destruct Hin as [-> | [-> | [-> | [-> | []]]]];
    (split; [now eexists |]);
    destruct Hdt as [-> | [-> | [-> | []]]];
    eexists; split; reflexivity.
Qed.

(** The ratings registered on a fresh record. *)
Lemma ratings_registered media_type_from_entry is_show e :
  register_lazy_user_ratings_lookup media get_series get_season get_episode
    get_movie lookup_map media_type_from_entry is_show (of_fields e)
  = Ok (foldl (fun r mt_name =>
                 register_lazy_func
                   (TraktUserDataLookup_call
                      (user_data_lookup (snd mt_name) "ratings" (fst mt_name)))
                   [snd mt_name] r)
              (of_fields e)
              (if is_show
               then [ ("show", "trakt_series_user_rating");
                      ("season", "trakt_season_user_rating");
                      ("episode", "trakt_ep_user_rating") ]
               else [ ("movie", "trakt_movie_user_rating") ])).
Proof.
  unfold register_lazy_user_ratings_lookup. destruct is_show.
  - rewrite (register_given _ "ratings" "show" "trakt_series_user_rating")
      by (discriminate || reflexivity).
    cbn [result_bind].
    rewrite (register_given _ "ratings" "season" "trakt_season_user_rating")
      by (discriminate || reflexivity).
    cbn [result_bind].
    now rewrite (register_given _ "ratings" "episode" "trakt_ep_user_rating")
      by (discriminate || reflexivity).
  - now rewrite (register_given _ "ratings" "movie" "trakt_movie_user_rating")
      by (discriminate || reflexivity).
Qed.

(** X16. [__register_lazy_user_ratings_lookup] never fails and looks
    nothing up: on a fresh entry it registers the rating of the show, of the
    season and of the episode for a show, and the rating of the movie
    otherwise.  The first read of such a field that is not materialized
    makes one call of the getter of its media type and one call of the
    lookup of ratings of the API client, with the media found and the title
    of the entry, and the field is set to what the client answers. *)
Theorem rating_is_looked_up_on_first_read
    (media_type_from_entry : result string) (is_show : bool) (e : entry)
    (media_type name : string) (getter : entry -> M media)
    (udl : media -> value -> M value) (t : value) (m : media)
    (l1 l2 : list log_record) (v : value) :
  media_type ∈ (if is_show then ["show"; "season"; "episode"] else ["movie"]) ->
  get_user_data_field_name "ratings" media_type = Ok name ->
  e !! name = None ->
  e !! "title" = Some t ->
  getter_map media_type = Some getter ->
  getter e = (l1, Ok m) ->
  lookup_map "ratings" media_type = Some udl ->
  udl m t = (l2, Ok v) ->
  exists r,
    register_lazy_user_ratings_lookup media get_series get_season get_episode
      get_movie lookup_map media_type_from_entry is_show (of_fields e) = Ok r
    /\ fields r = e /\ invoked r = [] /\ observed r = []
    /\ exists r',
         get name None r = (Ok v, r')
         /\ fields r' = <[name := v]> e
         /\ length (invoked r') = 1%nat
         /\ observed r' = l1 ++ l2.
Proof.
  intros Hmt Hname He Ht Hg Hm Hu Hv.
  eexists. split; [apply ratings_registered |].
  pose proof (lazy_user_data_lookup_found "ratings" media_type e getter udl
                l1 m t l2 v Hg Hu Hm Ht Hv) as Hfound.
  assert (Hcall : TraktUserDataLookup_call
                    (user_data_lookup name "ratings" media_type) e
                  = (l1 ++ l2, Ok (<[name := v]> e))).
  { unfold TraktUserDataLookup_call, try_except_else.
    cbn [ud_lookup_function ud_data_type ud_media_type ud_field_name
         TraktUserData.user_data_lookup].
    rewrite Hfound. cbn [ret]. now rewrite app_nil_r. }
  destruct is_show; set_unfold.
  - destruct Hmt as [-> | [-> | [-> | []]]]; injection Hname as <-;
      cbn [foldl fst snd]; (split; [reflexivity |]); (split; [reflexivity |]);
      (split; [reflexivity |]);
      unfold get, register_lazy_func, of_fields;
      cbn [fields covering bindings invoked observed foldr app length];
      rewrite He;
      (rewrite lookup_insert_eq
       || (rewrite lookup_insert_ne by discriminate;
           (rewrite lookup_insert_eq
            || (rewrite lookup_insert_ne by discriminate;
                rewrite lookup_insert_eq))));
      unfold evaluate;
      cbn [fields covering bindings invoked observed lookup list_lookup
           b_state b_func];
      rewrite Hcall; cbn [fields]; rewrite lookup_insert_eq;
      cbn [value_or_default invoked observed app length];
      eexists; (repeat split; reflexivity).
  - destruct Hmt as [-> | []]; injection Hname as <-;
      cbn [foldl fst snd]; (split; [reflexivity |]); (split; [reflexivity |]);
      (split; [reflexivity |]);
      unfold get, register_lazy_func, of_fields;
      cbn [fields covering bindings invoked observed foldr app length];
      rewrite He, lookup_insert_eq;
      unfold evaluate;
      cbn [fields covering bindings invoked observed lookup list_lookup
           b_state b_func];
      rewrite Hcall; cbn [fields]; rewrite lookup_insert_eq;
      cbn [value_or_default invoked observed app length];
      eexists; (repeat split; reflexivity).
Qed.

End Lookups.

Section Maps.

Variable media : Type.
Variable update_using_map : field_map media -> media -> entry -> M entry.
Variable get_series get_season get_episode get_movie : entry -> M media.
Variable genre_names imdb_url series_url episode_titles actors ep_id
  : media -> result value.
Variable translations : string -> media -> result value.

(** X17. Every field of user data has a name of its own: two calls of
    [__get_user_data_field_name] that give the same name were made for the
    same data type and, for ratings, for the same media type; and the name
    is a key of none of the eight field maps of the plugin, so that a lookup
    of user data and a lookup of a show, a season, an episode or a movie
    never write the same field. *)
Theorem user_data_fields_are_distinct
    (data_type media_type : string) (name : string) :
  get_user_data_field_name data_type media_type = Ok name ->
  (forall data_type' media_type',
      get_user_data_field_name data_type' media_type' = Ok name ->
      data_type' = data_type
      /\ (data_type = "ratings" -> media_type' = media_type))
  /\ Forall (fun m => name ∉ keys media m)
       [ series_map media genre_names imdb_url series_url episode_titles;
         series_actor_map media actors;
         show_translate_map media translations;
         episode_map media ep_id;
         season_map media;
         movie_map media genre_names;
         movie_translate_map media translations;
         movie_actor_map media actors ].
Proof.
  intros H. apply field_name_cases in H. split.
  - intros data_type' media_type' H'. apply field_name_cases in H'.
    set_unfold.
    destruct H as [[? ?] | [[? ?] | [? [H | [H | [H | [H | []]]]]]]];
      destruct H' as [[? ?] | [[? ?] | [? [H' | [H' | [H' | [H' | []]]]]]]];
      simplify_eq; now split.
  - set_unfold.
    destruct H as [[? ?] | [[? ?] | [? [H | [H | [H | [H | []]]]]]]];
      simplify_eq; apply (bool_decide_unpack _); vm_compute; exact I.
Qed.

(** The read of ['movie_name'] on a fresh record with the lookups of a
    movie invokes the first of them, the lookup of the movie. *)
Lemma movie_name_is_covered (is_episode is_season : bool) (e : entry)
    (default : option value) :
  e !! "movie_name" = None ->
  invoked
    (snd (get "movie_name" default
            (register_lookups media update_using_map get_series get_season
               get_episode get_movie genre_names imdb_url series_url
               episode_titles actors ep_id translations
               false is_episode is_season (of_fields e))))
  = [0%nat].
Proof.
  intros He.
  unfold register_lookups, register_lookup, get, register_lazy_func, of_fields.
  cbn [fields covering bindings invoked observed length app foldr keys map
       fst movie_map movie_actor_map movie_translate_map].
  rewrite He.
  rewrite !(lookup_insert_ne _ _ "movie_name") by discriminate.
  rewrite lookup_insert_eq. unfold evaluate.
  cbn [bindings invoked lookup list_lookup b_state b_func fields].
  now destruct (TraktLookup_call _ _ _ _) as [logs [e'|ex]].
Qed.

(** X18. The registrations of [TraktLookup]s that the loop body of
    [on_task_metainfo] makes for one entry, given the outcomes of the tests
    of the entry, look nothing up themselves and leave the fields of the
    entry as they are: they add three or four pending lookups (for a show:
    the series, its actors, its translations, and the episode or the season
    if the entry is one; otherwise the movie, its actors and its
    translations), and no field is covered by two of them.  A read of
    ['movie_name'] that follows on a record of a movie, as
    [__entry_is_movie] makes one, is what invokes the lookup of the movie
    just registered. *)
Theorem each_field_has_one_lookup (is_show is_episode is_season : bool)
    (r : lazy_entry) :
  let r' :=
    register_lookups media update_using_map get_series get_season get_episode
      get_movie genre_names imdb_url series_url episode_titles actors ep_id
      translations is_show is_episode is_season r in
  fields r' = fields r /\ invoked r' = invoked r /\ observed r' = observed r
  /\ (exists new,
       bindings r' = bindings r ++ new
       /\ length new
          = (if is_show && (is_episode || is_season) then 4 else 3)%nat
       /\ Forall (fun b => b_state b = Pending) new
       /\ NoDup (concat (map b_fields new)))
  /\ (forall (e : entry) (default : option value),
        e !! "movie_name" = None ->
        invoked
          (snd (get "movie_name" default
                  (register_lookups media update_using_map get_series
                     get_season get_episode get_movie genre_names imdb_url
                     series_url episode_titles actors ep_id translations
                     false is_episode is_season (of_fields e))))
        = [0%nat]).
Proof.
  cbv zeta.
  split; [| split; [| split; [| split]]];
    [now destruct is_show, is_episode, is_season ..| |].
  - destruct is_show, is_episode, is_season;
      unfold register_lookups, register_lookup, register_lazy_func;
      cbn [fields invoked observed bindings andb orb];
      rewrite <- ?app_assoc; cbn [app];
      (eexists; split; [reflexivity |]);
      (split; [reflexivity |]);
      (split; [repeat constructor |]);
      cbn [map b_fields concat];
      apply (bool_decide_unpack _); vm_compute; exact I.
  - intros e default. apply movie_name_is_covered.
Qed.

End Maps.

Lemma user_data_fields_are_distinct_witness :
  get_user_data_field_name "ratings" "episode" = Ok "trakt_ep_user_rating"
  /\ (forall data_type' media_type',
         get_user_data_field_name data_type' media_type'
         = Ok "trakt_ep_user_rating" ->
         data_type' = "ratings"
         /\ ("ratings" = "ratings" -> media_type' = "episode"))
  /\ Forall (fun m => "trakt_ep_user_rating" ∉ keys value m)
       [ series_map value (fun _ => Ok VNone) (fun _ => Ok VNone)
           (fun _ => Ok VNone) (fun _ => Ok VNone);
         series_actor_map value (fun _ => Ok VNone);
         show_translate_map value (fun _ _ => Ok VNone);
         episode_map value (fun _ => Ok VNone);
         season_map value;
         movie_map value (fun _ => Ok VNone);
         movie_translate_map value (fun _ _ => Ok VNone);
         movie_actor_map value (fun _ => Ok VNone) ].
Proof.
  split; [reflexivity |].
  exact (user_data_fields_are_distinct value
           (fun _ => Ok VNone) (fun _ => Ok VNone) (fun _ => Ok VNone)
           (fun _ => Ok VNone) (fun _ => Ok VNone) (fun _ => Ok VNone)
           (fun _ _ => Ok VNone)
           "ratings" "episode" "trakt_ep_user_rating" eq_refl).
Defined.

Lemma media_type_of_entry_is_served_witness :
  get_media_type_from_entry true true false false None = Ok "episode"
  /\ "collected" ∈ data_types
  /\ exists name, get_user_data_field_name "collected" "episode" = Ok name.
Proof.
  assert (Hin : "collected" ∈ data_types) by repeat constructor.
  split; [reflexivity |]. split; [exact Hin |].
  destruct (media_type_of_entry_is_served value
              (fun _ => ret VNone) (fun _ => ret VNone) (fun _ => ret VNone)
              (fun _ => ret VNone) (fun _ _ => None)
              true true false false None "episode" "collected" (of_fields ∅)
              eq_refl Hin) as (_ & _ & name & Hname & _).
  exists name. exact Hname.
Defined.

Lemma rating_is_looked_up_on_first_read_witness :
  exists r r',
    register_lazy_user_ratings_lookup value
      (fun _ => ret (VStr "the show")) (fun _ => ret VNone)
      (fun _ => ret VNone) (fun _ => ret VNone)
      (fun _ _ => Some (fun _ _ => ret (VInt 8)))
      (Raise (Exn PluginError "Unknown media type in entry %s")) true
      (of_fields {["title" := VStr "Show S01E01"]}) = Ok r
    /\ get "trakt_series_user_rating" None r = (Ok (VInt 8), r').
Proof.
  destruct (rating_is_looked_up_on_first_read value
              (fun _ => ret (VStr "the show")) (fun _ => ret VNone)
              (fun _ => ret VNone) (fun _ => ret VNone)
              (fun _ _ => Some (fun _ _ => ret (VInt 8)))
              (Raise (Exn PluginError "Unknown media type in entry %s")) true
              {["title" := VStr "Show S01E01"]}
              "show" "trakt_series_user_rating"
              (fun _ => ret (VStr "the show")) (fun _ _ => ret (VInt 8))
              (VStr "Show S01E01") (VStr "the show") [] [] (VInt 8)
              ltac:(repeat constructor) eq_refl eq_refl eq_refl eq_refl
              eq_refl eq_refl eq_refl)
    as (r & Hr & _ & _ & _ & r' & Hget & _).
  exists r, r'. split; [exact Hr | exact Hget].
Defined.

End Trakt_more_properties.

(* ===================================================================== *)
(** * Properties of the upgrade and of the instances of the store *)
(* ===================================================================== *)

Module Persistence_more_properties.

Import Persistence Upgrade.

(** ** Filters *)

Lemma filter_filter_and {A} (P Q : A -> Prop)
    `{!forall x, Decision (P x)} `{!forall x, Decision (Q x)} (l : list A) :
  filter P (filter Q l) = filter (fun x => Q x /\ P x) l.
Proof.
  induction l as [|x l IH]; [reflexivity |].
  destruct (decide (Q x)) as [HQ | HQ].
  - rewrite (filter_cons_True Q) by assumption.
    destruct (decide (P x)) as [HP | HP].
    + rewrite (filter_cons_True P) by assumption.
      rewrite (filter_cons_True (fun x => Q x /\ P x)) by tauto.
      now rewrite IH.
    + rewrite (filter_cons_False P) by assumption.
      now rewrite (filter_cons_False (fun x => Q x /\ P x)) by tauto.
  - rewrite (filter_cons_False Q) by assumption.
    now rewrite (filter_cons_False (fun x => Q x /\ P x)) by tauto.
Qed.

Lemma filter_ext_in {A} (P Q : A -> Prop)
    `{!forall x, Decision (P x)} `{!forall x, Decision (Q x)} (l : list A) :
  (forall x, x ∈ l -> P x <-> Q x) -> filter P l = filter Q l.
Proof.
  induction l as [|x l IH]; intros Hext; [reflexivity |].
  assert (Hx : P x <-> Q x) by (apply Hext; left).
  assert (Hl : filter P l = filter Q l).
  { apply IH. intros y Hy. apply Hext. now right. }
  destruct (decide (P x)) as [HP | HP].
  - rewrite (filter_cons_True P), (filter_cons_True Q) by tauto.
    now rewrite Hl.
  - now rewrite (filter_cons_False P), (filter_cons_False Q) by tauto.
Qed.

Lemma NoDup_map_injective {A B} (f : A -> B) (l : list A) x y :
  NoDup (map f l) -> x ∈ l -> y ∈ l -> f x = f y -> x = y.
Proof.
  induction l as [|a l IH]; intros Hnd Hx Hy Hf; [now apply elem_of_nil in Hx |].
  cbn [map] in Hnd. apply NoDup_cons in Hnd as [Ha Hnd].
  apply elem_of_cons in Hx as [-> | Hx]; apply elem_of_cons in Hy as [-> | Hy].
  - reflexivity.
  - exfalso. apply Ha. rewrite Hf. now apply (list_elem_of_fmap_2 f).
  - exfalso. apply Ha. rewrite <- Hf. now apply (list_elem_of_fmap_2 f).
  - now apply IH.
Qed.

Section Loads.

Variable loads : string -> result value.

#[local] Abbreviation loadable := (Upgrade.loadable loads).
#[local] Abbreviation unloadable_ids := (Upgrade.unloadable_ids loads).
#[local] Abbreviation warning_of := (Upgrade.warning_of loads).
#[local] Abbreviation remove_unloadable := (Upgrade.remove_unloadable loads).
#[local] Abbreviation upgrade := (Upgrade.upgrade loads).

(** What the loop leaves: the rows whose id is not the id of a selected
    row that cannot be loaded, and one warning for each such row. *)
Lemma remove_unloadable_spec selected : forall s,
  rows (remove_unloadable selected s)
  = filter (fun r => row_id r ∉ unloadable_ids selected) (rows s)
  /\ indexes (remove_unloadable selected s) = indexes s
  /\ records (remove_unloadable selected s)
     = records s ++ flat_map warning_of selected.
Proof.
  induction selected as [|row rest IH]; intros s.
  - cbn [Upgrade.remove_unloadable flat_map]. rewrite app_nil_r.
    split; [| now split].
    symmetry. transitivity (filter (fun _ : raw_row => True) (rows s)).
    + apply list_filter_iff. intros r. split; [easy |].
      intros _ Hin. now apply elem_of_nil in Hin.
    + induction (rows s) as [|r l IHl]; [reflexivity |].
      rewrite filter_cons_True by exact I. now rewrite IHl.
  - cbn [Upgrade.remove_unloadable flat_map].
    unfold Upgrade.unloadable_ids, Upgrade.warning_of at 1.
    destruct (loads (row_value row)) as [v|e] eqn:Hload.
    + rewrite filter_cons_False
        by (unfold Upgrade.loadable; rewrite Hload; intros H; now apply H).
      apply IH.
    + rewrite filter_cons_True
        by (unfold Upgrade.loadable; now rewrite Hload).
      destruct (IH (Session (delete_where_id (row_id row) (rows s))
                            (indexes s)
                            (records s ++ [Log WARNING (couldnt_load row e)])))
        as (Hrows & Hidx & Hrec).
      rewrite Hrows, Hidx, Hrec. cbn [rows indexes records map].
      split; [| split; [reflexivity | now rewrite <- app_assoc]].
      unfold delete_where_id. rewrite filter_filter_and.
      apply list_filter_iff. intros r. rewrite not_elem_of_cons.
      fold (unloadable_ids rest). tauto.
Qed.

(** A row that is left can be loaded. *)
Lemma left_rows_loadable (table : list raw_row) (r : raw_row) :
  r ∈ filter (fun r => row_id r ∉ unloadable_ids table) table -> loadable r.
Proof.
  intros Hr. apply list_elem_of_filter in Hr as [Hid Hin].
  destruct (loads (row_value r)) as [v|e] eqn:Hload;
    [unfold Upgrade.loadable; now rewrite Hload |].
  exfalso. apply Hid. unfold Upgrade.unloadable_ids.
  apply (list_elem_of_fmap_2 row_id). apply list_elem_of_filter.
  split; [| exact Hin]. unfold Upgrade.loadable. now rewrite Hload.
Qed.

(** X19. [upgrade] brings every older version of the schema to version 2,
    the version of the declarative base, and leaves any other version as it
    is; run again with the version it returned, it does nothing.  From
    version 1 on, the rows of the table are not touched; the index is
    created once, when coming from a version below 2. *)
Theorem upgrade_reaches_version_2 (ver : option Z) (s : session) :
  fst (upgrade ver s)
  = match ver with
    | None => 2
    | Some v => if (v =? 0) || (v =? 1) then 2 else v
    end
  /\ upgrade (Some (fst (upgrade ver s))) (snd (upgrade ver s))
     = upgrade ver s
  /\ (ver <> None -> ver <> Some 0 -> rows (snd (upgrade ver s)) = rows s)
  /\ indexes (snd (upgrade ver s))
     = match ver with
       | None | Some 0 | Some 1 =>
           indexes s ++ [("simple_persistence", ["feed"; "plugin"; "key"])]
       | Some _ => indexes s
       end.
Proof.
  destruct ver as [v|].
  - unfold Upgrade.upgrade.
    destruct (Z.eqb_spec v 0) as [-> | H0].
    + cbn [Z.eqb Pos.eqb orb fst snd Upgrade.create_index rows indexes records].
      destruct (remove_unloadable_spec (rows s) s) as (_ & -> & _).
      repeat split. congruence.
    + destruct (Z.eqb_spec v 1) as [-> | H1].
      * cbn [Z.eqb Pos.eqb orb fst snd Upgrade.create_index rows indexes
             records].
        repeat split.
      * cbn [orb fst snd].
        destruct (Z.eqb_spec v 0) as [-> | _]; [congruence |].
        destruct (Z.eqb_spec v 1) as [-> | _]; [congruence |].
        repeat split.
        destruct v as [|[p|p|]|p]; congruence.
  - unfold Upgrade.upgrade.
    cbn [Z.eqb Pos.eqb orb fst snd Upgrade.create_index rows indexes records].
    destruct (remove_unloadable_spec (rows s) s) as (_ & -> & _).
    repeat split. congruence.
Qed.

(** X20. Coming from no version or from version 0, [upgrade] leaves only
    rows that can be loaded and logs one warning for each row that cannot,
    in the order of the table, before it announces the index.  When the ids
    are those of a primary key (no two rows share one), the rows left are
    exactly the rows that can be loaded, in their order: a row is deleted
    through its id, so a row that can be loaded survives unless it shares
    its id with one that cannot. *)
Theorem upgrade_removes_the_unloadable_rows (ver : option Z) (s : session) :
  ver = None \/ ver = Some 0 ->
  Forall loadable (rows (snd (upgrade ver s)))
  /\ (NoDup (map row_id (rows s)) ->
      rows (snd (upgrade ver s))
      = filter (fun r => is_Ok (loads (row_value r)) = true) (rows s))
  /\ records (snd (upgrade ver s))
     = records s ++ flat_map warning_of (rows s)
       ++ [Log INFO "Creating index on simple_persistence table."].
Proof.
  intros Hver.
  assert (Hup : snd (upgrade ver s)
                = Upgrade.create_index "simple_persistence"
                    ["feed"; "plugin"; "key"]
                    (Session (rows (remove_unloadable (rows s) s))
                       (indexes (remove_unloadable (rows s) s))
                       (records (remove_unloadable (rows s) s)
                        ++ [Log INFO
                              "Creating index on simple_persistence table."])))
    by (destruct Hver as [-> | ->]; reflexivity).
  rewrite Hup. cbn [Upgrade.create_index rows records].
  destruct (remove_unloadable_spec (rows s) s) as (-> & _ & ->).
  split; [| split].
  - apply Forall_forall. intros r Hr. now apply left_rows_loadable in Hr.
  - intros Hnd. apply filter_ext_in. intros r Hr. split.
    + intros Hid. apply (left_rows_loadable (rows s)).
      apply list_elem_of_filter. now split.
    + intros Hload Hid. unfold Upgrade.unloadable_ids in Hid.
      apply list_elem_of_fmap_1 in Hid as (r' & Heq & Hr').
      apply list_elem_of_filter in Hr' as [Hbad Hr'].
      apply Hbad.
      now rewrite <- (NoDup_map_injective row_id (rows s) r r' Hnd Hr Hr' Heq).
  - now rewrite <- app_assoc.
Qed.

End Loads.

(** ** The instances of the store *)

Lemma leaves_alone_pret {A} other (a : A) : leaves_alone other (pret a).
Proof. now intros st. Qed.

Lemma leaves_alone_praise {A} other (e : exn) :
  leaves_alone other (@praise A e).
Proof. now intros st. Qed.

Lemma leaves_alone_plog other l msg : leaves_alone other (plog l msg).
Proof. now intros st. Qed.

Lemma leaves_alone_query_first other self k :
  leaves_alone other (query_first self k).
Proof. now intros st. Qed.

Lemma leaves_alone_pbind {A B} other (c : P A) (k : A -> P B) :
  leaves_alone other c -> (forall a, leaves_alone other (k a)) ->
  leaves_alone other (pbind c k).
Proof.
  intros Hc Hk st. unfold pbind. specialize (Hc st).
  destruct (c st) as [[a|e] st']; cbn [snd] in *; [| assumption].
  now rewrite Hk.
Qed.

(** An access to the dict of an instance leaves the dict of an instance of
    another task or plugin as it is, also when the access raises. *)
Lemma leaves_alone_with_store {A} other self
    (f : gmap string cell -> result A * gmap string cell) :
  ~ same_store self other ->
  leaves_alone other (with_store self f).
Proof.
  intros Hdiff st. unfold with_store, peek, defaultdict_getitem.
  destruct st as [[fac1 its1] tbl logs].
  cbn [class_store items default_factory table logged].
  assert (Hplugin : forall fac2 its2 d,
             taskname self = taskname other ->
             peek_plugin other
               (DefaultDict fac2 (<[plugin_name self := d]> its2))
             = peek_plugin other (DefaultDict fac2 its2)).
  { intros fac2 its2 d Ht. unfold peek_plugin. cbn [items default_factory].
    rewrite lookup_insert_ne; [reflexivity |].
    intros Hp. apply Hdiff. now split. }
  assert (Hfill : forall fac2 its2 d,
             its2 !! plugin_name self = None -> fac2 = Some d ->
             peek_plugin other
               (DefaultDict fac2 (<[plugin_name self := d]> its2))
             = peek_plugin other (DefaultDict fac2 its2)).
  { intros fac2 its2 d Hnone ->. unfold peek_plugin.
    cbn [items default_factory].
    destruct (decide (plugin_name self = plugin_name other)) as [<- | Hne].
    - now rewrite lookup_insert_eq, Hnone.
    - now rewrite lookup_insert_ne by assumption. }
  destruct (decide (taskname self = taskname other)) as [Ht | Ht].
  - rewrite <- Ht.
    destruct (its1 !! taskname self) as [[fac2 its2]|] eqn:H1;
      cbn [items default_factory].
    + destruct (its2 !! plugin_name self) as [d|] eqn:H2.
      * destruct (f d) as [r d']. cbn [snd class_store items default_factory].
        rewrite lookup_insert_eq. now apply Hplugin.
      * destruct fac2 as [d|]; cbn [snd class_store items].
        -- destruct (f d) as [r d'].
           cbn [snd class_store items default_factory].
           rewrite lookup_insert_eq, insert_insert_eq. now apply Hplugin.
        -- now rewrite lookup_insert_eq.
    + destruct fac1 as [[fac2 its2]|]; cbn [snd class_store items];
        [| now rewrite H1].
      cbn [items default_factory].
      destruct (its2 !! plugin_name self) as [d|] eqn:H2.
      * destruct (f d) as [r d']. cbn [snd class_store items default_factory].
        rewrite lookup_insert_eq. now apply Hplugin.
      * destruct fac2 as [d|]; cbn [snd class_store items].
        -- destruct (f d) as [r d'].
           cbn [snd class_store items default_factory].
           rewrite lookup_insert_eq, insert_insert_eq. now apply Hplugin.
        -- now rewrite lookup_insert_eq.
  - destruct (its1 !! taskname self) as [[fac2 its2]|] eqn:H1;
      [| destruct fac1 as [[fac2 its2]|]; [| reflexivity]];
      cbn [items default_factory];
      (destruct (its2 !! plugin_name self) as [d|] eqn:H2;
       [| destruct fac2 as [d|]]);
      try destruct (f d) as [r d'];
      cbn [snd class_store items default_factory];
      rewrite ?lookup_insert_ne by assumption; reflexivity.
Qed.

Section Methods.

Variable repr : value -> string.

Lemma leaves_alone_exec other self c :
  ~ same_store self other -> leaves_alone other (exec repr self c).
Proof.
  intros Hdiff.
  destruct c as [k v | k | k |]; cbn [exec];
    apply leaves_alone_pbind; try (intros; apply leaves_alone_pret).
  - apply leaves_alone_pbind; [apply leaves_alone_plog |].
    intros _. now apply leaves_alone_with_store.
  - unfold __getitem__.
    apply leaves_alone_pbind; [now apply leaves_alone_with_store |].
    intros [|].
    + apply leaves_alone_pbind; [now apply leaves_alone_with_store |].
      intros c. destruct (is_DELETE c);
        [apply leaves_alone_praise | now apply leaves_alone_with_store].
    + apply leaves_alone_pbind; [apply leaves_alone_query_first |].
      intros [row|]; [| apply leaves_alone_praise].
      apply leaves_alone_pbind; [now apply leaves_alone_with_store |].
      intros _. apply leaves_alone_pret.
  - now apply leaves_alone_with_store.
  - apply leaves_alone_plog.
Qed.

(** X21. The instances of the store are kept apart by task name and plugin
    name: whatever is set, read, deleted or flushed through one instance,
    also when a call raises, the dict of an instance with another task name
    or another plugin name is what it was.  (This holds for whatever the
    class store is, so also for the two-level [defaultdict] that the class
    body means to build.) *)
Theorem instances_are_kept_apart
    (self other : SimplePersistence) (calls : list call) (st : state) :
  ~ same_store self other ->
  peek other (snd (run repr self calls st)) = peek other st.
Proof.
  intros Hdiff. revert st.
  induction calls as [|c calls IH]; [reflexivity |].
  destruct calls as [|c' calls]; [now apply leaves_alone_exec |].
  change (run repr self (c :: c' :: calls))
    with (pbind (exec repr self c) (fun _ => run repr self (c' :: calls))).
  apply leaves_alone_pbind; [now apply leaves_alone_exec | intros _; exact IH].
Qed.

End Methods.

Lemma upgrade_removes_the_unloadable_rows_witness :
  rows (snd (Upgrade.upgrade
               (fun s => if String.eqb s "garbage"
                         then Raise (Exn TypeError "could not find MARK")
                         else Ok (VStr s))
               None
               (Session [ RawRow 1 (Some "seen") (Some "a") "pickled";
                          RawRow 2 (Some "seen") (Some "b") "garbage";
                          RawRow 3 None (Some "c") "pickled too" ] [] [])))
  = [ RawRow 1 (Some "seen") (Some "a") "pickled";
      RawRow 3 None (Some "c") "pickled too" ].
Proof.
  destruct (upgrade_removes_the_unloadable_rows
              (fun s => if String.eqb s "garbage"
                        then Raise (Exn TypeError "could not find MARK")
                        else Ok (VStr s))
              None
              (Session [ RawRow 1 (Some "seen") (Some "a") "pickled";
                         RawRow 2 (Some "seen") (Some "b") "garbage";
                         RawRow 3 None (Some "c") "pickled too" ] [] [])
              (or_introl eq_refl)) as (_ & Hrows & _).
  rewrite Hrows; [reflexivity |].
  apply (bool_decide_unpack _). vm_compute. exact I.
Defined.

Lemma instances_are_kept_apart_witness :
  peek (new_for_task "tv" (Some "seen"))
       (snd (run (fun _ => "1") (new (Some "seen"))
               [SetItem "k" (VInt 1); DelItem "j"; Flush; GetItem "k"]
               (State nested_store [] [])))
  = peek (new_for_task "tv" (Some "seen")) (State nested_store [] []).
Proof.
  apply (instances_are_kept_apart (fun _ => "1")).
  intros [Htask _]. discriminate Htask.
Defined.

End Persistence_more_properties.

(* ===================================================================== *)
(** * Properties of the irc command line *)
(* ===================================================================== *)

Module Irc_properties.

Import Irc.

Section Terminal.

Variable str : value -> string.
Variable table_output : string -> list (list value) -> outcome string.

#[local] Abbreviation row := (fun ni : string * info => row_of str (fst ni) (snd ni)).
#[local] Abbreviation print_status := (Irc.print_status str table_output).
#[local] Abbreviation action_status := (Irc.action_status str table_output).
#[local] Abbreviation line_of := (Irc.line_of table_output).
#[local] Abbreviation shown := (Irc.shown table_output).
#[local] Abbreviation do_cli := (Irc.do_cli str table_output).

(** The loop prints one line for each connection: the table of the rows so
    far. *)
Lemma print_status_lines table_type (items : list (string * info)) :
  forall table_data,
    (forall k, (1 <= k <= length items)%nat ->
               shown table_type (table_data ++ map row (take k items))) ->
    print_status table_type table_data items
    = (map (fun k => Console (line_of table_type
                                (table_data ++ map row (take k items))))
           (seq 1 (length items)),
       Returns tt).
Proof.
  induction items as [|[name i] rest IH]; intros table_data Hshown;
    [reflexivity |].
  cbn [Irc.print_status length seq map].
  assert (H1 : shown table_type (table_data ++ [row_of str name i])).
  { apply (Hshown 1%nat). cbn [length]. lia. }
  assert (Hrest : forall k, (1 <= k <= length rest)%nat ->
             shown table_type
               ((table_data ++ [row_of str name i]) ++ map row (take k rest))).
  { intros k Hk. rewrite <- app_assoc. apply (Hshown (S k)).
    cbn [length]. lia. }
  rewrite (IH _ Hrest). cbn [take map fst snd].
  assert (Hlines :
    map (fun k => Console (line_of table_type
                    ((table_data ++ [row_of str name i])
                     ++ map row (take k rest))))
        (seq 1 (length rest))
    = map (fun k => Console (line_of table_type
                      (table_data ++ map row (take k ((name, i) :: rest)))))
          (seq 2 (length rest))).
  { rewrite <- (seq_shift (length rest) 1), map_map.
    apply map_ext. intros k. cbn [take map fst snd].
    now rewrite <- app_assoc. }
  rewrite Hlines. unfold Irc.shown in H1. rewrite take_0. cbn [map].
  destruct (table_output table_type (table_data ++ [row_of str name i]))
    as [text | [args | key | message | e]] eqn:Hout; try contradiction;
    (f_equal; f_equal; unfold Irc.line_of; now rewrite Hout).
Qed.

(** X22. [action_status] prints one table for each connection of the
    status, not one table for all: the table is built and printed inside
    the loop, so the k-th line printed is the table of the header and the
    first k connections (or the error of that table).  For a status without
    connections nothing is printed, not even the header. *)
Theorem action_status_prints_a_table_per_connection
    (o : options) (m : irc_manager) (st : list (string * info)) :
  (if String.eqb (irc_connection o) "all" then status_all m
   else status m (irc_connection o)) = Returns st ->
  (forall k, (1 <= k <= length st)%nat ->
             shown (table_type o) (header :: map row (take k st))) ->
  action_status o m
  = ((if String.eqb (irc_connection o) "all" then Call "status_all" []
      else Call "status" [VStr (irc_connection o)])
     :: map (fun k => Console (line_of (table_type o)
                                 (header :: map row (take k st))))
            (seq 1 (length st)),
     Returns tt).
Proof.
  intros Hst Hshown. unfold Irc.action_status.
  destruct (String.eqb (irc_connection o) "all"); rewrite Hst;
    now rewrite (print_status_lines (table_type o) st [header] Hshown).
Qed.

Ltac lines_differ H :=
  unfold successfully, not_valid in H; cbv [String.append] in H; discriminate H.

Ltac line_in_trace :=
  split;
  [ intros H; try reflexivity;
    repeat (apply elem_of_cons in H as [H | H]; [lines_differ H |]);
    now apply elem_of_nil in H
  | intros H; try discriminate H; repeat constructor ].

(** X23. [action_restart] and [action_stop] make exactly one call of the
    manager, for all the connections if and only if the connection is named
    ['all'], and never raise a [KeyError]: the line of success is printed
    exactly when the call of the manager returns, the line that reports an
    invalid connection exactly when it raises a [KeyError], and any other
    exception of the manager is raised by the action as it is. *)
Theorem restart_and_stop_report_an_unknown_connection
    (o : options) (m : irc_manager) :
  let connection := irc_connection o in
  let restarted :=
    if String.eqb connection "all" then restart_connections m
    else restart_connection m connection in
  let stopped :=
    if String.eqb connection "all" then stop_connections m false
    else stop_connection m connection in
  (is_KeyError_outcome (snd (action_restart o m)) = false
   /\ calls (fst (action_restart o m))
      = [ if String.eqb connection "all" then Call "restart_connections" []
          else Call "restart_connection" [VStr connection] ]
   /\ (Console (successfully "restarted" connection) ∈ fst (action_restart o m)
       <-> returned restarted = true)
   /\ (Console (not_valid connection) ∈ fst (action_restart o m)
       <-> is_KeyError_outcome restarted = true)
   /\ (returned (snd (action_restart o m)) = false ->
       snd (action_restart o m) = restarted))
  /\ (is_KeyError_outcome (snd (action_stop o m)) = false
      /\ calls (fst (action_stop o m))
         = [ if String.eqb connection "all"
             then Call "stop_connections" [VBool false]
             else Call "stop_connection" [VStr connection] ]
      /\ (Console (successfully "stopped" connection) ∈ fst (action_stop o m)
          <-> returned stopped = true)
      /\ (Console (not_valid connection) ∈ fst (action_stop o m)
          <-> is_KeyError_outcome stopped = true)
      /\ (returned (snd (action_stop o m)) = false ->
          snd (action_stop o m) = stopped)).
Proof.
  cbv zeta. unfold action_restart, action_stop.
  destruct (String.eqb (irc_connection o) "all").
  - destruct (restart_connections m) as [[] | [args | key | message | e]],
      (stop_connections m false) as [[] | [args' | key' | message' | e']];
      cbn [fst snd is_KeyError_outcome returned calls List.filter];
      repeat match goal with |- _ /\ _ => split end;
      first [reflexivity | discriminate | (intros _; reflexivity)
            | line_in_trace].
  - destruct (restart_connection m (irc_connection o))
      as [[] | [args | key | message | e]],
      (stop_connection m (irc_connection o))
      as [[] | [args' | key' | message' | e']];
      cbn [fst snd is_KeyError_outcome returned calls List.filter];
      repeat match goal with |- _ /\ _ => split end;
      first [reflexivity | discriminate | (intros _; reflexivity)
            | line_in_trace].
Qed.

(** X24. [do_cli] looks at the manager before it looks at the action: when
    the daemon does not run it prints one line and returns, whatever the
    action, known or not.  When the daemon runs, an action that is not
    ['status'], ['restart'] or ['stop'] (or no action at all) raises a
    [KeyError] on the action, before anything is printed or called. *)
Theorem do_cli_checks_the_daemon_first (o : options) (m : irc_manager) :
  irc_action o ∉ [Some "status"; Some "restart"; Some "stop"] ->
  do_cli None o
  = ([Console "IRC daemon does not appear to be running."], Returns tt)
  /\ do_cli (Some m) o = ([], Raises (KeyError (irc_action o))).
Proof.
  intros Hnot. split; [reflexivity |].
  unfold Irc.do_cli, action_map.
  destruct (irc_action o) as [a|]; [| reflexivity].
  destruct (String.eqb_spec a "status") as [-> | _];
    [exfalso; apply Hnot; repeat constructor |].
  destruct (String.eqb_spec a "restart") as [-> | _];
    [exfalso; apply Hnot; repeat constructor |].
  destruct (String.eqb_spec a "stop") as [-> | _];
    [exfalso; apply Hnot; repeat constructor |].
  reflexivity.
Qed.

End Terminal.

Lemma action_status_prints_a_table_per_connection_witness :
  action_status (fun _ => "irc.example.org")
    (fun _ data => Returns (join "|" (map (fun _ => "row") data)))
    (Options "all" (Some "status") "plain")
    (Manager
       (Returns [ ("a", Info (VInt 1) ["#x"; "#y"] ["#x"] (VNone, VNone));
                  ("b", Info (VInt 2) [] [] (VNone, VNone)) ])
       (fun _ => Raises (ValueError ["no such connection"]))
       (Returns tt) (fun _ => Returns tt)
       (fun _ => Returns tt) (fun _ => Returns tt))
  = ([Call "status_all" []; Console "row|row"; Console "row|row|row"],
     Returns tt).
Proof.
  exact (action_status_prints_a_table_per_connection
           (fun _ => "irc.example.org")
           (fun _ data => Returns (join "|" (map (fun _ => "row") data)))
           (Options "all" (Some "status") "plain")
           (Manager
              (Returns [ ("a", Info (VInt 1) ["#x"; "#y"] ["#x"] (VNone, VNone));
                         ("b", Info (VInt 2) [] [] (VNone, VNone)) ])
              (fun _ => Raises (ValueError ["no such connection"]))
              (Returns tt) (fun _ => Returns tt)
              (fun _ => Returns tt) (fun _ => Returns tt))
           [ ("a", Info (VInt 1) ["#x"; "#y"] ["#x"] (VNone, VNone));
             ("b", Info (VInt 2) [] [] (VNone, VNone)) ]
           eq_refl (fun _ _ => I)).
Defined.

Lemma do_cli_checks_the_daemon_first_witness :
  do_cli (fun _ => "") (fun _ _ => Returns "")
    (Some (Manager (Returns []) (fun _ => Returns [])
             (Returns tt) (fun _ => Returns tt)
             (fun _ => Returns tt) (fun _ => Returns tt)))
    (Options "all" None "plain")
  = ([], Raises (KeyError None)).
Proof.
  apply (do_cli_checks_the_daemon_first (fun _ => "") (fun _ _ => Returns "")
           (Options "all" None "plain")).
  cbn [irc_action]. intros H.
  repeat (apply elem_of_cons in H as [H | H]; [discriminate H |]).
  now apply elem_of_nil in H.
Defined.

End Irc_properties.

(* ===================================================================== *)
(** * Properties of the start of a task and of the input of deluge *)
(* ===================================================================== *)

Module Deluge_input_properties.

Import Deluge DelugeConfig DelugeInput.

(** The options after the two calls of [prepare_config]. *)
Lemma prepared_twice (config : input_config) :
  options (InputDeluge_prepare_config
             (InputDict (InputDeluge_prepare_config config)))
  = given_options config ∪ connection_defaults.
Proof.
  unfold InputDeluge_prepare_config. cbn [options filter_of].
  rewrite !Deluge_more_properties.DelugePlugin_prepare_config_union.
  rewrite Deluge_more_properties.union_idempotent_defaults.
  now destruct config.
Qed.

(** The subscripts of [on_task_start] on a dict completed with defaults
    that hold ['host'] and ['port'] and neither ['username'] nor
    ['password']. *)
Lemma on_task_start_prepared {C} (prepare_config : C -> gmap string value)
    (config : C) (given defaults : gmap string value) host port :
  prepare_config config = given ∪ defaults ->
  defaults !! "host" = Some host -> defaults !! "port" = Some port ->
  defaults !! "username" = None -> defaults !! "password" = None ->
  DelugePlugin_on_task_start prepare_config true config
  = match given !! "username", given !! "password" with
    | None, _ => Fails (Exception (Exn KeyError "username"))
    | Some _, None => Fails (Exception (Exn KeyError "password"))
    | Some username, Some password =>
        Done (DelugeRPCClient (DelugeOutput.get_default given "host" host)
                (DelugeOutput.get_default given "port" port)
                username password)
    end.
Proof.
  intros Hprep Hhost Hport Huser Hpass.
  unfold DelugePlugin_on_task_start, item, DelugeOutput.get_default.
  cbn [negb]. rewrite Hprep, !lookup_union, Hhost, Hport, Huser, Hpass.
  destruct (given !! "host"), (given !! "port"), (given !! "username"),
    (given !! "password"); reflexivity.
Qed.

(** X25. [prepare_config] gives ['host'] and ['port'] their defaults, but
    [on_task_start] also subscripts ['username'] and ['password'], which the
    schemas do not require: with [deluge_client] importable, the start of a
    task of [from_deluge3] or [deluge3] creates the client exactly when the
    configuration gives both, and raises [KeyError] on the first one that
    is missing.  A boolean configuration, which both schemas allow, always
    ends in [KeyError('username')]. *)
Theorem on_task_start_needs_the_credentials
    (config_in : input_config) (config_out : bool + gmap string value)
    (b : bool) :
  let started (given : gmap string value) :=
    match given !! "username", given !! "password" with
    | None, _ => Fails (Exception (Exn KeyError "username"))
    | Some _, None => Fails (Exception (Exn KeyError "password"))
    | Some username, Some password =>
        Done (DelugeRPCClient
                (DelugeOutput.get_default given "host" (VStr "localhost"))
                (DelugeOutput.get_default given "port" (VInt 58846))
                username password)
    end in
  InputDeluge_on_task_start true config_in = started (given_options config_in)
  /\ OutputDeluge_on_task_start true config_out
     = started (DelugeOutput.given config_out)
  /\ InputDeluge_on_task_start true (InputFlag b)
     = Fails (Exception (Exn KeyError "username"))
  /\ OutputDeluge_on_task_start true (inl b)
     = Fails (Exception (Exn KeyError "username")).
Proof.
  cbv zeta.
  assert (Hin : forall config,
             InputDeluge_on_task_start true config
             = match given_options config !! "username",
                     given_options config !! "password" with
               | None, _ => Fails (Exception (Exn KeyError "username"))
               | Some _, None => Fails (Exception (Exn KeyError "password"))
               | Some username, Some password =>
                   Done (DelugeRPCClient
                           (DelugeOutput.get_default (given_options config)
                              "host" (VStr "localhost"))
                           (DelugeOutput.get_default (given_options config)
                              "port" (VInt 58846))
                           username password)
               end).
  { intros config. unfold InputDeluge_on_task_start.
    apply (on_task_start_prepared _ _ _ connection_defaults);
      [apply prepared_twice | reflexivity ..]. }
  assert (Hout : forall config,
             OutputDeluge_on_task_start true config
             = match DelugeOutput.given config !! "username",
                     DelugeOutput.given config !! "password" with
               | None, _ => Fails (Exception (Exn KeyError "username"))
               | Some _, None => Fails (Exception (Exn KeyError "password"))
               | Some username, Some password =>
                   Done (DelugeRPCClient
                           (DelugeOutput.get_default (DelugeOutput.given config)
                              "host" (VStr "localhost"))
                           (DelugeOutput.get_default (DelugeOutput.given config)
                              "port" (VInt 58846))
                           username password)
               end).
  { intros config. unfold OutputDeluge_on_task_start.
    apply (on_task_start_prepared _ _ _ output_defaults);
      [apply Deluge_more_properties.prepared_union | reflexivity ..]. }
  split; [apply Hin |]. split; [apply Hout |]. split.
  - now rewrite Hin.
  - rewrite Hout. now destruct b.
Qed.

Section Input.

Variable isfile : string -> bool.
Variable expanduser : string -> string.

#[local] Abbreviation on_task_input := (DelugeInput.on_task_input isfile expanduser).

(** X26. The filter of the configuration of [from_deluge3] has no effect on
    the input: [generate_entries] asks for the status of the torrents
    without filters, so the one status call that [on_task_input] makes has
    the empty dict of filters and asks for the keys of [settings_map]
    followed by the keys of the configuration, and the calls, the log and
    the result are the same whatever the filter is. *)
Theorem on_task_input_ignores_the_filter
    (c : client) (f f' : option filter) (opts : gmap string value) :
  on_task_input c (InputDict (InputOptions f opts))
  = on_task_input c (InputDict (InputOptions f' opts))
  /\ forall filters fields,
       GetTorrentsStatus filters fields
       ∈ fst (fst (on_task_input c (InputDict (InputOptions f opts)))) ->
       filters = []
       /\ fields = table_keys settings_items
                   ++ keys_option (InputOptions f opts).
Proof.
  split; [reflexivity |].
  intros filters fields. unfold DelugeInput.on_task_input.
  destruct (connect c) as [[]|e]; cbn [fst].
  - cbn [get_torrents_status].
    destruct (torrents_status c [] (fields_of (InputOptions f opts)))
      as [torrents|e]; cbn [fst].
    + destruct (generate_entries isfile expanduser
                  (config_path_option (InputOptions f opts)) torrents)
        as [logs [entries|e]]; [destruct (disconnects c) |]; cbn [fst];
        intros Hin;
        repeat (apply elem_of_cons in Hin as [Hin | Hin];
                [try discriminate Hin; injection Hin as -> ->; now split |]);
        now apply elem_of_nil in Hin.
    + intros Hin.
      repeat (apply elem_of_cons in Hin as [Hin | Hin];
              [try discriminate Hin; injection Hin as -> ->; now split |]).
      now apply elem_of_nil in Hin.
  - intros Hin. apply elem_of_cons in Hin as [Hin | Hin]; [discriminate |].
    now apply elem_of_nil in Hin.
Qed.

(** X27. [on_task_input] disconnects only at the end of a successful run:
    the client is disconnected exactly when the configuration is a dict,
    the connection, the status call and [generate_entries] all succeed.  So
    entries are returned only after a disconnection, and a failure of
    [generate_entries] (a [KeyError] on an unmapped key, say) leaves the
    client connected.  A boolean configuration, which the schema allows,
    never gives entries: the handler calls [config.get]. *)
Theorem on_task_input_disconnects_only_on_success
    (c : client) (config : input_config) :
  (Disconnect ∈ fst (fst (on_task_input c config))
   <-> exists o torrents logs entries,
         config = InputDict o
         /\ connect c = Ok tt
         /\ torrents_status c [] (fields_of o) = Ok torrents
         /\ generate_entries isfile expanduser (config_path_option o) torrents
            = (logs, Ok entries))
  /\ (forall entries,
        snd (on_task_input c config) = Done entries ->
        last (fst (fst (on_task_input c config))) = Some Disconnect
        /\ exists o, config = InputDict o)
  /\ head (fst (fst (on_task_input c config))) = Some Connect.
Proof.
  unfold DelugeInput.on_task_input.
  destruct (connect c) as [[]|e].
  - destruct config as [b | o].
    + cbn [fst snd]. split; [| split; [discriminate | reflexivity]].
      split.
      * intros Hin. apply elem_of_cons in Hin as [Hin | Hin]; [discriminate |].
        now apply elem_of_nil in Hin.
      * intros (o & torrents & logs & entries & Hc & _). discriminate Hc.
    + cbn [get_torrents_status].
      destruct (torrents_status c [] (fields_of o)) as [torrents|e] eqn:Hts.
      * destruct (generate_entries isfile expanduser (config_path_option o)
                    torrents) as [logs [entries|e]] eqn:Hgen.
        -- assert (Hin : Disconnect
                         ∈ [Connect; GetTorrentsStatus [] (fields_of o);
                            Disconnect]) by repeat constructor.
           assert (Hex : exists o' torrents' logs' entries',
                      InputDict o = InputDict o' /\ Ok tt = Ok tt
                      /\ torrents_status c [] (fields_of o') = Ok torrents'
                      /\ generate_entries isfile expanduser
                           (config_path_option o') torrents'
                         = (logs', Ok entries'))
             by now exists o, torrents, logs, entries.
           destruct (disconnects c) as [[]|e]; cbn [fst snd];
             (split; [split; [intros _; exact Hex | intros _; exact Hin]
                     | split; [| reflexivity]]).
           ++ intros entries' _. split; [reflexivity | now exists o].
           ++ discriminate.
        -- cbn [fst snd]. split; [| split; [discriminate | reflexivity]].
           split.
           ++ intros Hin.
              repeat (apply elem_of_cons in Hin as [Hin | Hin];
                      [discriminate |]).
              now apply elem_of_nil in Hin.
           ++ intros (o' & torrents' & logs' & entries' & Ho & _ & Ht & Hg).
              injection Ho as <-. rewrite Hts in Ht. injection Ht as <-.
              rewrite Hgen in Hg. discriminate Hg.
      * cbn [fst snd]. split; [| split; [discriminate | reflexivity]].
        split.
        -- intros Hin.
           repeat (apply elem_of_cons in Hin as [Hin | Hin]; [discriminate |]).
           now apply elem_of_nil in Hin.
        -- intros (o' & torrents' & logs' & entries' & Ho & _ & Ht & _).
           injection Ho as <-. rewrite Hts in Ht. discriminate Ht.
  - cbn [fst snd]. split; [| split; [discriminate | reflexivity]].
    split.
    + intros Hin. apply elem_of_cons in Hin as [Hin | Hin]; [discriminate |].
      now apply elem_of_nil in Hin.
    + intros (o & torrents & logs & entries & _ & Hc & _). discriminate Hc.
Qed.

End Input.

(** A key of one of the two tables is mapped. *)
Lemma table_key_mapped (key : string) :
  key ∈ map fst (settings_items ++ extra_settings_items) ->
  exists k, lookup_flexget_key key = Ok k.
Proof.
  intros Hin. cbn [map app settings_items extra_settings_items fst] in Hin.
  repeat (apply elem_of_cons in Hin as [-> | Hin]; [eexists; reflexivity |]).
  now apply elem_of_nil in Hin.
Qed.

(** X28. Every key that [generate_entries] asks the daemon for is a key of
    [settings_map] or [extra_settings_map], when the keys of the
    configuration are keys of [extra_settings_map], as the schema of the
    plugin requires: the loop over a torrent dict that holds only keys that
    were asked for never raises [KeyError]. *)
Theorem requested_fields_are_mapped (o : input_options) :
  Forall (fun key => key ∈ table_keys extra_settings_items) (keys_option o) ->
  Forall (fun field => exists key k,
            field = VStr key /\ lookup_flexget_key key = Ok k)
         (fields_of o).
Proof.
  intros Hkeys. unfold fields_of. apply Forall_app. split.
  - apply Forall_forall. intros field Hin.
    apply list_elem_of_fmap_1 in Hin as ([key fk] & -> & Hin).
    destruct (table_key_mapped key) as [k Hk].
    + rewrite map_app. apply elem_of_app. left.
      now apply (list_elem_of_fmap_2 fst _ (key, fk)).
    + now exists key, k.
  - eapply Forall_impl; [exact Hkeys |]. intros field Hin.
    apply list_elem_of_fmap_1 in Hin as ([key fk] & -> & Hin).
    destruct (table_key_mapped key) as [k Hk].
    + rewrite map_app. apply elem_of_app. right.
      now apply (list_elem_of_fmap_2 fst _ (key, fk)).
    + now exists key, k.
Qed.

Lemma requested_fields_are_mapped_witness :
  Forall (fun field => exists key k,
            field = VStr key /\ lookup_flexget_key key = Ok k)
         (fields_of (InputOptions None
                       {["keys" := VList [VStr "tracker"; VStr "queue"]]})).
Proof.
  apply requested_fields_are_mapped.
  change (keys_option (InputOptions None
                         {["keys" := VList [VStr "tracker"; VStr "queue"]]}))
    with [VStr "tracker"; VStr "queue"].
  unfold table_keys. cbn [map extra_settings_items fst].
  apply List.Forall_cons; [repeat constructor |].
  apply List.Forall_cons; [repeat constructor | apply List.Forall_nil].
Defined.

End Deluge_input_properties.
